(** * Hybrid search engine for KBLI classification: a shallow embedding

    Source: [backend/hybrid_search.py].  The module implements BM25 keyword
    retrieval, a local vector store, reciprocal rank fusion, an LLM based
    re-ranker and the engine that chains them.

    Conventions of the embedding
    - Python [float] values are idealised as real numbers ([R]): rounding is
      not modelled, the order and the field operations are.  Sums are
      accumulated in the order of the code.
    - Text is a string of bytes, read as ASCII.  Where a property depends on
      the digits or the length of a code, the codes are assumed to be ASCII
      text ([ascii_codes]).
    - Python [dict]s with string keys are [gmap string _]; the dict of
      [reciprocal_rank_fusion], whose insertion order decides how ties are
      listed, is an association list.
    - Code that can raise returns a [result]; [Raise] carries the exception.
    - Counts such as [top_k] are Python [int]s, hence [Z], and a slice
      [l[:k]] is [py_prefix l k] with Python's meaning for negative [k]. *)

From Stdlib Require Import Reals Lra Lia ZArith String Ascii List.
From stdpp Require Import base option list gmap strings sorting.

Local Open Scope string_scope.
Local Open Scope list_scope.
Local Open Scope nat_scope.

(** ** Python prelude *)

Inductive exn : Type :=
  | ZeroDivisionError
  | IndexError
  | ValueError
  | TypeError
  | APIError.

Inductive result (A : Type) : Type :=
  | Ok (a : A)
  | Raise (e : exn).
Arguments Ok {A} a.
Arguments Raise {A} e.

#[global] Instance result_ret : MRet result := fun A a => Ok a.
#[global] Instance result_bind : MBind result := fun A B f m =>
  match m with
  | Ok a => f a
  | Raise e => Raise e
  end.

Definition raises {A} (m : result A) : Prop :=
  match m with
  | Ok _ => False
  | Raise _ => True
  end.

(** [x / y] on Python floats (and true division of ints). *)
Definition py_div (x y : R) : result R :=
  if Req_dec_T y 0 then Raise ZeroDivisionError else Ok (x / y)%R.

(** The slice [l[:k]]: a negative [k] counts from the end. *)
Definition py_prefix {A} (l : list A) (k : Z) : list A :=
  if (0 <=? k)%Z then take (Z.to_nat k) l
  else take (length l - Z.to_nat (- k)) l.

(** [l[i]] for an index that is known to be non-negative. *)
Definition py_index {A} (l : list A) (i : nat) : result A :=
  match l !! i with
  | Some x => Ok x
  | None => Raise IndexError
  end.

(** [sorted(l, key=key, reverse=True)] and [l.sort(key=key, reverse=True)]:
    a stable sort, largest key first; equal keys keep their input order. *)
Section PySort.
Context {A : Type} (key : A -> R).

Fixpoint insert_desc (x : A) (l : list A) : list A :=
  match l with
  | [] => [x]
  | y :: l' =>
      if Rle_dec (key y) (key x) then x :: y :: l'
      else y :: insert_desc x l'
  end.

Definition py_sorted_desc (l : list A) : list A := foldr insert_desc [] l.

Definition desc_sorted (l : list A) : Prop :=
  StronglySorted (fun a b => (key b <= key a)%R) l.

End PySort.

(** ** Documents, candidates and the OpenAI client *)

(** A corpus record is a dict of string fields ([kode_kbli], [judul],
    [hierarki], [cakupan]); [doc.get(f, "")] is [doc_get doc f]. *)
Abbreviation document := (gmap string string).

Definition doc_get (doc : document) (f : string) : string := default "" (doc !! f).

(** The values a candidate dict holds once the engine has added its own
    fields next to the strings of the record. *)
Inductive value : Type :=
  | VStr (s : string)
  | VInt (n : Z)
  | VFloat (x : R).

Abbreviation candidate := (gmap string value).

(** One element of the judge's ["rankings"] array.  [index], [relevance] and
    [reason] are read with [r.get(name, default)], so each may be absent;
    [Malformed] stands for an element on which the loop body raises (not an
    object, or an ["index"] that is not a number). *)
Inductive ranking_item : Type :=
  | RankingItem (index : option Z) (relevance : option value) (reason : option value)
  | Malformed.

(** The two calls the engine makes on [AsyncOpenAI].
    - [embeddings_create text] is [embeddings.create(input=text)] followed by
      [response.data[0].embedding].
    - [judge_rankings query candidates] is [chat.completions.create] on the
      prompt built from the query and the candidates, followed by the
      extraction of the JSON body, [json.loads] and [.get("rankings", [])];
      a failure of the call or of the parsing is a [Raise]. *)
Record AsyncOpenAI : Type := {
  embeddings_create : string -> result (list R);
  judge_rankings : string -> list candidate -> result (list ranking_item)
}.

(** ** BM25 *)

Module BM25.

Record t : Type := mk {
  k1 : R;
  b : R;
  corpus_size : nat;
  avgdl : R;
  doc_freqs : gmap string nat;
  idf : gmap string R;
  doc_len : list nat;
  documents : list (list string);
  original_docs : list document
}.

Definition __init__ (k1 b : R) : t :=
  {| k1 := k1; b := b; corpus_size := 0; avgdl := 0%R; doc_freqs := ∅;
     idf := ∅; doc_len := []; documents := []; original_docs := [] |}.

(** [text.lower()] on ASCII letters. *)
Definition lower_char (c : ascii) : ascii :=
  let n := nat_of_ascii c in
  if (65 <=? n)%nat && (n <=? 90)%nat then ascii_of_nat (n + 32) else c.

(** The class [[a-z0-9]]. *)
Definition is_token_char (c : ascii) : bool :=
  let n := nat_of_ascii c in
  ((97 <=? n)%nat && (n <=? 122)%nat) || ((48 <=? n)%nat && (n <=? 57)%nat).

(** The class [\w] that decides where [\b] holds.  The model reads text as
    ASCII: a byte above 127 counts as a separator (Python decides by the
    Unicode category of the character). *)
Definition is_word_char (c : ascii) : bool :=
  let n := nat_of_ascii c in
  is_token_char c || ((65 <=? n)%nat && (n <=? 90)%nat) || (n =? 95)%nat.

Definition emit (run : list ascii) (pure : bool) : list string :=
  match run with
  | [] => []
  | _ :: _ => if pure then [string_of_list_ascii (rev run)] else []
  end.

(** [re.findall(r'\b[a-z0-9]+\b', text)]: a match has to start and to end at a
    word boundary, so the matches are the maximal runs of word characters
    that consist of [[a-z0-9]] only.  [run] is the current run, last
    character first, and [pure] tells whether all of it is in the class. *)
Fixpoint findall_tokens (text : list ascii) (run : list ascii) (pure : bool)
  : list string :=
  match text with
  | [] => emit run pure
  | c :: text' =>
      if is_word_char c
      then findall_tokens text' (c :: run) (pure && is_token_char c)
      else emit run pure ++ findall_tokens text' [] true
  end.

Definition _tokenize (text : string) : list string :=
  match text with
  | EmptyString => []
  | _ =>
      let text := map lower_char (list_ascii_of_string text) in
      let tokens := findall_tokens text [] true in
      filter (fun t => 1 < String.length t) tokens
  end.

Definition default_text_fields : list string := ["judul"; "hierarki"; "cakupan"].

(** [" ".join(str(doc.get(f, "")) for f in text_fields)] *)
Definition combined_text (doc : document) (text_fields : list string) : string :=
  String.concat " " (map (doc_get doc) text_fields).

(** One round of the document frequency loop: every distinct token of a
    document adds one to its count. *)
Definition count_tokens (freqs : gmap string nat) (tokens : list string)
  : gmap string nat :=
  foldl (fun freqs token => <[token := default 0 (freqs !! token) + 1]> freqs)
        freqs (remove_dups tokens).

Definition smoothed_idf (corpus_size df : nat) : R :=
  ln ((INR corpus_size - INR df + 0.5) / (INR df + 0.5) + 1).

Definition fit (self : t) (documents : list document)
  (text_fields : option (list string)) : t :=
  let text_fields := default default_text_fields text_fields in
  let tokenized := map (fun doc => _tokenize (combined_text doc text_fields)) documents in
  let lens := map length tokenized in
  let n := length documents in
  let freqs := foldl count_tokens ∅ tokenized in
  {| k1 := k1 self;
     b := b self;
     corpus_size := n;
     avgdl := if (0 <? n)%nat then (INR (sum_list lens) / INR n)%R else 0%R;
     doc_freqs := freqs;
     idf := smoothed_idf n <$> freqs;
     doc_len := lens;
     documents := tokenized;
     original_docs := documents |}.

(** The loop of [_score_document] over the query terms; [score] is the
    running total.  Both divisions are Python divisions and can raise. *)
Fixpoint score_terms (self : t) (doc_tokens : list string) (doc_len : nat)
  (terms : list string) (score : R) : result R :=
  match terms with
  | [] => Ok score
  | term :: terms' =>
      match idf self !! term with
      | None => score_terms self doc_tokens doc_len terms' score
      | Some idf_term =>
          let tf := count_occ String.string_dec doc_tokens term in
          if (tf =? 0)%nat then score_terms self doc_tokens doc_len terms' score
          else
            let numerator := (INR tf * (k1 self + 1))%R in
            ratio ← py_div (INR doc_len) (avgdl self);
            let denominator :=
              (INR tf + k1 self * (1 - b self + b self * ratio))%R in
            quotient ← py_div numerator denominator;
            score_terms self doc_tokens doc_len terms'
                        (score + idf_term * quotient)%R
      end
  end.

Definition _score_document (self : t) (query_tokens doc_tokens : list string)
  (doc_len : nat) : result R :=
  score_terms self doc_tokens doc_len query_tokens 0%R.

(** The loop of [search] over [enumerate(self.documents)], from index [idx]
    on; [scores] is the list built so far. *)
Fixpoint score_all (self : t) (query_tokens : list string)
  (docs : list (list string)) (idx : nat) (scores : list (nat * R))
  : result (list (nat * R)) :=
  match docs with
  | [] => Ok scores
  | doc_tokens :: docs' =>
      len ← py_index (doc_len self) idx;
      score ← _score_document self query_tokens doc_tokens len;
      score_all self query_tokens docs' (S idx)
                (if Rlt_dec 0 score then scores ++ [(idx, score)] else scores)
  end.

Definition search (self : t) (query : string) (top_k : Z)
  : result (list (nat * R)) :=
  let query_tokens := _tokenize query in
  match query_tokens with
  | [] => Ok []
  | _ :: _ =>
      scores ← score_all self query_tokens (documents self) 0 [];
      Ok (py_prefix (py_sorted_desc snd scores) top_k)
  end.

End BM25.

(** ** Vector store *)

(** [np.linalg.norm(v)] and the products of [np.dot]. *)
Definition np_norm (v : list R) : R :=
  sqrt (foldr Rplus 0%R (map (fun x => (x * x)%R) v)).

Fixpoint np_dot (u v : list R) : R :=
  match u, v with
  | x :: u', y :: v' => (x * y + np_dot u' v')%R
  | _, _ => 0%R
  end.

(** [np.dot(matrix, vector)]: the shapes have to agree. *)
Definition np_dot_mv (m : list (list R)) (v : list R) : result (list R) :=
  if forallb (fun row => (length row =? length v)%nat) m
  then Ok (map (fun row => np_dot row v) m)
  else Raise ValueError.

(** What NumPy documents of [np.argsort(a)] with its default, unstable sort:
    the result lists every index of [a] once, and reading [a] along it gives
    a non-decreasing sequence.  The order of equal entries is left open. *)
Definition argsort_contract (argsort : list R -> list nat) : Prop :=
  forall a : list R,
    argsort a ≡ₚ seq 0 (length a) /\
    StronglySorted (fun i j => (nth i a 0 <= nth j a 0)%R) (argsort a).

Module LocalVectorStore.

Record t : Type := mk {
  client : AsyncOpenAI;
  embeddings : option (list (list R));
  documents : list document;
  is_ready : bool
}.

Definition __init__ (openai_client : AsyncOpenAI) : t :=
  {| client := openai_client; embeddings := None; documents := [];
     is_ready := false |}.

Definition _get_embedding (self : t) (text : string) : result (list R) :=
  embeddings_create (client self) text.

Section Search.
Variable np_argsort : list R -> list nat.

(** [[(int(idx), float(similarities[idx])) for idx in top_indices]] *)
Fixpoint pair_up (similarities : list R) (top_indices : list nat)
  : result (list (nat * R)) :=
  match top_indices with
  | [] => Ok []
  | idx :: rest =>
      s ← py_index similarities idx;
      results ← pair_up similarities rest;
      Ok ((idx, s) :: results)
  end.

Definition search (self : t) (query : string) (top_k : Z)
  : result (list (nat * R)) :=
  if negb (is_ready self) then Ok []
  else
    query_embedding ← _get_embedding self query;
    let query_embedding :=
      map (fun x => (x / (np_norm query_embedding + 1e-10))%R) query_embedding in
    matrix ← match embeddings self with
             | Some m => Ok m
             | None => Raise TypeError
             end;
    similarities ← np_dot_mv matrix query_embedding;
    let top_indices := py_prefix (rev (np_argsort similarities)) top_k in
    pair_up similarities top_indices.

End Search.

Definition CACHE_FILE : string := "kbli_embeddings_cache.pkl".

(** What the cache path can hold.  [Unreadable] is a file on which [open] or
    [pickle.load] raises, or whose content has no ['embeddings'] key;
    [OnlyEmbeddings] is a dict with ['embeddings'] and without ['documents'];
    [Pickled] is a dict with both, as [_save_cache] writes it: ['documents']
    is a list of records.  A pickle whose ['documents'] is not a list is not
    represented. *)
Inductive cache_file : Type :=
  | Unreadable
  | OnlyEmbeddings (embeddings : option (list (list R)))
  | Pickled (embeddings : option (list (list R))) (documents : list document).

(** What happens when [_save_cache] writes: the dump succeeds, [open] raises
    and the path is left as it was, or the dump raises after [open] has
    truncated the file. *)
Inductive write_outcome : Type :=
  | Written
  | OpenFailed
  | DumpFailed.

(** The files under the cache paths, a [Path] being the list of its parts,
    and how the next write on a path ends. *)
Record disk : Type := {
  files : gmap (list string) cache_file;
  on_write : list string -> write_outcome
}.

(** [base_path / self.CACHE_FILE] *)
Definition _get_cache_path (base_path : list string) : list string :=
  base_path ++ [CACHE_FILE].

(** [_load_cache] returns the store as the call leaves it and its result. *)
Definition _load_cache (self : t) (d : disk) (cache_path : list string) : t * bool :=
  match files d !! cache_path with
  | None => (self, false)
  | Some Unreadable => (self, false)
  | Some (OnlyEmbeddings m) =>
      ({| client := client self; embeddings := m; documents := documents self;
          is_ready := is_ready self |}, false)
  | Some (Pickled m docs) =>
      ({| client := client self; embeddings := m; documents := docs;
          is_ready := true |}, true)
  end.

Definition _save_cache (self : t) (d : disk) (cache_path : list string) : disk :=
  match on_write d cache_path with
  | Written =>
      {| files := <[cache_path := Pickled (embeddings self) (documents self)]> (files d);
         on_write := on_write d |}
  | OpenFailed => d
  | DumpFailed =>
      {| files := <[cache_path := Unreadable]> (files d); on_write := on_write d |}
  end.

(** [np.vstack(rows)]: at least one row, and rows of one length. *)
Definition np_vstack (rows : list (list R)) : result (list (list R)) :=
  match rows with
  | [] => Raise ValueError
  | row :: rest =>
      if forallb (fun r => (length r =? length row)%nat) rest then Ok rows
      else Raise ValueError
  end.

(** [embeddings / (np.linalg.norm(embeddings, axis=1, keepdims=True) + 1e-10)] *)
Definition normalize_rows (m : list (list R)) : list (list R) :=
  map (fun row => map (fun x => (x / (np_norm row + 1e-10))%R) row) m.

(** [" ".join(str(doc.get(f, ""))[:500] for f in text_fields)] *)
Definition embedding_text (doc : document) (text_fields : list string) : string :=
  String.concat " " (map (fun f => substring 0 500 (doc_get doc f)) text_fields).

Section Build.
(** [client.embeddings.create(input=batch)] on a list of texts, followed by
    [[e.embedding for e in response.data]]. *)
Variable create_batch : list string -> result (list (list R)).

(** The loop of [_get_embeddings_batch] over [range(0, len(texts), batch_size)]
    for a positive [batch_size]; [texts] is what is left to embed, and [fuel]
    bounds the rounds ([len(texts)] rounds are never exceeded). *)
Fixpoint embed_batches (fuel : nat) (texts : list string) (batch_size : nat)
  (all_embeddings : list (list R)) : result (list (list R)) :=
  match fuel with
  | 0 => Ok all_embeddings
  | S fuel' =>
      match texts with
      | [] => Ok all_embeddings
      | _ :: _ =>
          batch_embeddings ← create_batch (take batch_size texts);
          embed_batches fuel' (drop batch_size texts) batch_size
                        (all_embeddings ++ batch_embeddings)
      end
  end.

(** [range] raises on a step of zero and is empty for a negative one. *)
Definition _get_embeddings_batch (texts : list string) (batch_size : Z)
  : result (list (list R)) :=
  if (batch_size =? 0)%Z then Raise ValueError
  else if (batch_size <? 0)%Z then Ok []
  else embed_batches (length texts) texts (Z.to_nat batch_size) [].

(** [build_index] returns the store and the disk as the call leaves them,
    and whether it returned or raised.  [cache_dir] is [None] or a [Path]. *)
Definition build_index (self : t) (d : disk) (docs : list document)
  (text_fields : option (list string)) (cache_dir : option (list string))
  (force_rebuild : bool) : t * disk * result unit :=
  let text_fields := default ["judul"; "cakupan"] text_fields in
  let '(self, hit) :=
    match cache_dir with
    | Some dir =>
        if force_rebuild then (self, false)
        else
          let '(self', loaded) := _load_cache self d (_get_cache_path dir) in
          (self', loaded && (length (documents self') =? length docs)%nat)
    | None => (self, false)
    end in
  if hit then (self, d, Ok ())
  else
    let self := {| client := client self; embeddings := embeddings self;
                   documents := docs; is_ready := is_ready self |} in
    let texts := map (fun doc => embedding_text doc text_fields) docs in
    match _get_embeddings_batch texts 100 with
    | Raise e => (self, d, Raise e)
    | Ok embedding_list =>
        match np_vstack embedding_list with
        | Raise e => (self, d, Raise e)
        | Ok m =>
            let self := {| client := client self;
                           embeddings := Some (normalize_rows m);
                           documents := docs; is_ready := true |} in
            let d := match cache_dir with
                     | Some dir => _save_cache self d (_get_cache_path dir)
                     | None => d
                     end in
            (self, d, Ok ())
        end
    end.

End Build.
End LocalVectorStore.

(** ** Reciprocal rank fusion *)

(** [rrf_scores[doc_id] += x], after [rrf_scores[doc_id] = 0.0] for a new key.
    The association list keeps the keys in the order of their insertion, as
    the dict does. *)
Fixpoint rrf_add (doc_id : nat) (x : R) (rrf_scores : list (nat * R))
  : list (nat * R) :=
  match rrf_scores with
  | [] => [(doc_id, (0 + x)%R)]
  | (d, v) :: rest =>
      if decide (d = doc_id) then (d, (v + x)%R) :: rest
      else (d, v) :: rrf_add doc_id x rest
  end.

(** The inner loop over [enumerate(ranking)], from position [rank] on. *)
Fixpoint rrf_ranking (k : Z) (ranking : list (nat * R)) (rank : nat)
  (rrf_scores : list (nat * R)) : result (list (nat * R)) :=
  match ranking with
  | [] => Ok rrf_scores
  | (doc_id, _) :: rest =>
      x ← py_div 1 (IZR (k + Z.of_nat rank + 1));
      rrf_ranking k rest (S rank) (rrf_add doc_id x rrf_scores)
  end.

Fixpoint rrf_rankings (k : Z) (rankings : list (list (nat * R)))
  (rrf_scores : list (nat * R)) : result (list (nat * R)) :=
  match rankings with
  | [] => Ok rrf_scores
  | ranking :: rest =>
      rrf_scores ← rrf_ranking k ranking 0 rrf_scores;
      rrf_rankings k rest rrf_scores
  end.

Definition reciprocal_rank_fusion (rankings : list (list (nat * R))) (k : Z)
  : result (list (nat * R)) :=
  rrf_scores ← rrf_rankings k rankings [];
  Ok (py_sorted_desc snd rrf_scores).

(** The constant the engine passes, which is also the default. *)
Definition K : Z := 60.

(** ** Semantic re-ranker *)

Module SemanticReranker.

Record t : Type := mk { client : AsyncOpenAI }.

Definition __init__ (openai_client : AsyncOpenAI) : t :=
  {| client := openai_client |}.

(** The loop that maps the judge's items back to candidates; [reranked] is
    the list built so far.  A copy of the candidate receives the two new
    keys. *)
Fixpoint map_back (candidates : list candidate) (rankings : list ranking_item)
  (reranked : list candidate) : result (list candidate) :=
  match rankings with
  | [] => Ok reranked
  | Malformed :: _ => Raise TypeError
  | RankingItem index relevance reason :: rest =>
      let idx := (default 1%Z index - 1)%Z in
      if decide (0 <= idx < Z.of_nat (length candidates))%Z then
        c ← py_index candidates (Z.to_nat idx);
        let c := <["relevance_score" := default (VFloat 0) relevance]> c in
        let c := <["reasoning" := default (VStr "") reason]> c in
        map_back candidates rest (reranked ++ [c])
      else map_back candidates rest reranked
  end.

(** The body of the [try] block: the call of the judge, the parsing of its
    answer and the loop over the first [top_k] items. *)
Definition judge_and_map (self : t) (query : string) (candidates : list candidate)
  (top_k : Z) : result (list candidate) :=
  rankings ← judge_rankings (client self) query candidates;
  map_back candidates (py_prefix rankings top_k) [].

Definition rerank (self : t) (query : string) (candidates : list candidate)
  (top_k : Z) : list candidate :=
  match candidates with
  | [] => []
  | _ :: _ =>
      let candidates := py_prefix candidates 15 in
      match judge_and_map self query candidates top_k with
      | Ok reranked => reranked
      | Raise _ => py_prefix candidates top_k
      end
  end.

End SemanticReranker.

(** ** Hybrid search engine *)

Module HybridSearchEngine.

Record t : Type := mk {
  client : AsyncOpenAI;
  bm25 : BM25.t;
  vector_store : LocalVectorStore.t;
  reranker : SemanticReranker.t;
  documents : list document;
  is_ready : bool
}.

Definition __init__ (openai_client : AsyncOpenAI) : t :=
  {| client := openai_client;
     bm25 := BM25.__init__ 1.5 0.75;
     vector_store := LocalVectorStore.__init__ openai_client;
     reranker := SemanticReranker.__init__ openai_client;
     documents := [];
     is_ready := false |}.

(** The two dicts [search] can return. *)
Inductive response : Type :=
  | NotInitialized (error : string) (results : list candidate)
  | Found (query : string) (total_candidates bm25_top vector_top : nat)
          (results : list candidate).

Definition results (r : response) : list candidate :=
  match r with
  | NotInitialized _ rs => rs
  | Found _ _ _ _ rs => rs
  end.

(** [s.isdigit()], read on ASCII digits. *)
Definition isdigit (s : string) : bool :=
  match list_ascii_of_string s with
  | [] => false
  | cs => forallb (fun c => let n := nat_of_ascii c in
                            (48 <=? n)%nat && (n <=? 57)%nat) cs
  end.

Definition valid_code (d : document) : bool :=
  isdigit (doc_get d "kode_kbli") && (String.length (doc_get d "kode_kbli") =? 5)%nat.

(** [{**doc, "rrf_score": rrf_score, "_doc_idx": doc_idx}] *)
Definition make_candidate (doc : document) (rrf_score : R) (doc_idx : nat)
  : candidate :=
  <["_doc_idx" := VInt (Z.of_nat doc_idx)]>
    (<["rrf_score" := VFloat rrf_score]> (VStr <$> doc)).

(** The loop over [fused_ranking[:retrieval_top_k]] that builds
    [candidates] and [seen_codes]. *)
Fixpoint collect (docs : list document) (fused : list (nat * R))
  (candidates : list candidate) (seen_codes : gset string)
  : result (list candidate) :=
  match fused with
  | [] => Ok candidates
  | (doc_idx, rrf_score) :: rest =>
      doc ← py_index docs doc_idx;
      let code := doc_get doc "kode_kbli" in
      if decide (code ∈ seen_codes) then collect docs rest candidates seen_codes
      else collect docs rest
             (candidates ++ [make_candidate doc rrf_score doc_idx])
             ({[code]} ∪ seen_codes)
  end.

Section Engine.
Variable np_argsort : list R -> list nat.

(** [vector_store.build_index(valid_docs, ...)] talks to the embedding
    provider and to the cache file; the engine only depends on whether it
    returns, and on the store it leaves behind. *)
Variable build_index :
  LocalVectorStore.t -> list document -> LocalVectorStore.t * result unit.

(** [initialize] returns the engine as the call leaves it, together with the
    outcome, since a failure half way keeps what was assigned before it. *)
Definition initialize (self : t) (documents : list document) : t * result unit :=
  let valid_docs := filter (fun d => valid_code d = true) documents in
  let bm25' := BM25.fit (bm25 self) valid_docs (Some ["judul"; "hierarki"; "cakupan"]) in
  let '(store', outcome) := build_index (vector_store self) valid_docs in
  let self' := {| client := client self; bm25 := bm25'; vector_store := store';
                  reranker := reranker self; documents := valid_docs;
                  is_ready := is_ready self |} in
  match outcome with
  | Raise e => (self', Raise e)
  | Ok _ =>
      ({| client := client self; bm25 := bm25'; vector_store := store';
          reranker := reranker self; documents := valid_docs;
          is_ready := true |}, Ok ())
  end.

Definition _bm25_search (self : t) (query : string) (top_k : Z)
  : result (list (nat * R)) :=
  BM25.search (bm25 self) query top_k.

Definition search (self : t) (query : string) (top_k : Z)
  (use_reranking : bool) (retrieval_top_k : Z) : result response :=
  if negb (is_ready self)
  then Ok (NotInitialized "Search engine not initialized" [])
  else
    bm25_results ← _bm25_search self query retrieval_top_k;
    vector_results ←
      LocalVectorStore.search np_argsort (vector_store self) query retrieval_top_k;
    fused_ranking ← reciprocal_rank_fusion [bm25_results; vector_results] 60;
    candidates ←
      collect (documents self) (py_prefix fused_ranking retrieval_top_k) [] ∅;
    let final_results :=
      match use_reranking, candidates with
      | true, _ :: _ => SemanticReranker.rerank (reranker self) query candidates top_k
      | _, _ => py_prefix candidates top_k
      end in
    (* [r.pop("_doc_idx", None)] for every entry.  The entries are distinct
       dicts, the candidates themselves or the copies the re-ranker made, so a
       pop never reaches another entry. *)
    let final_results := map (delete "_doc_idx") final_results in
    Ok (Found query (length fused_ranking) (length bm25_results)
              (length vector_results) final_results).

(** Stages 1 and 2 of [search] on their own: the two result lists, the
    fused ranking and the candidates. *)
Definition retrieve (self : t) (query : string) (retrieval_top_k : Z)
  : result (list (nat * R) * list (nat * R) * list (nat * R) * list candidate) :=
  bm25_results ← _bm25_search self query retrieval_top_k;
  vector_results ←
    LocalVectorStore.search np_argsort (vector_store self) query retrieval_top_k;
  fused_ranking ← reciprocal_rank_fusion [bm25_results; vector_results] 60;
  candidates ←
    collect (documents self) (py_prefix fused_ranking retrieval_top_k) [] ∅;
  Ok (bm25_results, vector_results, fused_ranking, candidates).

(** [search_simple] calls [search] with the defaults [use_reranking=True] and
    [retrieval_top_k=20] and returns [result.get("results", [])]. *)
Definition search_simple (self : t) (query : string) (top_k : Z)
  : result (list candidate) :=
  r ← search self query top_k true 20;
  Ok (results r).

End Engine.
End HybridSearchEngine.


(** ** Vocabulary of the statements *)

(** The number of documents whose token list contains [term]. *)
Definition containing (term : string) (tokenized : list (list string)) : nat :=
  length (filter (fun tokens => term ∈ tokens) tokenized).

(** What the loop of [BM25.search] adds to [scores]: a document of the
    index, its BM25 score against the query, and the score is positive. *)
Definition scored (self : BM25.t) (query_tokens : list string)
  (entry : nat * R) : Prop :=
  exists doc_tokens len,
    BM25.documents self !! entry.1 = Some doc_tokens /\
    BM25.doc_len self !! entry.1 = Some len /\
    BM25._score_document self query_tokens doc_tokens len = Ok entry.2 /\
    (0 < entry.2)%R.

(** The score the association list holds for a document, 0 when absent. *)
Fixpoint rrf_get (doc_id : nat) (rrf_scores : list (nat * R)) : R :=
  match rrf_scores with
  | [] => 0%R
  | (d, v) :: rest => if decide (d = doc_id) then v else rrf_get doc_id rest
  end.

(** What one ranking adds to a document, read from position [rank] on:
    [1 / (k + rank + 1)] at every position that names it. *)
Fixpoint rrf_occurrences (k : Z) (doc_id : nat) (ranking : list (nat * R))
  (rank : nat) : R :=
  match ranking with
  | [] => 0%R
  | (d, _) :: rest =>
      ((if decide (d = doc_id) then 1 / IZR (k + Z.of_nat rank + 1) else 0)
       + rrf_occurrences k doc_id rest (S rank))%R
  end.

(** The sum of the contributions of all the lists. *)
Definition rrf_total (k : Z) (rankings : list (list (nat * R))) (doc_id : nat) : R :=
  foldr (fun ranking acc => (rrf_occurrences k doc_id ranking 0 + acc)%R) 0%R rankings.

(** The formula as the specification words it.  [rank_of] is the 0-based
    position of a document in a ranked list; a list that lacks the document
    contributes nothing. *)
Fixpoint rank_from (doc_id : nat) (ranking : list (nat * R)) (rank : nat)
  : option nat :=
  match ranking with
  | [] => None
  | (d, _) :: rest =>
      if decide (d = doc_id) then Some rank else rank_from doc_id rest (S rank)
  end.

Definition rank_of (doc_id : nat) (ranking : list (nat * R)) : option nat :=
  rank_from doc_id ranking 0.

Definition rrf_term (k : Z) (doc_id : nat) (ranking : list (nat * R)) : R :=
  match rank_of doc_id ranking with
  | Some rank => (1 / IZR (k + Z.of_nat rank + 1))%R
  | None => 0%R
  end.

Definition rrf_sum (k : Z) (rankings : list (list (nat * R))) (doc_id : nat) : R :=
  foldr (fun ranking acc => (rrf_term k doc_id ranking + acc)%R) 0%R rankings.

(** [c.get("kode_kbli", "")] on a candidate. *)
Definition cand_code (c : candidate) : string :=
  match c !! "kode_kbli" with
  | Some (VStr s) => s
  | _ => ""
  end.

(** The identifier of the record a fused entry points to. *)
Definition entry_code (docs : list document) (entry : nat * R) : option string :=
  (fun doc => doc_get doc "kode_kbli") <$> docs !! entry.1.

(** No entry of [l] before position [i] points to a record with the
    identifier [code]. *)
Definition first_at (docs : list document) (l : list (nat * R)) (i : nat)
  (code : string) : Prop :=
  forall j e, j < i -> l !! j = Some e -> entry_code docs e <> Some code.

(** A candidate as the re-ranker returns it: a copy with the two new keys. *)
Definition judged (c : candidate) (relevance reason : value) : candidate :=
  <["reasoning" := reason]> (<["relevance_score" := relevance]> c).

(** The similarities [search] computes: the rows of the store against the
    normalised embedding of the query. *)
Definition similarities_of (self : LocalVectorStore.t) (query : string)
  : result (list R) :=
  query_embedding ← LocalVectorStore._get_embedding self query;
  matrix ← match LocalVectorStore.embeddings self with
           | Some m => Ok m
           | None => Raise TypeError
           end;
  np_dot_mv matrix
    (map (fun x => (x / (np_norm query_embedding + 1e-10))%R) query_embedding).

(** The query and the document have a token in common. *)
Definition shares_term (query_tokens doc_tokens : list string) : Prop :=
  exists term, term ∈ query_tokens /\ term ∈ doc_tokens.

(** The order of the results of [BM25.search]: by score, largest first, and
    by index, smallest first, among equal scores. *)
Definition score_then_index (a b : nat * R) : Prop :=
  (b.2 < a.2)%R \/ (b.2 = a.2 /\ a.1 < b.1).

(** [a] is ranked before [b] in every list that contains [b]. *)
Definition ranked_before (rankings : list (list (nat * R))) (a b : nat) : Prop :=
  forall ranking rb,
    ranking ∈ rankings -> rank_of b ranking = Some rb ->
    exists ra, rank_of a ranking = Some ra /\ ra < rb.

(** The text is ASCII.  On such text [str.isdigit] and [len] are what
    [isdigit] and [String.length] compute, so [valid_code] decides as the
    filter of [initialize] does. *)
Definition ascii_only (text : string) : bool :=
  forallb (fun c => (nat_of_ascii c <? 128)%nat) (list_ascii_of_string text).

Definition ascii_codes (documents : list document) : Prop :=
  Forall (fun doc => ascii_only (doc_get doc "kode_kbli") = true) documents.

(** [build_index] finds a cache that it accepts: a directory is given, a
    rebuild is not forced, and the file holds both keys and as many documents
    as the call was given. *)
Definition cache_hit (d : LocalVectorStore.disk) (docs : list document)
  (cache_dir : option (list string)) (force_rebuild : bool) : bool :=
  match cache_dir with
  | Some dir =>
      negb force_rebuild &&
      match LocalVectorStore.files d !! LocalVectorStore._get_cache_path dir with
      | Some (LocalVectorStore.Pickled _ cached) => (length cached =? length docs)%nat
      | _ => false
      end
  | None => false
  end.

(** The call [self.vector_store.build_index(valid_docs, text_fields=["judul",
    "cakupan"], cache_dir=cache_dir)] of [initialize], with the provider
    [create_batch] and the disk [d]. *)
Definition initialize_build_index (create_batch : list string -> result (list (list R)))
  (d : LocalVectorStore.disk) (cache_dir : option (list string))
  (store : LocalVectorStore.t) (docs : list document)
  : LocalVectorStore.t * result unit :=
  let '(store', _, outcome) :=
    LocalVectorStore.build_index create_batch store d docs
      (Some ["judul"; "cakupan"]) cache_dir false in
  (store', outcome).

(** Ties of a result list, read by index. *)
Definition ties_ascending (res : list (nat * R)) : Prop :=
  forall i j x y, i < j -> res !! i = Some x -> res !! j = Some y ->
    x.2 = y.2 -> x.1 < y.1.

Definition ties_descending (res : list (nat * R)) : Prop :=
  forall i j x y, i < j -> res !! i = Some x -> res !! j = Some y ->
    x.2 = y.2 -> y.1 < x.1.

(** ** Sample data *)

(** Two sorts that meet [argsort_contract].  Both insert the indices from
    the last to the first; [argsort_stable] puts an index in front of the
    entries that are equal to its own, [argsort_late] behind them. *)
Fixpoint insert_asc (before : R -> R -> bool) (a : list R) (i : nat)
  (l : list nat) : list nat :=
  match l with
  | [] => [i]
  | j :: l' =>
      if before (nth i a 0%R) (nth j a 0%R) then i :: j :: l'
      else j :: insert_asc before a i l'
  end.

Definition argsort_by (before : R -> R -> bool) (a : list R) : list nat :=
  foldr (insert_asc before a) [] (seq 0 (length a)).

Definition Rleb (x y : R) : bool := if Rle_dec x y then true else false.
Definition Rltb (x y : R) : bool := if Rlt_dec x y then true else false.

Definition argsort_stable : list R -> list nat := argsort_by Rleb.
Definition argsort_late : list R -> list nat := argsort_by Rltb.

(** A provider whose embeddings have one dimension and whose judge is down. *)
Definition sample_client : AsyncOpenAI :=
  {| embeddings_create := fun _ => Ok [1%R];
     judge_rankings := fun _ _ => Raise APIError |}.

Definition sample_doc (code title : string) : document :=
  <["kode_kbli" := code]> (<["judul" := title]> ∅).

Definition sample_docs : list document :=
  [sample_doc "47111" "Perdagangan Eceran Makanan"; sample_doc "56101" "Restoran"].

Definition sample_store (rows : list (list R)) : LocalVectorStore.t :=
  {| LocalVectorStore.client := sample_client;
     LocalVectorStore.embeddings := Some rows;
     LocalVectorStore.documents := sample_docs;
     LocalVectorStore.is_ready := true |}.

(** A build that gives every record the same one-dimensional embedding. *)
Definition sample_build_index (store : LocalVectorStore.t) (docs : list document)
  : LocalVectorStore.t * result unit :=
  ({| LocalVectorStore.client := LocalVectorStore.client store;
      LocalVectorStore.embeddings := Some (map (fun _ => [1%R]) docs);
      LocalVectorStore.documents := docs;
      LocalVectorStore.is_ready := true |}, Ok ()).

(** A build during which the embedding provider fails. *)
Definition failing_build_index (store : LocalVectorStore.t) (docs : list document)
  : LocalVectorStore.t * result unit :=
  ({| LocalVectorStore.client := LocalVectorStore.client store;
      LocalVectorStore.embeddings := LocalVectorStore.embeddings store;
      LocalVectorStore.documents := docs;
      LocalVectorStore.is_ready := LocalVectorStore.is_ready store |},
   Raise APIError).

Definition sample_engine : HybridSearchEngine.t :=
  (HybridSearchEngine.initialize sample_build_index
     (HybridSearchEngine.__init__ sample_client) sample_docs).1.

(** A corpus in which one title is shared by every record, and one in which
    no record has a token of two characters or more. *)
Definition common_docs : list document :=
  [sample_doc "56101" "Restoran"; sample_doc "56102" "Restoran"].

Definition tokenless_docs : list document :=
  [sample_doc "47111" "a"; sample_doc "56101" "-"].

(** Two ranked lists that agree on their first document. *)
Definition sample_rankings : list (list (nat * R)) :=
  [[(0, 2.5%R); (1, 1%R)]; [(0, 0.9%R); (2, 0.8%R)]].

(** Two identical rows, so two equal similarities. *)
Definition twin_store : LocalVectorStore.t := sample_store [[1%R]; [1%R]].

(** The similarity of either row of [twin_store] with any query. *)
Definition twin_similarity : R := (1 * (1 / (np_norm [1] + 1e-10)) + 0)%R.

(** A corpus with a duplicated identifier, and a fused ranking over it. *)
Definition dup_docs : list document :=
  [sample_doc "47111" "Perdagangan Eceran"; sample_doc "47111" "Toko Kelontong";
   sample_doc "56101" "Restoran"].

Definition dup_fused : list (nat * R) := [(1, 0.5%R); (0, 0.4%R); (2, 0.3%R)].

(** What fusion returns for [sample_engine] when BM25 finds nothing and the
    vector store lists document 1 before document 0. *)
Definition sample_fused : list (nat * R) :=
  [(1, (0 + 1 / 61)%R); (0, (0 + 1 / 62)%R)].

Definition sample_candidates : list candidate :=
  [HybridSearchEngine.make_candidate (sample_doc "56101" "Restoran") (0 + 1 / 61) 1;
   HybridSearchEngine.make_candidate
     (sample_doc "47111" "Perdagangan Eceran Makanan") (0 + 1 / 62) 0].

(** Sixteen candidates, one more than the re-ranker sends to the judge. *)
Definition sixteen_candidates : list candidate :=
  map (fun i => HybridSearchEngine.make_candidate (sample_doc "56101" "Restoran") 0 i)
      (seq 0 16).

(** A corpus in which "restoran" is in two documents and "makanan" in one. *)
Definition menu_docs : list document :=
  [sample_doc "56101" "Restoran"; sample_doc "56102" "Restoran Makanan Makanan"].

(** An index put together by hand, not by [fit]: one document with a token,
    and an average length of zero. *)
Definition unfitted_index : BM25.t :=
  {| BM25.k1 := 1.5; BM25.b := 0.75; BM25.corpus_size := 1; BM25.avgdl := 0%R;
     BM25.doc_freqs := {["ab" := 1]}; BM25.idf := {["ab" := 1%R]};
     BM25.doc_len := [1]; BM25.documents := [["ab"]]; BM25.original_docs := [] |}.

(** A batch provider that gives every text the embedding [[1]], one that is
    down, and a disk without files on which every write succeeds. *)
Definition unit_batch (batch : list string) : result (list (list R)) :=
  Ok (map (fun _ => [1%R]) batch).

Definition failing_batch (batch : list string) : result (list (list R)) :=
  Raise APIError.

Definition empty_disk : LocalVectorStore.disk :=
  {| LocalVectorStore.files := ∅; LocalVectorStore.on_write := fun _ => LocalVectorStore.Written |}.

(** * Properties *)

(** ** Slices, divisions and the sort *)

Lemma py_prefix_take {A} (l : list A) (k : Z) :
  exists n, py_prefix l k = take n l.
Proof. unfold py_prefix. destruct (0 <=? k)%Z; eauto. Qed.

Lemma py_prefix_nonneg {A} (l : list A) (k : Z) :
  (0 <= k)%Z -> py_prefix l k = take (Z.to_nat k) l.
Proof. intros Hk. unfold py_prefix. by rewrite (proj2 (Z.leb_le 0 k) Hk). Qed.

Lemma py_prefix_length_le {A} (l : list A) (k : Z) :
  (0 <= k)%Z -> (Z.of_nat (length (py_prefix l k)) <= k)%Z.
Proof. intros Hk. rewrite py_prefix_nonneg by done. rewrite length_take. lia. Qed.

Lemma py_prefix_length_le_all {A} (l : list A) (k : Z) :
  length (py_prefix l k) <= length l.
Proof. destruct (py_prefix_take l k) as [n ->]. rewrite length_take. lia. Qed.

Lemma py_prefix_subseteq {A} (l : list A) (k : Z) : py_prefix l k ⊆ l.
Proof. destruct (py_prefix_take l k) as [n ->]. apply subseteq_take. Qed.

Lemma py_prefix_nil {A} (k : Z) : py_prefix (@nil A) k = [].
Proof. destruct (py_prefix_take (@nil A) k) as [n ->]. by destruct n. Qed.

Example py_prefix_drops_from_end : py_prefix [1; 2; 3] (-1) = [1; 2].
Proof. reflexivity. Qed.

Example py_prefix_clips : py_prefix [1; 2; 3] (-5) = [] /\ py_prefix [1; 2; 3] 7 = [1; 2; 3].
Proof. split; reflexivity. Qed.

Lemma py_div_ok (x y : R) : y <> 0%R -> py_div x y = Ok (x / y)%R.
Proof. intros Hy. unfold py_div. by destruct (Req_dec_T y 0). Qed.

Lemma py_div_zero (x : R) : py_div x 0 = Raise ZeroDivisionError.
Proof. unfold py_div. by destruct (Req_dec_T 0 0). Qed.

Lemma py_index_ok {A} (l : list A) (i : nat) (x : A) :
  l !! i = Some x -> py_index l i = Ok x.
Proof. intros H. unfold py_index. by rewrite H. Qed.

Lemma py_index_inv {A} (l : list A) (i : nat) (x : A) :
  py_index l i = Ok x -> l !! i = Some x.
Proof. unfold py_index. destruct (l !! i); congruence. Qed.

#[local] Instance R_eq_dec : EqDecision R := Req_dec_T.

Section PySortFacts.
Context {A : Type} (key : A -> R).

Lemma insert_desc_perm x l : insert_desc key x l ≡ₚ x :: l.
Proof.
  induction l as [|y l IH]; simpl; [done|].
  destruct (Rle_dec (key y) (key x)); [done|].
  rewrite IH. apply Permutation_swap.
Qed.

Lemma py_sorted_desc_perm l : py_sorted_desc key l ≡ₚ l.
Proof.
  induction l as [|x l IH]; simpl; [done|].
  rewrite insert_desc_perm. by rewrite IH.
Qed.

Lemma insert_desc_sorted x l :
  desc_sorted key l -> desc_sorted key (insert_desc key x l).
Proof.
  unfold desc_sorted.
  induction l as [|y l IH]; simpl; intros Hs.
  - repeat constructor.
  - apply StronglySorted_inv in Hs as [Hl Hy].
    destruct (Rle_dec (key y) (key x)) as [Hle|Hnle].
    + constructor; [by constructor|].
      constructor; [done|].
      eapply Forall_impl; [exact Hy|]. simpl. intros z Hz. lra.
    + constructor; [by apply IH|].
      rewrite insert_desc_perm. constructor; [lra|done].
Qed.

Lemma py_sorted_desc_sorted l : desc_sorted key (py_sorted_desc key l).
Proof.
  induction l as [|x l IH]; simpl.
  - constructor.
  - by apply insert_desc_sorted.
Qed.

Lemma desc_sorted_take n l : desc_sorted key l -> desc_sorted key (take n l).
Proof.
  unfold desc_sorted. revert n.
  induction l as [|x l IH]; intros [|n] Hs; simpl; try constructor.
  - apply IH. by apply StronglySorted_inv in Hs as [? _].
  - apply StronglySorted_inv in Hs as [_ Hx].
    eapply Forall_take in Hx. exact Hx.
Qed.

Lemma desc_sorted_py_prefix k l :
  desc_sorted key l -> desc_sorted key (py_prefix l k).
Proof.
  intros Hs. destruct (py_prefix_take l k) as [n ->]. by apply desc_sorted_take.
Qed.

Lemma elem_of_py_sorted_desc x l : x ∈ py_sorted_desc key l <-> x ∈ l.
Proof. by rewrite py_sorted_desc_perm. Qed.

(** The sort is stable: the entries of any one key come out in the order
    they went in. *)
Lemma insert_desc_stable (c : R) x l :
  filter (fun e => key e = c) (insert_desc key x l)
  = filter (fun e => key e = c) (x :: l).
Proof.
  induction l as [|y l IH]; simpl; [done|].
  destruct (Rle_dec (key y) (key x)) as [Hle|Hnle]; [done|].
  rewrite (filter_cons _ y), IH, !filter_cons.
  destruct (decide (key x = c)) as [Hx|Hx]; [|done].
  destruct (decide (key y = c)) as [Hy|Hy]; [|done].
  exfalso. apply Hnle. lra.
Qed.

Lemma py_sorted_desc_stable (c : R) l :
  filter (fun e => key e = c) (py_sorted_desc key l)
  = filter (fun e => key e = c) l.
Proof.
  induction l as [|x l IH]; simpl; [done|].
  rewrite insert_desc_stable, !filter_cons. by rewrite IH.
Qed.

End PySortFacts.

(** ** BM25: the tokenizer *)

Example tokenize_sample :
  BM25._tokenize "Jual Makanan, a b cd foo_bar x1 (Restoran) e-mail"
  = ["jual"; "makanan"; "cd"; "x1"; "restoran"; "mail"].
Proof. reflexivity. Qed.

Example tokenize_empty : BM25._tokenize "" = [] /\ BM25._tokenize "a - b" = [].
Proof. split; reflexivity. Qed.

(** ** BM25: what [fit] leaves in the index *)

Section FitFacts.

Lemma count_tokens_step (l : list string) (freqs : gmap string nat) (term : string) :
  NoDup l ->
  foldl (fun freqs token => <[token := default 0 (freqs !! token) + 1]> freqs)
        freqs l !! term
  = if decide (term ∈ l) then Some (default 0 (freqs !! term) + 1)
    else freqs !! term.
Proof.
  revert freqs. induction l as [|t l IH]; intros freqs Hnd; simpl.
  - done.
  - apply NoDup_cons in Hnd as [Hnotin Hnd]. rewrite IH by done.
    destruct (decide (term = t)) as [->|Hne].
    + rewrite decide_False by done.
      rewrite decide_True by (by left).
      by rewrite lookup_insert_eq.
    + rewrite lookup_insert_ne by done.
      destruct (decide (term ∈ l)) as [Hin|Hin];
        destruct (decide (term ∈ t :: l)) as [Hin'|Hin']; try done.
      * exfalso. apply Hin'. by right.
      * exfalso. apply elem_of_cons in Hin' as [?|?]; done.
Qed.

Lemma count_tokens_lookup (freqs : gmap string nat) (tokens : list string) term :
  BM25.count_tokens freqs tokens !! term
  = if decide (term ∈ tokens) then Some (default 0 (freqs !! term) + 1)
    else freqs !! term.
Proof.
  unfold BM25.count_tokens. rewrite count_tokens_step by apply NoDup_remove_dups.
  destruct (decide (term ∈ remove_dups tokens)) as [Hin|Hin];
    rewrite elem_of_remove_dups in Hin.
  - by rewrite decide_True.
  - by rewrite decide_False.
Qed.

Lemma containing_le term tokenized : containing term tokenized <= length tokenized.
Proof. unfold containing. apply length_filter. Qed.

Lemma doc_freqs_lookup (tokenized : list (list string)) (freqs : gmap string nat) term :
  foldl BM25.count_tokens freqs tokenized !! term
  = if decide (containing term tokenized = 0) then freqs !! term
    else Some (default 0 (freqs !! term) + containing term tokenized).
Proof.
  revert freqs. induction tokenized as [|tokens rest IH]; intros freqs; simpl.
  - done.
  - rewrite IH. rewrite count_tokens_lookup. unfold containing in *.
    rewrite filter_cons. destruct (decide (term ∈ tokens)); simpl.
    + case_decide as Hc; f_equal; lia.
    + done.
Qed.

Lemma fit_doc_freqs self docs fields term df :
  BM25.doc_freqs (BM25.fit self docs fields) !! term = Some df ->
  1 <= df <= BM25.corpus_size (BM25.fit self docs fields).
Proof.
  simpl. rewrite doc_freqs_lookup, lookup_empty.
  case_decide as Hc; [done|]. intros [= <-]. simpl.
  pose proof (containing_le term
    (map (fun doc => BM25._tokenize
       (BM25.combined_text doc (default BM25.default_text_fields fields))) docs)) as Hle.
  rewrite length_map in Hle. lia.
Qed.

Lemma smoothed_idf_pos (n df : nat) : df <= n -> (0 < BM25.smoothed_idf n df)%R.
Proof.
  intros Hle. unfold BM25.smoothed_idf.
  apply le_INR in Hle. pose proof (pos_INR df) as Hdf.
  rewrite <- ln_1. apply ln_increasing; [lra|].
  assert (0 < (INR n - INR df + 0.5) / (INR df + 0.5))%R; [|lra].
  apply Rdiv_lt_0_compat; lra.
Qed.

(** The divisions of [fit] are safe: the first is behind the test
    [corpus_size > 0], the divisor of the second is at least one half, and
    the logarithm is taken of a number above 1. *)
Lemma fit_divisors_nonzero (n df : nat) :
  df <= n ->
  ((0 <? n)%nat = true -> INR n <> 0%R) /\
  (INR df + 0.5 <> 0)%R /\
  (1 < (INR n - INR df + 0.5) / (INR df + 0.5) + 1)%R.
Proof.
  intros Hle. apply le_INR in Hle. pose proof (pos_INR df) as Hdf.
  split; [|split].
  - intros Hn%Nat.ltb_lt. apply not_0_INR. lia.
  - lra.
  - assert (0 < (INR n - INR df + 0.5) / (INR df + 0.5))%R; [|lra].
    apply Rdiv_lt_0_compat; lra.
Qed.

Lemma fit_idf_lookup self docs fields term :
  BM25.idf (BM25.fit self docs fields) !! term
  = BM25.smoothed_idf (length docs)
      <$> BM25.doc_freqs (BM25.fit self docs fields) !! term.
Proof. simpl. by rewrite lookup_fmap. Qed.

(** One document that holds the term once: [idf = ln(4/3)], written as the
    code computes it. *)
Example fit_single_document_idf :
  BM25.idf (BM25.fit (BM25.__init__ 1.5 0.75) [sample_doc "56101" "Restoran"] None)
    !! "restoran" = Some (ln ((1 - 1 + 0.5) / (1 + 0.5) + 1)).
Proof. by rewrite fit_idf_lookup. Qed.

Lemma fit_idf_pos self docs fields term v :
  BM25.idf (BM25.fit self docs fields) !! term = Some v -> (0 < v)%R.
Proof.
  rewrite fit_idf_lookup.
  destruct (BM25.doc_freqs _ !! term) as [df|] eqn:Hdf; [|done].
  intros [= <-]. apply fit_doc_freqs in Hdf. simpl in Hdf.
  apply smoothed_idf_pos. lia.
Qed.

End FitFacts.

(** ** BM25: scoring and search *)

Section SearchFacts.

Lemma sum_list_elem_le (x : nat) (l : list nat) : x ∈ l -> x <= sum_list l.
Proof.
  induction l as [|y l IH]; intros Hin; [by apply elem_of_nil in Hin|].
  apply elem_of_cons in Hin as [->|Hin]; simpl; [lia|].
  specialize (IH Hin). lia.
Qed.

Lemma fit_doc_len self docs fields :
  BM25.doc_len (BM25.fit self docs fields)
  = map length (BM25.documents (BM25.fit self docs fields)).
Proof. done. Qed.

(** A fitted index that holds a document with at least one token has a
    positive average document length. *)
Lemma fit_avgdl_pos self docs fields doc_tokens :
  doc_tokens ∈ BM25.documents (BM25.fit self docs fields) ->
  doc_tokens <> [] ->
  (0 < BM25.avgdl (BM25.fit self docs fields))%R.
Proof.
  simpl. set (tokenized := map _ docs). intros Hin Hne.
  assert (Hlen : length tokenized = length docs) by apply length_map.
  assert (Hpos : 0 < length docs).
  { rewrite <- Hlen. destruct tokenized; [by apply elem_of_nil in Hin|simpl; lia]. }
  assert (Hsum : 1 <= sum_list (map length tokenized)).
  { assert (length doc_tokens ∈ map length tokenized) as Hl
      by (apply list_elem_of_fmap; eauto).
    apply sum_list_elem_le in Hl. destruct doc_tokens; [done|]. simpl in Hl. lia. }
  destruct (0 <? length docs)%nat eqn:Hlt; [|apply Nat.ltb_ge in Hlt; lia].
  apply Rdiv_lt_0_compat.
  - apply lt_0_INR. lia.
  - apply lt_0_INR. lia.
Qed.

Lemma count_occ_pos_nonempty (doc_tokens : list string) term :
  count_occ String.string_dec doc_tokens term <> 0 -> doc_tokens <> [].
Proof. by destruct doc_tokens. Qed.

(** The scorer returns as soon as the tuning constants are in their usual
    range and the average length is positive for a document with tokens. *)
Lemma score_terms_total self doc_tokens len terms score :
  (0 <= BM25.k1 self)%R -> (0 <= BM25.b self <= 1)%R ->
  (doc_tokens <> [] -> 0 < BM25.avgdl self)%R ->
  exists s, BM25.score_terms self doc_tokens len terms score = Ok s.
Proof.
  intros Hk1 Hb Havg. revert score.
  induction terms as [|term terms IH]; intros score; simpl; [eauto|].
  destruct (BM25.idf self !! term) as [idf_term|]; [|apply IH].
  destruct (count_occ String.string_dec doc_tokens term =? 0)%nat eqn:Htf; [apply IH|].
  apply Nat.eqb_neq in Htf.
  specialize (Havg (count_occ_pos_nonempty _ _ Htf)).
  rewrite py_div_ok by lra. simpl.
  set (tf := count_occ String.string_dec doc_tokens term) in *.
  assert (1 <= INR tf)%R as Htf1.
  { change 1%R with (INR 1). apply le_INR. lia. }
  assert (0 <= INR len / BM25.avgdl self)%R as Hratio.
  { pose proof (pos_INR len) as Hlen.
    apply Rmult_le_pos; [done|]. apply Rlt_le, Rinv_0_lt_compat. done. }
  rewrite py_div_ok; [apply IH|].
  assert (0 <= BM25.b self * (INR len / BM25.avgdl self))%R
    by (apply Rmult_le_pos; lra).
  assert (0 <= BM25.k1 self
               * (1 - BM25.b self + BM25.b self * (INR len / BM25.avgdl self)))%R
    by (apply Rmult_le_pos; lra).
  lra.
Qed.

Lemma score_all_scored self query_tokens docs idx scores res :
  (forall j d, docs !! j = Some d -> BM25.documents self !! (idx + j) = Some d) ->
  Forall (scored self query_tokens) scores ->
  BM25.score_all self query_tokens docs idx scores = Ok res ->
  Forall (scored self query_tokens) res.
Proof.
  revert idx scores.
  induction docs as [|doc_tokens docs IH]; intros idx scores Hdocs Hsc; simpl.
  - by intros [= <-].
  - destruct (py_index (BM25.doc_len self) idx) as [len|] eqn:Hlen; [|done]. simpl.
    destruct (BM25._score_document self query_tokens doc_tokens len)
      as [score|] eqn:Hscore; [|done]. simpl.
    apply IH.
    + intros j d Hj. replace (S idx + j) with (idx + S j) by lia. by apply Hdocs.
    + destruct (Rlt_dec 0 score) as [Hpos|]; [|done].
      apply Forall_app. split; [done|]. constructor; [|constructor].
      exists doc_tokens, len. simpl. repeat split; try done.
      * specialize (Hdocs 0 doc_tokens eq_refl). by rewrite Nat.add_0_r in Hdocs.
      * by apply py_index_inv.
Qed.

Lemma score_all_total self query_tokens docs idx scores :
  (forall j d, docs !! j = Some d ->
     exists len s, BM25.doc_len self !! (idx + j) = Some len /\
                   BM25._score_document self query_tokens d len = Ok s) ->
  exists res, BM25.score_all self query_tokens docs idx scores = Ok res.
Proof.
  revert idx scores.
  induction docs as [|doc_tokens docs IH]; intros idx scores Hok; simpl; [eauto|].
  destruct (Hok 0 doc_tokens eq_refl) as (len & s & Hlen & Hs).
  rewrite Nat.add_0_r in Hlen. rewrite (py_index_ok _ _ _ Hlen). simpl.
  rewrite Hs. simpl. apply IH.
  intros j d Hj. replace (S idx + j) with (idx + S j) by lia. by apply Hok.
Qed.

(** [search] on a fitted index returns. *)
Lemma fit_search_total self docs fields query top_k :
  (0 <= BM25.k1 self)%R -> (0 <= BM25.b self <= 1)%R ->
  exists res, BM25.search (BM25.fit self docs fields) query top_k = Ok res.
Proof.
  intros Hk1 Hb. unfold BM25.search.
  destruct (BM25._tokenize query) as [|q qs] eqn:Hq; [eauto|].
  destruct (score_all_total (BM25.fit self docs fields) (q :: qs)
              (BM25.documents (BM25.fit self docs fields)) 0 []) as [res Hres].
  - intros j d Hj. simpl plus.
    exists (length d).
    destruct (score_terms_total (BM25.fit self docs fields) d (length d)
                (q :: qs) 0%R) as [s Hs]; try done.
    { intros Hne. eapply fit_avgdl_pos; [|exact Hne].
      by eapply list_elem_of_lookup_2. }
    exists s. split; [|exact Hs].
    rewrite fit_doc_len, list_lookup_fmap, Hj. done.
  - rewrite Hres. simpl. eauto.
Qed.

(** What [search] returns, on any index. *)
Lemma search_result_facts self query top_k res :
  BM25.search self query top_k = Ok res ->
  ((0 <= top_k)%Z -> (Z.of_nat (length res) <= top_k)%Z) /\
  desc_sorted snd res /\
  Forall (scored self (BM25._tokenize query)) res.
Proof.
  unfold BM25.search.
  destruct (BM25._tokenize query) as [|q qs] eqn:Hq.
  - intros [= <-]. split; [simpl; lia|]. split; constructor.
  - destruct (BM25.score_all self (q :: qs) (BM25.documents self) 0 [])
      as [scores|] eqn:Hscores; [|done]. simpl. intros [= <-].
    split; [apply py_prefix_length_le|].
    split.
    + apply desc_sorted_py_prefix, py_sorted_desc_sorted.
    + apply score_all_scored in Hscores; [|done|constructor].
      apply Forall_forall. intros e He.
      apply py_prefix_subseteq, elem_of_py_sorted_desc in He.
      by eapply Forall_forall in Hscores.
Qed.

End SearchFacts.

(** ** Reciprocal rank fusion *)

Section FusionFacts.

Lemma rrf_add_keys d x l :
  (rrf_add d x l).*1 = if decide (d ∈ l.*1) then l.*1 else l.*1 ++ [d].
Proof.
  induction l as [|[d' v] l IH]; csimpl; [done|].
  destruct (decide (d' = d)) as [->|Hne]; csimpl.
  - rewrite decide_True by (by left). done.
  - rewrite IH. destruct (decide (d ∈ l.*1)) as [Hin|Hin].
    + rewrite decide_True by (by right). done.
    + rewrite decide_False; [done|].
      intros [?|?]%elem_of_cons; congruence.
Qed.

Lemma rrf_add_NoDup d x l : NoDup l.*1 -> NoDup (rrf_add d x l).*1.
Proof.
  intros Hnd. rewrite rrf_add_keys. case_decide as Hin; [done|].
  apply NoDup_app. split; [done|]. split; [|apply NoDup_singleton].
  intros y Hy Hy'. apply list_elem_of_singleton in Hy' as ->. done.
Qed.

Lemma rrf_add_elem d x l d' :
  d' ∈ (rrf_add d x l).*1 <-> d' = d \/ d' ∈ l.*1.
Proof.
  rewrite rrf_add_keys. case_decide as Hin.
  - split; [by right|]. by intros [->|?].
  - rewrite elem_of_app, list_elem_of_singleton. tauto.
Qed.

Lemma rrf_add_get d x l d' :
  rrf_get d' (rrf_add d x l)
  = (rrf_get d' l + if decide (d = d') then x else 0)%R.
Proof.
  induction l as [|[d0 v] l IH]; csimpl.
  - destruct (decide (d = d')); lra.
  - destruct (decide (d0 = d)) as [->|Hne]; csimpl.
    + destruct (decide (d = d')); lra.
    + destruct (decide (d0 = d')) as [->|Hne'].
      * rewrite decide_False by done. lra.
      * apply IH.
Qed.

Lemma rrf_get_elem d s l : NoDup l.*1 -> (d, s) ∈ l -> rrf_get d l = s.
Proof.
  induction l as [|[d0 v] l IH]; csimpl; intros Hnd Hin.
  - by apply elem_of_nil in Hin.
  - apply NoDup_cons in Hnd as [Hnotin Hnd].
    apply elem_of_cons in Hin as [[= <- <-]|Hin].
    + by rewrite decide_True.
    + rewrite decide_False; [by apply IH|].
      intros ->. apply Hnotin. apply list_elem_of_fmap. by exists (d, s).
Qed.

Lemma rrf_denominator (k : Z) (rank : nat) :
  (0 <= k)%Z -> (0 < IZR (k + Z.of_nat rank + 1))%R.
Proof. intros Hk. apply IZR_lt. lia. Qed.

Lemma rrf_ranking_ok k ranking rank scores :
  (0 <= k)%Z -> NoDup scores.*1 ->
  exists out, rrf_ranking k ranking rank scores = Ok out /\
    NoDup out.*1 /\
    (forall d, d ∈ out.*1 <-> d ∈ scores.*1 \/ d ∈ ranking.*1) /\
    (forall d, rrf_get d out
               = (rrf_get d scores + rrf_occurrences k d ranking rank)%R).
Proof.
  intros Hk. revert rank scores.
  induction ranking as [|[doc_id sc] ranking IH]; intros rank scores Hnd; csimpl.
  - exists scores. split; [done|]. split; [done|].
    split; [|intros; lra]. intros d. split; [by left|].
    intros [?|Hin]; [done|]. by apply elem_of_nil in Hin.
  - pose proof (rrf_denominator k rank Hk) as Hden.
    rewrite py_div_ok by lra. csimpl.
    destruct (IH (S rank) (rrf_add doc_id (1 / IZR (k + Z.of_nat rank + 1)) scores))
      as (out & Hout & Hnd' & Hkeys & Hget); [by apply rrf_add_NoDup|].
    exists out. split; [done|]. split; [done|]. split.
    + intros d. rewrite Hkeys, rrf_add_elem, elem_of_cons. tauto.
    + intros d. rewrite Hget, rrf_add_get.
      destruct (decide (doc_id = d)); lra.
Qed.

Lemma rrf_rankings_ok k rankings scores :
  (0 <= k)%Z -> NoDup scores.*1 ->
  exists out, rrf_rankings k rankings scores = Ok out /\
    NoDup out.*1 /\
    (forall d, d ∈ out.*1 <->
       d ∈ scores.*1 \/ exists ranking, ranking ∈ rankings /\ d ∈ ranking.*1) /\
    (forall d, rrf_get d out = (rrf_get d scores + rrf_total k rankings d)%R).
Proof.
  intros Hk. revert scores.
  induction rankings as [|ranking rankings IH]; intros scores Hnd; csimpl.
  - exists scores. split; [done|]. split; [done|]. split; [|intros; lra].
    intros d. split; [by left|]. intros [?|(r & Hr & _)]; [done|].
    by apply elem_of_nil in Hr.
  - destruct (rrf_ranking_ok k ranking 0 scores Hk Hnd)
      as (mid & -> & Hnd1 & Hkeys1 & Hget1). csimpl.
    destruct (IH mid Hnd1) as (out & Hout & Hnd2 & Hkeys2 & Hget2).
    exists out. split; [done|]. split; [done|]. split.
    + intros d. rewrite Hkeys2, Hkeys1. split.
      * intros [[?|?]|(r & Hr & Hd)]; [by left| |].
        -- right. exists ranking. split; [by left|done].
        -- right. exists r. split; [by right|done].
      * intros [?|(r & Hr & Hd)]; [by left; left|].
        apply elem_of_cons in Hr as [->|Hr]; [by left; right|].
        right. by exists r.
    + intros d. rewrite Hget2, Hget1. lra.
Qed.

(** The fused ranking: it exists for a non-negative constant, holds every
    input document once, is sorted, and pairs every document with the sum of
    its contributions. *)
Lemma rrf_facts rankings k :
  (0 <= k)%Z ->
  exists fused, reciprocal_rank_fusion rankings k = Ok fused /\
    NoDup fused.*1 /\
    (forall d, d ∈ fused.*1 <-> exists ranking, ranking ∈ rankings /\ d ∈ ranking.*1) /\
    desc_sorted snd fused /\
    (forall d s, (d, s) ∈ fused -> s = rrf_total k rankings d).
Proof.
  intros Hk. unfold reciprocal_rank_fusion.
  destruct (rrf_rankings_ok k rankings [] Hk) as (out & -> & Hnd & Hkeys & Hget);
    [constructor|]. csimpl.
  eexists. split; [done|].
  pose proof (py_sorted_desc_perm snd out) as Hperm.
  split; [by rewrite Hperm|]. split.
  - intros d. rewrite Hperm, Hkeys. split; [|by right].
    intros [Hin|?]; [|done]. by apply elem_of_nil in Hin.
  - split; [apply py_sorted_desc_sorted|].
    intros d s Hin. rewrite Hperm in Hin.
    rewrite <- (rrf_get_elem d s out Hnd Hin), Hget. simpl. lra.
Qed.

Lemma rrf_occurrences_absent k d ranking rank :
  d ∉ ranking.*1 -> rrf_occurrences k d ranking rank = 0%R.
Proof.
  revert rank. induction ranking as [|[d' x] ranking IH]; intros rank Hnot; csimpl.
  - done.
  - rewrite decide_False.
    + rewrite IH; [lra|]. intros Hin. apply Hnot. by right.
    + intros ->. apply Hnot. by left.
Qed.

(** [rank_of] is the position of the first entry that names the document. *)
Lemma rank_from_Some d ranking rank r :
  rank_from d ranking rank = Some r <->
  exists i, r = rank + i /\ (exists x, ranking !! i = Some (d, x)) /\
            forall j e, j < i -> ranking !! j = Some e -> e.1 <> d.
Proof.
  revert rank. induction ranking as [|[d' x] ranking IH]; intros rank; simpl.
  - split; [done|]. by intros (i & _ & [x Hx] & _).
  - destruct (decide (d' = d)) as [->|Hne].
    + split.
      * intros [= <-]. exists 0. split; [lia|]. split; [by exists x|].
        intros j e Hj. lia.
      * intros ([|i] & -> & _ & Hfirst); [f_equal; lia|].
        exfalso. by apply (Hfirst 0 (d, x)); [lia| |].
    + rewrite IH. split.
      * intros (i & -> & Hi & Hfirst). exists (S i). split; [lia|].
        split; [done|]. intros [|j] e Hj He; simpl in He.
        -- by injection He as <-.
        -- apply (Hfirst j e); [lia|done].
      * intros ([|i] & -> & [y Hy] & Hfirst); simpl in Hy.
        -- congruence.
        -- exists i. split; [lia|]. split; [by exists y|].
           intros j e Hj He. apply (Hfirst (S j) e); [lia|done].
Qed.

Lemma rank_of_Some d ranking r :
  rank_of d ranking = Some r <->
  (exists x, ranking !! r = Some (d, x)) /\
  forall j e, j < r -> ranking !! j = Some e -> e.1 <> d.
Proof.
  unfold rank_of. rewrite rank_from_Some. split.
  - by intros (i & -> & Hi & Hfirst).
  - intros [Hr Hfirst]. by exists r.
Qed.

Lemma rank_from_absent d ranking rank :
  d ∉ ranking.*1 -> rank_from d ranking rank = None.
Proof.
  revert rank. induction ranking as [|[d' x] ranking IH]; intros rank Hnot; csimpl.
  - done.
  - rewrite decide_False.
    + apply IH. intros Hin. apply Hnot. by right.
    + intros ->. apply Hnot. by left.
Qed.

(** In a list that names no document twice, the contributions of the
    occurrences are the single term of the spec's formula. *)
Lemma rrf_occurrences_rank k d ranking rank :
  NoDup ranking.*1 ->
  rrf_occurrences k d ranking rank
  = match rank_from d ranking rank with
    | Some r => (1 / IZR (k + Z.of_nat r + 1))%R
    | None => 0%R
    end.
Proof.
  revert rank. induction ranking as [|[d' x] ranking IH]; intros rank Hnd; csimpl.
  - done.
  - apply NoDup_cons in Hnd as [Hnotin Hnd]. simpl in Hnotin.
    destruct (decide (d' = d)) as [->|Hne].
    + rewrite rrf_occurrences_absent by done. lra.
    + rewrite IH by done. lra.
Qed.

Lemma rrf_total_sum k rankings d :
  (forall ranking, ranking ∈ rankings -> NoDup ranking.*1) ->
  rrf_total k rankings d = rrf_sum k rankings d.
Proof.
  induction rankings as [|ranking rankings IH]; intros Hnd; csimpl; [done|].
  rewrite IH by (intros r Hr; apply Hnd; by right).
  unfold rrf_term, rank_of.
  rewrite rrf_occurrences_rank by (apply Hnd; by left). done.
Qed.

Lemma rrf_occurrences_nonneg k d ranking rank :
  (0 <= k)%Z -> (0 <= rrf_occurrences k d ranking rank)%R.
Proof.
  intros Hk. revert rank.
  induction ranking as [|[d' x] ranking IH]; intros rank; csimpl; [lra|].
  specialize (IH (S rank)). pose proof (rrf_denominator k rank Hk) as Hden.
  destruct (decide (d' = d)); [|lra].
  assert (0 < 1 / IZR (k + Z.of_nat rank + 1))%R; [|lra].
  apply Rdiv_lt_0_compat; lra.
Qed.

Lemma rrf_occurrences_pos k d ranking rank :
  (0 <= k)%Z -> d ∈ ranking.*1 -> (0 < rrf_occurrences k d ranking rank)%R.
Proof.
  intros Hk. revert rank.
  induction ranking as [|[d' x] ranking IH]; intros rank Hin; csimpl.
  - by apply elem_of_nil in Hin.
  - pose proof (rrf_denominator k rank Hk) as Hden.
    pose proof (rrf_occurrences_nonneg k d ranking (S rank) Hk) as Hrest.
    destruct (decide (d' = d)) as [->|Hne].
    + assert (0 < 1 / IZR (k + Z.of_nat rank + 1))%R; [|lra].
      apply Rdiv_lt_0_compat; lra.
    + apply elem_of_cons in Hin as [?|Hin]; [simpl in *; congruence|].
      specialize (IH (S rank) Hin). lra.
Qed.

Lemma rrf_total_nonneg k rankings d : (0 <= k)%Z -> (0 <= rrf_total k rankings d)%R.
Proof.
  intros Hk. induction rankings as [|r rankings IH]; csimpl; [lra|].
  pose proof (rrf_occurrences_nonneg k d r 0 Hk). lra.
Qed.

Lemma rrf_total_absent k rankings d :
  (forall r, r ∈ rankings -> d ∉ r.*1) -> rrf_total k rankings d = 0%R.
Proof.
  induction rankings as [|r rankings IH]; intros Habs; csimpl; [done|].
  rewrite rrf_occurrences_absent by (apply Habs; by left).
  rewrite IH; [lra|]. intros r' Hr'. apply Habs. by right.
Qed.

(** Splitting the total at one list. *)
Lemma rrf_total_lookup k rankings i r d :
  rankings !! i = Some r ->
  rrf_total k rankings d
  = (rrf_occurrences k d r 0 + rrf_total k (delete i rankings) d)%R.
Proof.
  revert i. induction rankings as [|r0 rankings IH]; intros [|i] Hi; simpl in *;
    try done.
  - by injection Hi as ->.
  - rewrite (IH i Hi). lra.
Qed.

End FusionFacts.

(** ** Vector store *)

Section ArgsortFacts.
Variable before : R -> R -> bool.
Hypothesis before_true : forall x y, before x y = true -> (x <= y)%R.
Hypothesis before_false : forall x y, before x y = false -> (y <= x)%R.

Lemma insert_asc_perm a i l : insert_asc before a i l ≡ₚ i :: l.
Proof.
  induction l as [|j l IH]; simpl; [done|].
  destruct (before (nth i a 0%R) (nth j a 0%R)); [done|].
  rewrite IH. apply Permutation_swap.
Qed.

Lemma insert_asc_sorted a i l :
  StronglySorted (fun i j => (nth i a 0 <= nth j a 0)%R) l ->
  StronglySorted (fun i j => (nth i a 0 <= nth j a 0)%R) (insert_asc before a i l).
Proof.
  induction l as [|j l IH]; simpl; intros Hs.
  - repeat constructor.
  - apply StronglySorted_inv in Hs as [Hl Hj].
    destruct (before (nth i a 0%R) (nth j a 0%R)) eqn:Hb.
    + apply before_true in Hb.
      constructor; [by constructor|]. constructor; [done|].
      eapply Forall_impl; [exact Hj|]. simpl. intros z Hz. lra.
    + apply before_false in Hb.
      constructor; [by apply IH|].
      rewrite insert_asc_perm. by constructor.
Qed.

Lemma argsort_by_contract : argsort_contract (argsort_by before).
Proof.
  intros a. unfold argsort_by. generalize (seq 0 (length a)) as l.
  induction l as [|i l [IHp IHs]]; simpl.
  - split; [done|constructor].
  - split; [by rewrite insert_asc_perm, IHp|by apply insert_asc_sorted].
Qed.

End ArgsortFacts.

Lemma argsort_stable_contract : argsort_contract argsort_stable.
Proof.
  apply argsort_by_contract; unfold Rleb; intros x y;
    destruct (Rle_dec x y); intros; (done || lra).
Qed.

Lemma argsort_late_contract : argsort_contract argsort_late.
Proof.
  apply argsort_by_contract; unfold Rltb; intros x y;
    destruct (Rlt_dec x y); intros; (done || lra).
Qed.

Section VectorFacts.

Lemma StronglySorted_rev {A} (rel : A -> A -> Prop) (l : list A) :
  StronglySorted rel l -> StronglySorted (fun x y => rel y x) (rev l).
Proof.
  induction l as [|x l IH]; simpl; intros Hs; [constructor|].
  apply StronglySorted_inv in Hs as [Hl Hx].
  apply StronglySorted_app. split; [|split; [by apply IH|repeat constructor]].
  intros y z Hy Hz. apply list_elem_of_singleton in Hz as ->.
  apply list_elem_of_In, in_rev, list_elem_of_In in Hy.
  by eapply Forall_forall in Hx.
Qed.

Lemma pair_up_inv (sims : list R) (idxs : list nat) res :
  LocalVectorStore.pair_up sims idxs = Ok res ->
  res = map (fun i => (i, nth i sims 0%R)) idxs /\
  Forall (fun i => i < length sims) idxs.
Proof.
  revert res. induction idxs as [|i idxs IH]; intros res; simpl.
  - intros [= <-]. by split.
  - destruct (py_index sims i) as [s|] eqn:Hs; [|done]. simpl.
    destruct (LocalVectorStore.pair_up sims idxs) as [rest|]; [|done]. simpl.
    intros [= <-]. destruct (IH rest eq_refl) as [-> Hall].
    apply py_index_inv in Hs.
    split.
    + f_equal. f_equal. symmetry. by apply nth_lookup_Some.
    + constructor; [by eapply lookup_lt_Some|done].
Qed.

Lemma pair_up_total (sims : list R) (idxs : list nat) :
  Forall (fun i => i < length sims) idxs ->
  exists res, LocalVectorStore.pair_up sims idxs = Ok res.
Proof.
  induction 1 as [|i idxs Hi _ [rest IH]]; simpl; [eauto|].
  apply lookup_lt_is_Some in Hi as [s Hs].
  rewrite (py_index_ok _ _ _ Hs). simpl. rewrite IH. simpl. eauto.
Qed.

Lemma np_dot_mv_inv m v sims :
  np_dot_mv m v = Ok sims -> sims = map (fun row => np_dot row v) m.
Proof. unfold np_dot_mv. destruct (forallb _ m); congruence. Qed.

Lemma vector_search_unfold np_argsort self query top_k :
  LocalVectorStore.is_ready self = true ->
  LocalVectorStore.search np_argsort self query top_k
  = (sims ← similarities_of self query;
     LocalVectorStore.pair_up sims (py_prefix (rev (np_argsort sims)) top_k)).
Proof.
  intros Hr. unfold LocalVectorStore.search, similarities_of. rewrite Hr. simpl.
  destruct (LocalVectorStore._get_embedding self query); [|done]. simpl.
  destruct (LocalVectorStore.embeddings self); [|done]. simpl. done.
Qed.

Lemma argsort_indices np_argsort (sims : list R) top_k :
  argsort_contract np_argsort ->
  Forall (fun i => i < length sims) (py_prefix (rev (np_argsort sims)) top_k).
Proof.
  intros Hc. destruct (Hc sims) as [Hperm _].
  apply Forall_forall. intros i Hi. apply py_prefix_subseteq in Hi.
  apply list_elem_of_In, in_rev, list_elem_of_In in Hi.
  rewrite Hperm in Hi. apply elem_of_seq in Hi. lia.
Qed.

Lemma sorted_pairs (sims : list R) (idxs : list nat) :
  StronglySorted (fun i j => (nth j sims 0 <= nth i sims 0)%R) idxs ->
  desc_sorted snd (map (fun i => (i, nth i sims 0%R)) idxs).
Proof.
  unfold desc_sorted. induction 1 as [|i idxs Hs IH Hall]; simpl; constructor.
  - done.
  - apply Forall_fmap. eapply Forall_impl; [exact Hall|]. done.
Qed.

End VectorFacts.

(** ** Re-ranker *)

Section RerankFacts.

Lemma rerank_fallback self query (candidates : list candidate) top_k :
  raises (SemanticReranker.judge_and_map self query (py_prefix candidates 15) top_k) ->
  SemanticReranker.rerank self query candidates top_k
  = py_prefix (py_prefix candidates 15) top_k.
Proof.
  unfold SemanticReranker.rerank. destruct candidates as [|c cs].
  - intros _. by rewrite !py_prefix_nil.
  - by destruct (SemanticReranker.judge_and_map _ _ _ _).
Qed.

Lemma judge_down_raises self query (candidates : list candidate) top_k :
  raises (judge_rankings (SemanticReranker.client self) query candidates) ->
  raises (SemanticReranker.judge_and_map self query candidates top_k).
Proof.
  unfold SemanticReranker.judge_and_map.
  by destruct (judge_rankings _ _ _).
Qed.

Lemma malformed_item_raises self query (candidates : list candidate) top_k rankings :
  judge_rankings (SemanticReranker.client self) query candidates
  = Ok (Malformed :: rankings) ->
  (0 < top_k)%Z ->
  raises (SemanticReranker.judge_and_map self query candidates top_k).
Proof.
  unfold SemanticReranker.judge_and_map. intros -> Hk. simpl.
  rewrite py_prefix_nonneg by lia.
  destruct (Z.to_nat top_k) as [|n] eqn:Hn; [lia|]. done.
Qed.

Lemma map_back_entries (candidates : list candidate) rankings reranked out :
  SemanticReranker.map_back candidates rankings reranked = Ok out ->
  forall c, c ∈ out ->
    c ∈ reranked \/
    exists c0 relevance reason, c0 ∈ candidates /\ c = judged c0 relevance reason.
Proof.
  revert reranked.
  induction rankings as [|item rankings IH]; intros reranked; simpl.
  - intros [= <-] c Hc. by left.
  - destruct item as [index relevance reason|]; [|done].
    case_decide as Hidx; [|apply IH].
    destruct (py_index candidates _) as [c0|] eqn:Hc0; [|done]. simpl.
    intros Hout c Hc. destruct (IH _ Hout c Hc) as [Hin|Hin]; [|by right].
    apply elem_of_app in Hin as [Hin|Hin]; [by left|].
    apply list_elem_of_singleton in Hin as ->. right.
    exists c0, (default (VFloat 0) relevance), (default (VStr "") reason).
    split; [|done]. apply py_index_inv in Hc0. by eapply list_elem_of_lookup_2.
Qed.

Lemma rerank_entries self query (candidates : list candidate) top_k c :
  c ∈ SemanticReranker.rerank self query candidates top_k ->
  c ∈ candidates \/
  exists c0 relevance reason, c0 ∈ candidates /\ c = judged c0 relevance reason.
Proof.
  unfold SemanticReranker.rerank. destruct candidates as [|c1 cs].
  - intros Hc. by apply elem_of_nil in Hc.
  - set (capped := py_prefix (c1 :: cs) 15).
    destruct (SemanticReranker.judge_and_map self query capped top_k)
      as [out|] eqn:Hout.
    + unfold SemanticReranker.judge_and_map in Hout.
      destruct (judge_rankings _ _ _) as [rankings|]; [|done]. simpl in Hout.
      intros Hc. destruct (map_back_entries _ _ _ _ Hout c Hc)
        as [Hin|(c0 & rel & reason & Hc0 & ->)].
      * by apply elem_of_nil in Hin.
      * right. exists c0, rel, reason. split; [|done].
        by apply py_prefix_subseteq in Hc0.
    + intros Hc. left. by do 2 apply py_prefix_subseteq in Hc.
Qed.

End RerankFacts.

(** ** Engine *)

Section EngineFacts.

Lemma make_candidate_code doc rrf_score doc_idx :
  cand_code (HybridSearchEngine.make_candidate doc rrf_score doc_idx)
  = doc_get doc "kode_kbli".
Proof.
  unfold cand_code, HybridSearchEngine.make_candidate, doc_get.
  rewrite !lookup_insert_ne by done. rewrite lookup_fmap.
  by destruct (doc !! "kode_kbli").
Qed.

Lemma make_candidate_rrf_score doc rrf_score doc_idx :
  HybridSearchEngine.make_candidate doc rrf_score doc_idx !! "rrf_score"
  = Some (VFloat rrf_score).
Proof.
  unfold HybridSearchEngine.make_candidate.
  rewrite lookup_insert_ne by done. by rewrite lookup_insert_eq.
Qed.

Lemma make_candidate_doc_idx doc rrf_score doc_idx :
  HybridSearchEngine.make_candidate doc rrf_score doc_idx !! "_doc_idx"
  = Some (VInt (Z.of_nat doc_idx)).
Proof. unfold HybridSearchEngine.make_candidate. by rewrite lookup_insert_eq. Qed.

Lemma collect_spec docs l (candidates : list candidate) (seen_codes : gset string) out :
  HybridSearchEngine.collect docs l candidates seen_codes = Ok out ->
  exists new, out = candidates ++ new /\
    NoDup (cand_code <$> new) /\
    (forall c, c ∈ new -> cand_code c ∉ seen_codes) /\
    length new <= length l /\
    (forall c, c ∈ new ->
       exists i doc_idx rrf_score doc,
         l !! i = Some (doc_idx, rrf_score) /\ docs !! doc_idx = Some doc /\
         c = HybridSearchEngine.make_candidate doc rrf_score doc_idx /\
         first_at docs l i (doc_get doc "kode_kbli")) /\
    (forall i doc_idx rrf_score doc,
       l !! i = Some (doc_idx, rrf_score) -> docs !! doc_idx = Some doc ->
       doc_get doc "kode_kbli" ∉ seen_codes ->
       first_at docs l i (doc_get doc "kode_kbli") ->
       HybridSearchEngine.make_candidate doc rrf_score doc_idx ∈ new).
Proof.
  revert candidates seen_codes.
  induction l as [|[doc_idx rrf_score] l IH]; intros candidates seen_codes; simpl.
  - intros [= <-]. exists []. rewrite app_nil_r. split; [done|].
    split; [constructor|]. split; [by intros c Hc%elem_of_nil|].
    split; [done|]. split; [by intros c Hc%elem_of_nil|]. by intros [|i].
  - destruct (py_index docs doc_idx) as [doc|] eqn:Hdoc; [|done]. simpl.
    apply py_index_inv in Hdoc.
    set (code := doc_get doc "kode_kbli").
    assert (Hhead : entry_code docs (doc_idx, rrf_score) = Some code).
    { unfold entry_code. simpl. by rewrite Hdoc. }
    destruct (decide (code ∈ seen_codes)) as [Hseen|Hnew]; intros Hout.
    + destruct (IH _ _ Hout) as (new & -> & Hnd & Hfresh & Hlen & Hsrc & Hfirst).
      exists new. split; [done|]. split; [done|]. split; [done|].
      split; [lia|]. split.
      * intros c Hc. destruct (Hsrc c Hc) as (i & idx & s & d & Hi & Hd & -> & Hf).
        exists (S i), idx, s, d. repeat split; try done.
        intros [|j] e Hj He; simpl in He.
        -- injection He as <-. rewrite Hhead. intros [= Heq].
           apply (Hfresh _ Hc). rewrite make_candidate_code, <- Heq. done.
        -- apply (Hf j e); [lia|done].
      * intros [|i] idx s d Hi Hd Hns Hf; simpl in Hi.
        -- injection Hi as <- <-. rewrite Hdoc in Hd. injection Hd as <-. done.
        -- apply (Hfirst i idx s d Hi Hd Hns).
           intros j e Hj He. apply (Hf (S j) e); [lia|done].
    + destruct (IH _ _ Hout) as (new & -> & Hnd & Hfresh & Hlen & Hsrc & Hfirst).
      exists (HybridSearchEngine.make_candidate doc rrf_score doc_idx :: new).
      split; [by rewrite <- app_assoc|].
      split.
      { csimpl. constructor; [|done]. rewrite make_candidate_code.
        intros (c & Hcode & Hc)%list_elem_of_fmap.
        apply (Hfresh c Hc). rewrite <- Hcode. fold code.
        apply elem_of_union_l. by apply elem_of_singleton. }
      split.
      { intros c [->|Hc]%elem_of_cons.
        - by rewrite make_candidate_code.
        - intros Hin. apply (Hfresh c Hc). by apply elem_of_union_r. }
      split; [simpl; lia|]. split.
      * intros c [->|Hc]%elem_of_cons.
        -- exists 0, doc_idx, rrf_score, doc. repeat split; try done.
           intros j e Hj. lia.
        -- destruct (Hsrc c Hc) as (i & idx & s & d & Hi & Hd & -> & Hf).
           exists (S i), idx, s, d. repeat split; try done.
           intros [|j] e Hj He; simpl in He.
           ++ injection He as <-. rewrite Hhead. intros [= Heq].
              apply (Hfresh _ Hc). rewrite make_candidate_code, <- Heq.
              fold code. apply elem_of_union_l. by apply elem_of_singleton.
           ++ apply (Hf j e); [lia|done].
      * intros [|i] idx s d Hi Hd Hns Hf; simpl in Hi.
        -- injection Hi as <- <-. rewrite Hdoc in Hd. injection Hd as <-. by left.
        -- right. apply (Hfirst i idx s d Hi Hd).
           ++ specialize (Hf 0 (doc_idx, rrf_score)). rewrite Hhead in Hf.
              assert (code <> doc_get d "kode_kbli") as Hne.
              { intros Heq. apply Hf; [lia|done|by rewrite Heq]. }
              intros [Hin%elem_of_singleton|Hin]%elem_of_union; congruence.
           ++ intros j e Hj He. apply (Hf (S j) e); [lia|done].
Qed.

Lemma collect_total docs l (candidates : list candidate) (seen_codes : gset string) :
  Forall (fun e : nat * R => e.1 < length docs) l ->
  exists out, HybridSearchEngine.collect docs l candidates seen_codes = Ok out.
Proof.
  intros Hall. revert candidates seen_codes.
  induction Hall as [|[doc_idx rrf_score] l Hidx _ IH]; intros candidates seen_codes;
    simpl; [eauto|].
  simpl in Hidx. apply lookup_lt_is_Some in Hidx as [doc Hdoc].
  rewrite (py_index_ok _ _ _ Hdoc). simpl.
  destruct (decide (doc_get doc "kode_kbli" ∈ seen_codes)); apply IH.
Qed.

End EngineFacts.

Section SearchUnfold.
Variable np_argsort : list R -> list nat.

Lemma search_retrieve self query top_k use_reranking retrieval_top_k :
  HybridSearchEngine.is_ready self = true ->
  HybridSearchEngine.search np_argsort self query top_k use_reranking retrieval_top_k
  = ('(bm25_results, vector_results, fused_ranking, candidates) ←
       HybridSearchEngine.retrieve np_argsort self query retrieval_top_k;
     Ok (HybridSearchEngine.Found query (length fused_ranking)
           (length bm25_results) (length vector_results)
           (map (delete "_doc_idx")
              (match use_reranking, candidates with
               | true, _ :: _ =>
                   SemanticReranker.rerank (HybridSearchEngine.reranker self)
                                           query candidates top_k
               | _, _ => py_prefix candidates top_k
               end)))).
Proof.
  intros Hr. unfold HybridSearchEngine.search, HybridSearchEngine.retrieve.
  rewrite Hr. simpl.
  destruct (HybridSearchEngine._bm25_search self query retrieval_top_k); [|done].
  simpl. destruct (LocalVectorStore.search _ _ _ _); [|done]. simpl.
  destruct (reciprocal_rank_fusion _ _); [|done]. simpl.
  destruct (HybridSearchEngine.collect _ _ _ _); done.
Qed.

Lemma retrieve_candidates self query retrieval_top_k b v f (cands : list candidate) :
  HybridSearchEngine.retrieve np_argsort self query retrieval_top_k = Ok (b, v, f, cands) ->
  HybridSearchEngine.collect (HybridSearchEngine.documents self)
    (py_prefix f retrieval_top_k) [] ∅ = Ok cands.
Proof.
  unfold HybridSearchEngine.retrieve.
  destruct (HybridSearchEngine._bm25_search self query retrieval_top_k); [|done].
  simpl. destruct (LocalVectorStore.search _ _ _ _); [|done]. simpl.
  destruct (reciprocal_rank_fusion _ _); [|done]. simpl.
  destruct (HybridSearchEngine.collect _ _ _ _) eqn:Hc; [|done]. simpl.
  by intros [= <- <- <- <-].
Qed.

Lemma retrieve_stages self query retrieval_top_k b v f (cands : list candidate) :
  HybridSearchEngine.retrieve np_argsort self query retrieval_top_k = Ok (b, v, f, cands) ->
  HybridSearchEngine._bm25_search self query retrieval_top_k = Ok b /\
  LocalVectorStore.search np_argsort (HybridSearchEngine.vector_store self) query
                          retrieval_top_k = Ok v /\
  reciprocal_rank_fusion [b; v] 60 = Ok f.
Proof.
  unfold HybridSearchEngine.retrieve.
  destruct (HybridSearchEngine._bm25_search self query retrieval_top_k); [|done].
  simpl. destruct (LocalVectorStore.search _ _ _ _); [|done]. simpl.
  destruct (reciprocal_rank_fusion _ _) eqn:Hf; [|done]. simpl.
  destruct (HybridSearchEngine.collect _ _ _ _); [|done]. simpl.
  by intros [= <- <- <- <-].
Qed.

End SearchUnfold.

(** * The claims *)

(** ** BM25 *)

Section BM25Claims.

Lemma score_terms_no_tokens self len terms score :
  BM25.score_terms self [] len terms score = Ok score.
Proof.
  revert score. induction terms as [|term terms IH]; intros score; simpl; [done|].
  destruct (BM25.idf self !! term); apply IH.
Qed.

Lemma score_all_no_tokens self query_tokens docs idx scores :
  Forall (fun d => d = []) docs ->
  (forall j, j < length docs -> is_Some (BM25.doc_len self !! (idx + j))) ->
  BM25.score_all self query_tokens docs idx scores = Ok scores.
Proof.
  intros Hall. revert idx scores.
  induction Hall as [|d docs -> _ IH]; intros idx scores Hlen; simpl; [done|].
  destruct (Hlen 0) as [len Hl]; [simpl; lia|]. rewrite Nat.add_0_r in Hl.
  rewrite (py_index_ok _ _ _ Hl). simpl.
  unfold BM25._score_document. rewrite score_terms_no_tokens. simpl.
  destruct (Rlt_dec 0 0) as [Hlt|_]; [lra|].
  apply IH. intros j Hj. replace (S idx + j) with (idx + S j) by lia.
  apply Hlen. simpl. lia.
Qed.

Lemma sum_list_zero (l : list nat) : Forall (fun n => n = 0) l -> sum_list l = 0.
Proof. induction 1 as [|n l -> _ IH]; simpl; [done|]. by rewrite IH. Qed.

Lemma fit_tokenless self docs fields :
  Forall (fun d => d = []) (BM25.documents (BM25.fit self docs fields)) ->
  BM25.avgdl (BM25.fit self docs fields) = 0%R /\
  forall query top_k,
    BM25.search (BM25.fit self docs fields) query top_k = Ok [].
Proof.
  intros Hall. split.
  - simpl in *. destruct (0 <? length docs)%nat; [|done].
    rewrite sum_list_zero; [simpl; lra|].
    apply Forall_fmap. eapply Forall_impl; [exact Hall|]. by intros d ->.
  - intros query top_k. unfold BM25.search.
    destruct (BM25._tokenize query) as [|q qs]; [done|].
    rewrite score_all_no_tokens; [simpl; by rewrite py_prefix_nil| done |].
    intros j Hj. rewrite fit_doc_len. simpl plus.
    apply lookup_lt_is_Some. by rewrite length_map.
Qed.

(** One round of the scoring loop on a fitted index with tuning constants in
    their usual range: whatever the term, the running score does not go
    down. *)
Lemma fit_term_contribution self docs fields doc_tokens len term score :
  (0 <= BM25.k1 self)%R -> (0 <= BM25.b self <= 1)%R ->
  doc_tokens ∈ BM25.documents (BM25.fit self docs fields) ->
  exists s,
    BM25.score_terms (BM25.fit self docs fields) doc_tokens len [term] score = Ok s /\
    (score <= s)%R.
Proof.
  intros Hk1 Hb Hdoc. set (index := BM25.fit self docs fields).
  assert (Hk1' : (0 <= BM25.k1 index)%R) by done.
  assert (Hb' : (0 <= BM25.b index <= 1)%R) by done.
  cbn [BM25.score_terms].
  destruct (BM25.idf index !! term) as [idf_term|] eqn:Hidf;
    [|exists score; split; [done|lra]].
  destruct (count_occ String.string_dec doc_tokens term =? 0)%nat eqn:Htf;
    [exists score; split; [done|lra]|].
  apply Nat.eqb_neq in Htf.
  assert (Havg : (0 < BM25.avgdl index)%R).
  { eapply fit_avgdl_pos; [exact Hdoc|]. by eapply count_occ_pos_nonempty. }
  rewrite py_div_ok by lra. cbn [mbind result_bind].
  set (tf := count_occ String.string_dec doc_tokens term) in *.
  assert (1 <= INR tf)%R as Htf1.
  { change 1%R with (INR 1). apply le_INR. lia. }
  assert (0 <= INR len / BM25.avgdl index)%R as Hratio.
  { pose proof (pos_INR len).
    apply Rmult_le_pos; [done|]. by apply Rlt_le, Rinv_0_lt_compat. }
  assert (0 <= BM25.b index * (INR len / BM25.avgdl index))%R
    by (apply Rmult_le_pos; lra).
  assert (0 <= BM25.k1 index
               * (1 - BM25.b index
                  + BM25.b index * (INR len / BM25.avgdl index)))%R
    as Hk by (apply Rmult_le_pos; lra).
  rewrite py_div_ok by lra. cbn [mbind result_bind].
  eexists. split; [done|].
  assert (0 < idf_term)%R as Hidf_pos by by eapply fit_idf_pos.
  assert (0 < INR tf * (BM25.k1 index + 1)
              / (INR tf + BM25.k1 index
                 * (1 - BM25.b index
                    + BM25.b index * (INR len / BM25.avgdl index))))%R
    as Hq.
  { apply Rdiv_lt_0_compat; [|lra]. apply Rmult_lt_0_compat; lra. }
  pose proof (Rmult_lt_0_compat _ _ Hidf_pos Hq) as Hc. lra.
Qed.

(** C2, as amended.  For every corpus and every term of the index, also one
    that occurs in more than half of the documents, the inverse document
    frequency that [fit] stores is [ln((N - df + 0.5)/(df + 0.5) + 1)] with
    [1 <= df <= N], and it is strictly positive.  So, with tuning constants
    [k1 >= 0] and [0 <= b <= 1] (the defaults are 1.5 and 0.75), the term
    never contributes negatively: the round of the scoring loop for the term
    returns, for every document of the index and every running score, a
    score that is not below the running score. *)
Theorem fit_idf_positive self docs fields term v :
  BM25.idf (BM25.fit self docs fields) !! term = Some v ->
  (exists df,
     BM25.doc_freqs (BM25.fit self docs fields) !! term = Some df /\
     1 <= df <= length docs /\
     v = ln ((INR (length docs) - INR df + 0.5) / (INR df + 0.5) + 1) /\
     (0 < v)%R) /\
  ((0 <= BM25.k1 self)%R -> (0 <= BM25.b self <= 1)%R ->
   forall doc_tokens len score,
     doc_tokens ∈ BM25.documents (BM25.fit self docs fields) ->
     exists s,
       BM25.score_terms (BM25.fit self docs fields) doc_tokens len [term] score
       = Ok s /\
       (score <= s)%R).
Proof.
  intros Hv. split.
  - pose proof (fit_idf_pos _ _ _ _ _ Hv) as Hpos.
    rewrite fit_idf_lookup in Hv.
    destruct (BM25.doc_freqs _ !! term) as [df|] eqn:Hdf; [|done].
    injection Hv as <-. exists df. split; [done|].
    split; [by apply fit_doc_freqs in Hdf|]. by split.
  - intros Hk1 Hb doc_tokens len score Hdoc. by apply fit_term_contribution.
Qed.

Lemma common_docs_idf :
  BM25.idf (BM25.fit (BM25.__init__ 1.5 0.75) common_docs None) !! "restoran"
  = Some (BM25.smoothed_idf 2 2).
Proof. by rewrite fit_idf_lookup. Qed.

(** The term of [common_docs], which occurs in both of its documents, with
    the default tuning constants. *)
Lemma fit_idf_positive_witness :
  (exists df,
     BM25.doc_freqs (BM25.fit (BM25.__init__ 1.5 0.75) common_docs None)
       !! "restoran" = Some df /\
     1 <= df <= length common_docs /\
     BM25.smoothed_idf 2 2
     = ln ((INR (length common_docs) - INR df + 0.5) / (INR df + 0.5) + 1) /\
     (0 < BM25.smoothed_idf 2 2)%R) /\
  (forall doc_tokens len score,
     doc_tokens ∈ BM25.documents (BM25.fit (BM25.__init__ 1.5 0.75) common_docs None) ->
     exists s,
       BM25.score_terms (BM25.fit (BM25.__init__ 1.5 0.75) common_docs None)
                        doc_tokens len ["restoran"] score = Ok s /\
       (score <= s)%R).
Proof.
  destruct (fit_idf_positive (BM25.__init__ 1.5 0.75) common_docs None "restoran"
              (BM25.smoothed_idf 2 2) common_docs_idf) as [Hidf Hscore].
  split; [exact Hidf|].
  apply Hscore; simpl; lra.
Defined.

(** C2, as stated, fails: no corpus and no term, however common, give a
    negative inverse document frequency. *)
Lemma fit_idf_never_negative :
  ~ exists self docs fields term df v,
      BM25.doc_freqs (BM25.fit self docs fields) !! term = Some df /\
      length docs < 2 * df /\
      BM25.idf (BM25.fit self docs fields) !! term = Some v /\
      (v < 0)%R.
Proof.
  intros (self & docs & fields & term & df & v & _ & _ & Hv & Hneg).
  apply fit_idf_pos in Hv. lra.
Qed.

(** C5.  On every fitted index (with the tuning constants in their usual
    range, as the defaults 1.5 and 0.75 are), for every query and every
    [top_k], [search] returns a list that is sorted by non-increasing score
    and holds only documents whose BM25 score against the query is strictly
    positive; for a count [top_k >= 0] it has at most [top_k] entries. *)
Theorem bm25_search_sorted_positive self docs fields query top_k :
  (0 <= BM25.k1 self)%R -> (0 <= BM25.b self <= 1)%R ->
  exists res,
    BM25.search (BM25.fit self docs fields) query top_k = Ok res /\
    ((0 <= top_k)%Z -> (Z.of_nat (length res) <= top_k)%Z) /\
    desc_sorted snd res /\
    Forall (scored (BM25.fit self docs fields) (BM25._tokenize query)) res.
Proof.
  intros Hk1 Hb.
  destruct (fit_search_total self docs fields query top_k Hk1 Hb) as [res Hres].
  exists res. split; [done|]. by apply search_result_facts.
Qed.

(** The default constants and the sample corpus. *)
Lemma bm25_search_sorted_positive_witness :
  exists res,
    BM25.search (BM25.fit (BM25.__init__ 1.5 0.75) sample_docs None)
                "jual makanan" 5 = Ok res /\
    ((0 <= 5)%Z -> (Z.of_nat (length res) <= 5)%Z) /\
    desc_sorted snd res /\
    Forall (scored (BM25.fit (BM25.__init__ 1.5 0.75) sample_docs None)
                   (BM25._tokenize "jual makanan")) res.
Proof.
  apply (bm25_search_sorted_positive (BM25.__init__ 1.5 0.75) sample_docs None
           "jual makanan" 5); simpl; lra.
Defined.

(** C10.  On every fitted index (tuning constants in their usual range)
    [search] returns for every query and every [top_k]: no division raises.
    The division by [avgdl] is behind the test [tf == 0], and a document of
    the index with a term of positive frequency makes [avgdl] positive.  A
    corpus whose documents all tokenize to the empty sequence has
    [avgdl = 0], and [search] returns the empty list on it. *)
Theorem bm25_search_no_zero_division self docs fields :
  (0 <= BM25.k1 self)%R -> (0 <= BM25.b self <= 1)%R ->
  (forall query top_k,
     exists res, BM25.search (BM25.fit self docs fields) query top_k = Ok res) /\
  (forall doc_tokens term,
     doc_tokens ∈ BM25.documents (BM25.fit self docs fields) ->
     count_occ String.string_dec doc_tokens term <> 0 ->
     (0 < BM25.avgdl (BM25.fit self docs fields))%R) /\
  (Forall (fun d => d = []) (BM25.documents (BM25.fit self docs fields)) ->
   BM25.avgdl (BM25.fit self docs fields) = 0%R /\
   forall query top_k,
     BM25.search (BM25.fit self docs fields) query top_k = Ok []).
Proof.
  intros Hk1 Hb. split; [|split].
  - intros query top_k. by apply fit_search_total.
  - intros doc_tokens term Hin Htf. eapply fit_avgdl_pos; [exact Hin|].
    by eapply count_occ_pos_nonempty.
  - apply fit_tokenless.
Qed.

(** The default constants and a corpus without tokens. *)
Lemma bm25_search_no_zero_division_witness :
  BM25.avgdl (BM25.fit (BM25.__init__ 1.5 0.75) tokenless_docs None) = 0%R /\
  forall query top_k,
    BM25.search (BM25.fit (BM25.__init__ 1.5 0.75) tokenless_docs None)
                query top_k = Ok [].
Proof.
  apply (bm25_search_no_zero_division (BM25.__init__ 1.5 0.75) tokenless_docs None);
    [simpl; lra|simpl; lra|].
  repeat constructor.
Defined.

(** The scorer of the model does raise on an index that [fit] cannot
    produce: a document with a token next to an average length of zero. *)
Example unfitted_index_raises :
  BM25.search unfitted_index "ab" 5 = Raise ZeroDivisionError.
Proof.
  unfold BM25.search.
  change (BM25._tokenize "ab") with ["ab"]. simpl.
  unfold BM25._score_document. simpl.
  rewrite lookup_singleton_eq. simpl. by rewrite py_div_zero.
Qed.

End BM25Claims.

(** ** Reciprocal rank fusion *)

Section FusionClaims.

Lemma elem_of_delete_other {A} (l : list A) (i j : nat) (x : A) :
  l !! j = Some x -> j <> i -> x ∈ delete i l.
Proof.
  intros Hj Hne. apply list_elem_of_lookup.
  destruct (decide (j < i)) as [Hlt|Hge].
  - exists j. by rewrite list_lookup_delete_lt.
  - exists (pred j). rewrite list_lookup_delete_ge by lia.
    replace (S (pred j)) with j by lia. done.
Qed.

Lemma elem_of_delete_inv {A} (l : list A) (i : nat) (x : A) :
  x ∈ delete i l -> exists j, j <> i /\ l !! j = Some x.
Proof.
  intros [j Hj]%list_elem_of_lookup.
  destruct (decide (j < i)) as [Hlt|Hge].
  - exists j. rewrite list_lookup_delete_lt in Hj by done. split; [lia|done].
  - exists (S j). rewrite list_lookup_delete_ge in Hj by lia. split; [lia|done].
Qed.

Lemma rrf_total_pos k rankings r d :
  (0 <= k)%Z -> r ∈ rankings -> d ∈ r.*1 -> (0 < rrf_total k rankings d)%R.
Proof.
  intros Hk Hr Hd. induction rankings as [|r0 rankings IH]; simpl.
  - by apply elem_of_nil in Hr.
  - apply elem_of_cons in Hr as [<-|Hr].
    + pose proof (rrf_occurrences_pos k d r 0 Hk Hd).
      pose proof (rrf_total_nonneg k rankings d Hk). lra.
    + pose proof (rrf_occurrences_nonneg k d r0 0 Hk). specialize (IH Hr). lra.
Qed.

Lemma rrf_first_term : (1 / IZR (K + Z.of_nat 0 + 1) = 1 / (IZR K + 1))%R.
Proof. unfold K. change (60 + Z.of_nat 0 + 1)%Z with 61%Z. lra. Qed.

(** A document at the head of a list receives at least [1/(K+1)] from it. *)
Lemma rrf_occurrences_head d x t :
  (1 / (IZR K + 1) <= rrf_occurrences K d ((d, x) :: t) 0)%R.
Proof.
  simpl. rewrite decide_True by done. rewrite rrf_first_term.
  assert (0 <= K)%Z as HK by (unfold K; lia).
  pose proof (rrf_occurrences_nonneg K d t 1 HK). lra.
Qed.

Lemma rrf_occurrences_head_only d x t :
  d ∉ t.*1 -> rrf_occurrences K d ((d, x) :: t) 0 = (1 / (IZR K + 1))%R.
Proof.
  intros Hnot. simpl. rewrite decide_True by done. rewrite rrf_first_term.
  rewrite rrf_occurrences_absent by done. lra.
Qed.

(** C6.  For every sequence of ranked lists, reciprocal rank fusion with
    [K = 60] returns, and the score it pairs with a document is the sum, over
    the lists and the positions at which they name the document, of
    [1/(K + rank + 1)] with [rank] the 0-based position; a document that is
    first in one list scores more than [1/(K+1)] as soon as a second list
    contains it.  When no list names a document twice, so that a document
    has one position in a list, the score is the sum over the lists that
    contain the document of [1/(K + rank + 1)]; a document that is first in
    both of two lists scores exactly [2/(K+1)], and a document that is first
    in one list and in no other scores exactly [1/(K+1)]. *)
Theorem rrf_score_formula (rankings : list (list (nat * R))) :
  exists fused,
    reciprocal_rank_fusion rankings K = Ok fused /\
    (forall d s, (d, s) ∈ fused -> s = rrf_total K rankings d) /\
    (forall i j d x t r s,
       i <> j -> rankings !! i = Some ((d, x) :: t) ->
       rankings !! j = Some r -> d ∈ r.*1 ->
       (d, s) ∈ fused -> (1 / (IZR K + 1) < s)%R) /\
    ((forall ranking, ranking ∈ rankings -> NoDup ranking.*1) ->
     (forall d s, (d, s) ∈ fused -> s = rrf_sum K rankings d) /\
     (forall a x y t1 t2,
        rankings = [(a, x) :: t1; (a, y) :: t2] ->
        (a, (2 / (IZR K + 1))%R) ∈ fused) /\
     (forall i d x t,
        rankings !! i = Some ((d, x) :: t) ->
        (forall j r, j <> i -> rankings !! j = Some r -> d ∉ r.*1) ->
        (d, (1 / (IZR K + 1))%R) ∈ fused)).
Proof.
  destruct (rrf_facts rankings K) as (fused & Hrun & _ & Hkeys & _ & Hval);
    [unfold K; lia|].
  assert (Hentry : forall d r, r ∈ rankings -> d ∈ r.*1 ->
                     (d, rrf_total K rankings d) ∈ fused).
  { intros d r Hr Hd.
    assert (d ∈ fused.*1) as Hin by (apply Hkeys; eauto).
    apply list_elem_of_fmap in Hin as ([d' s] & -> & Hin). simpl.
    by rewrite <- (Hval _ _ Hin). }
  exists fused. split; [done|]. split; [done|]. split.
  { intros i j d x t r s Hij Hi Hj Hd Hin.
    rewrite (Hval _ _ Hin). rewrite (rrf_total_lookup K rankings i _ d Hi).
    pose proof (rrf_occurrences_head d x t) as Hhead.
    assert (0 < rrf_total K (delete i rankings) d)%R; [|lra].
    apply (rrf_total_pos K _ r); [unfold K; lia| |done].
    by eapply elem_of_delete_other. }
  intros Hnd. split; [|split].
  - intros d s Hin. rewrite (Hval _ _ Hin). by apply rrf_total_sum.
  - intros a x y t1 t2 ->.
    assert ((a ∉ t1.*1) /\ (a ∉ t2.*1)) as [Ht1 Ht2].
    { split.
      - specialize (Hnd ((a, x) :: t1)). csimpl in Hnd.
        apply NoDup_cons_1_1 in Hnd; [done|by left].
      - specialize (Hnd ((a, y) :: t2)). csimpl in Hnd.
        apply NoDup_cons_1_1 in Hnd; [done|]. right. by left. }
    replace (2 / (IZR K + 1))%R
      with (rrf_total K [(a, x) :: t1; (a, y) :: t2] a).
    + apply (Hentry a ((a, x) :: t1)); [by left|by left].
    + unfold rrf_total. cbn [foldr].
      rewrite !rrf_occurrences_head_only by done. unfold K. lra.
  - intros i d x t Hi Habs.
    assert (d ∉ t.*1) as Ht.
    { specialize (Hnd ((d, x) :: t)). csimpl in Hnd.
      apply NoDup_cons_1_1 in Hnd; [done|]. by eapply list_elem_of_lookup_2. }
    replace (1 / (IZR K + 1))%R with (rrf_total K rankings d).
    + apply (Hentry d ((d, x) :: t)); [by eapply list_elem_of_lookup_2|by left].
    + rewrite (rrf_total_lookup K rankings i _ d Hi).
      rewrite rrf_occurrences_head_only by done.
      rewrite rrf_total_absent; [lra|].
      intros r (j & Hj & Hr)%elem_of_delete_inv. by eapply Habs.
Qed.

Lemma sample_rankings_NoDup ranking :
  ranking ∈ sample_rankings -> NoDup ranking.*1.
Proof.
  unfold sample_rankings. intros Hr.
  repeat (apply elem_of_cons in Hr as [->|Hr]);
    [| |by apply elem_of_nil in Hr]; csimpl;
    repeat (constructor; [intros Hin;
      repeat (apply elem_of_cons in Hin as [Hin|Hin]; [lia|]);
      by apply elem_of_nil in Hin|]); constructor.
Qed.

(** Document 0 is first in both lists of [sample_rankings]. *)
Lemma rrf_score_formula_witness :
  exists fused,
    reciprocal_rank_fusion sample_rankings K = Ok fused /\
    (0, (2 / (IZR K + 1))%R) ∈ fused.
Proof.
  destruct (rrf_score_formula sample_rankings)
    as (fused & Hrun & _ & _ & Hunique).
  destruct (Hunique sample_rankings_NoDup) as (_ & Hboth & _).
  exists fused. split; [exact Hrun|].
  exact (Hboth 0 2.5%R 0.9%R [(1, 1%R)] [(2, 0.8%R)] eq_refl).
Defined.

(** C7.  For every sequence of ranked lists, the output of reciprocal rank
    fusion holds exactly the documents of the input lists, so none that is
    absent from all of them, holds every document once, and is sorted by
    non-increasing fused score. *)
Theorem rrf_output_shape (rankings : list (list (nat * R))) :
  exists fused,
    reciprocal_rank_fusion rankings K = Ok fused /\
    (forall d, d ∈ fused.*1 <->
       exists ranking, ranking ∈ rankings /\ d ∈ ranking.*1) /\
    NoDup fused.*1 /\
    desc_sorted snd fused.
Proof.
  destruct (rrf_facts rankings K) as (fused & Hrun & Hnd & Hkeys & Hsorted & _);
    [unfold K; lia|].
  by exists fused.
Qed.

End FusionClaims.

(** ** Vector store *)

Section VectorClaims.

Lemma take_rest_sorted {A} (rel : A -> A -> Prop) (l : list A) (n : nat) x y :
  StronglySorted rel l -> x ∈ take n l -> y ∈ l -> y ∉ take n l ->
  rel x y.
Proof.
  intros Hs Hx Hy Hny. rewrite <- (take_drop n l) in Hs, Hy.
  apply elem_of_app in Hy as [Hy|Hy]; [done|].
  by eapply StronglySorted_app_1_elem_of.
Qed.

(** C9, as amended.  For every sort that meets what NumPy documents of
    [argsort], every ready store and every query whose similarities are
    computed: [search] returns, its entries are the indices
    [argsort(similarities)[::-1][:top_k]] paired with their similarities, each
    index once, in non-increasing similarity; for [top_k >= 0] there are
    [min(top_k, n)] of them, and no document left out is more similar than
    one returned.  The order of entries of equal similarity is the reverse
    of the order [argsort] gave them: the code adds no rule of its own. *)
Theorem vector_search_top_k (np_argsort : list R -> list nat)
  (self : LocalVectorStore.t) (query : string) (top_k : Z) (sims : list R) :
  argsort_contract np_argsort ->
  LocalVectorStore.is_ready self = true ->
  similarities_of self query = Ok sims ->
  exists res,
    LocalVectorStore.search np_argsort self query top_k = Ok res /\
    res = map (fun i => (i, nth i sims 0%R))
              (py_prefix (rev (np_argsort sims)) top_k) /\
    NoDup res.*1 /\
    desc_sorted snd res /\
    ((0 <= top_k)%Z -> length res = Nat.min (Z.to_nat top_k) (length sims)) /\
    (forall j e, j < length sims -> j ∉ res.*1 -> e ∈ res ->
       (nth j sims 0 <= e.2)%R).
Proof.
  intros Hc Hready Hsims.
  rewrite vector_search_unfold by done. rewrite Hsims. simpl.
  destruct (pair_up_total sims (py_prefix (rev (np_argsort sims)) top_k))
    as [res Hres]; [by apply argsort_indices|].
  exists res. split; [done|].
  apply pair_up_inv in Hres as [-> _]. split; [done|].
  destruct (Hc sims) as [Hperm Hsorted].
  assert (Hrev : StronglySorted (fun i j => (nth j sims 0 <= nth i sims 0)%R)
                   (rev (np_argsort sims))) by by apply StronglySorted_rev in Hsorted.
  assert (Hnd : NoDup (rev (np_argsort sims))).
  { rewrite <- Permutation_rev, Hperm. apply NoDup_seq. }
  assert (Hkeys : (map (fun i => (i, nth i sims 0%R))
                    (py_prefix (rev (np_argsort sims)) top_k)).*1
                  = py_prefix (rev (np_argsort sims)) top_k).
  { generalize (py_prefix (rev (np_argsort sims)) top_k) as l.
    induction l as [|i l IH]; csimpl; [done|]. by rewrite IH. }
  rewrite Hkeys.
  destruct (py_prefix_take (rev (np_argsort sims)) top_k) as [n Hn].
  split; [|split; [|split]].
  - rewrite Hn. eapply sublist_NoDup; [exact Hnd|apply sublist_take].
  - apply sorted_pairs. rewrite Hn. revert Hrev. clear.
    generalize (rev (np_argsort sims)) as l. intros l Hs. revert n.
    induction Hs as [|i l Hs IH Hall]; intros [|n]; simpl; try constructor.
    + apply IH.
    + by apply Forall_take.
  - intros Hk. rewrite length_map, py_prefix_nonneg by done.
    rewrite length_take, length_rev, Hperm, length_seq. done.
  - intros j e Hj Hout He.
    apply list_elem_of_fmap in He as (i & -> & Hi). simpl.
    rewrite Hn in Hi, Hout.
    apply (take_rest_sorted _ _ n i j Hrev Hi); [|done].
    rewrite <- Permutation_rev, Hperm. apply elem_of_seq. lia.
Qed.

Lemma twin_similarities query :
  similarities_of twin_store query = Ok [twin_similarity; twin_similarity].
Proof. reflexivity. Qed.

Lemma twin_search_stable query top_k :
  (2 <= top_k)%Z ->
  LocalVectorStore.search argsort_stable twin_store query top_k
  = Ok [(1, twin_similarity); (0, twin_similarity)].
Proof.
  intros Hk.
  rewrite vector_search_unfold by reflexivity. rewrite twin_similarities. simpl.
  unfold argsort_stable, argsort_by. simpl. unfold Rleb.
  destruct (Rle_dec twin_similarity twin_similarity) as [_|Hn]; [|exfalso; lra].
  simpl. rewrite py_prefix_nonneg by lia. rewrite take_ge by (simpl; lia).
  reflexivity.
Qed.

Lemma twin_search_late query top_k :
  (2 <= top_k)%Z ->
  LocalVectorStore.search argsort_late twin_store query top_k
  = Ok [(0, twin_similarity); (1, twin_similarity)].
Proof.
  intros Hk.
  rewrite vector_search_unfold by reflexivity. rewrite twin_similarities. simpl.
  unfold argsort_late, argsort_by. simpl. unfold Rltb.
  destruct (Rlt_dec twin_similarity twin_similarity) as [Hn|_]; [exfalso; lra|].
  simpl. rewrite py_prefix_nonneg by lia. rewrite take_ge by (simpl; lia).
  reflexivity.
Qed.

(** The stable sort on the store with two identical rows. *)
Lemma vector_search_top_k_witness :
  exists res,
    LocalVectorStore.search argsort_stable twin_store "restoran" 1 = Ok res /\
    length res = 1.
Proof.
  destruct (vector_search_top_k argsort_stable twin_store "restoran" 1
              [twin_similarity; twin_similarity] argsort_stable_contract eq_refl
              (twin_similarities "restoran"))
    as (res & Hrun & _ & _ & _ & Hlen & _).
  exists res. split; [exact Hrun|]. apply Hlen. lia.
Defined.

(** C9, as stated, fails.  On a store with two identical rows the stable
    sort, which meets the contract of [argsort], makes [search] list the tie
    with the larger index first; a second sort that meets the contract lists
    it with the smaller index first.  So the tie is settled by the sort, and
    by the index order in neither direction. *)
Lemma vector_search_ties_open :
  argsort_contract argsort_stable /\
  argsort_contract argsort_late /\
  (exists res,
     LocalVectorStore.search argsort_stable twin_store "restoran" 2 = Ok res /\
     ~ ties_ascending res) /\
  (exists res,
     LocalVectorStore.search argsort_late twin_store "restoran" 2 = Ok res /\
     ~ ties_descending res).
Proof.
  split; [apply argsort_stable_contract|]. split; [apply argsort_late_contract|].
  split.
  - eexists. split; [apply twin_search_stable; lia|].
    intros Hties. specialize (Hties 0 1 _ _ ltac:(lia) eq_refl eq_refl eq_refl).
    simpl in Hties. lia.
  - eexists. split; [apply twin_search_late; lia|].
    intros Hties. specialize (Hties 0 1 _ _ ltac:(lia) eq_refl eq_refl eq_refl).
    simpl in Hties. lia.
Qed.

End VectorClaims.

(** ** Engine *)

Section EngineClaims.

Lemma first_at_take docs (l : list (nat * R)) n i code :
  i <= n -> (first_at docs (take n l) i code <-> first_at docs l i code).
Proof.
  intros Hi. unfold first_at. split; intros Hf j e Hj He.
  - apply (Hf j e Hj). rewrite lookup_take_lt by lia. done.
  - apply (Hf j e Hj). rewrite lookup_take_lt in He by lia. done.
Qed.

(** C8.  The walk over [fused_ranking[:retrieval_top_k]], on a ranking whose
    indices are all in range, returns a candidate list in which every
    identifier occurs once; every candidate comes from the first entry of the
    fused ranking with its identifier; every walked entry that is the first
    with its identifier is a candidate; and for a count
    [retrieval_top_k >= 0] there are at most [retrieval_top_k] candidates. *)
Theorem collect_keeps_first_occurrence (docs : list document)
  (fused : list (nat * R)) (retrieval_top_k : Z) :
  Forall (fun e : nat * R => e.1 < length docs) fused ->
  exists candidates : list candidate,
    HybridSearchEngine.collect docs (py_prefix fused retrieval_top_k) [] ∅
    = Ok candidates /\
    NoDup (cand_code <$> candidates) /\
    ((0 <= retrieval_top_k)%Z ->
     (Z.of_nat (length candidates) <= retrieval_top_k)%Z) /\
    (forall c, c ∈ candidates ->
       exists i doc_idx rrf_score doc,
         fused !! i = Some (doc_idx, rrf_score) /\ docs !! doc_idx = Some doc /\
         c = HybridSearchEngine.make_candidate doc rrf_score doc_idx /\
         first_at docs fused i (doc_get doc "kode_kbli")) /\
    (forall i doc_idx rrf_score doc,
       py_prefix fused retrieval_top_k !! i = Some (doc_idx, rrf_score) ->
       docs !! doc_idx = Some doc ->
       first_at docs fused i (doc_get doc "kode_kbli") ->
       HybridSearchEngine.make_candidate doc rrf_score doc_idx ∈ candidates).
Proof.
  intros Hrange.
  destruct (HybridSearchEngine.collect docs (py_prefix fused retrieval_top_k) [] ∅)
    as [candidates|e] eqn:Hrun.
  2:{ destruct (collect_total docs (py_prefix fused retrieval_top_k) [] ∅)
        as [out Hout]; [|congruence].
      apply Forall_forall. intros e' He'. apply py_prefix_subseteq in He'.
      by eapply Forall_forall in Hrange. }
  exists candidates. split; [done|].
  destruct (collect_spec _ _ _ _ _ Hrun)
    as (new & -> & Hnd & _ & Hlen & Hsrc & Hfirst). simpl.
  split; [done|]. split.
  { intros Hk. pose proof (py_prefix_length_le fused retrieval_top_k Hk). lia. }
  destruct (py_prefix_take fused retrieval_top_k) as [n Hn]. rewrite Hn in *.
  split.
  - intros c Hc. destruct (Hsrc c Hc) as (i & idx & s & doc & Hi & Hdoc & -> & Hf).
    apply lookup_take_Some in Hi as [Hi Hin].
    exists i, idx, s, doc. repeat split; try done.
    apply (first_at_take docs fused n i); [lia|done].
  - intros i idx s doc Hi Hdoc Hf.
    apply (Hfirst i idx s doc Hi Hdoc); [apply not_elem_of_empty|].
    apply lookup_take_Some in Hi as [_ Hin].
    apply (first_at_take docs fused n i); [lia|done].
Qed.

(** The corpus with a duplicated identifier. *)
Lemma collect_keeps_first_occurrence_witness :
  exists candidates : list candidate,
    HybridSearchEngine.collect dup_docs (py_prefix dup_fused 20) [] ∅
    = Ok candidates /\
    NoDup (cand_code <$> candidates).
Proof.
  destruct (collect_keeps_first_occurrence dup_docs dup_fused 20)
    as (candidates & Hrun & Hnd & _).
  - unfold dup_fused, dup_docs. repeat constructor.
  - exists candidates. split; [exact Hrun|exact Hnd].
Defined.

(** The walk on the corpus with the duplicated identifier: the entry of
    document 0 is dropped, since document 1 came first with its code. *)
Example collect_dup_docs :
  HybridSearchEngine.collect dup_docs (py_prefix dup_fused 20) [] ∅
  = Ok [HybridSearchEngine.make_candidate (sample_doc "47111" "Toko Kelontong") 0.5 1;
        HybridSearchEngine.make_candidate (sample_doc "56101" "Restoran") 0.3 2].
Proof. reflexivity. Qed.

Lemma sample_engine_ready : HybridSearchEngine.is_ready sample_engine = true.
Proof. reflexivity. Qed.

Lemma sample_bm25_search top_k :
  HybridSearchEngine._bm25_search sample_engine "jual nasi goreng" top_k = Ok [].
Proof.
  unfold HybridSearchEngine._bm25_search, BM25.search.
  change (BM25._tokenize "jual nasi goreng") with ["jual"; "nasi"; "goreng"].
  change (HybridSearchEngine.bm25 sample_engine)
    with (BM25.fit (BM25.__init__ 1.5 0.75) sample_docs
            (Some ["judul"; "hierarki"; "cakupan"])).
  assert (Hidf : forall t, t ∈ ["jual"; "nasi"; "goreng"] ->
            BM25.idf (BM25.fit (BM25.__init__ 1.5 0.75) sample_docs
                        (Some ["judul"; "hierarki"; "cakupan"])) !! t = None).
  { intros t Ht. rewrite fit_idf_lookup.
    repeat (apply elem_of_cons in Ht as [->|Ht]; [reflexivity|]).
    by apply elem_of_nil in Ht. }
  change (BM25.documents _)
    with [["perdagangan"; "eceran"; "makanan"]; ["restoran"]].
  unfold BM25.score_all, BM25._score_document, BM25.score_terms.
  rewrite !Hidf by (repeat constructor).
  change (BM25.doc_len _) with [3; 1]. simpl.
  destruct (Rlt_dec 0 0) as [Hlt|_]; [lra|].
  f_equal. apply py_prefix_nil.
Qed.

Lemma sample_fusion :
  reciprocal_rank_fusion [[]; [(1, twin_similarity); (0, twin_similarity)]] 60
  = Ok sample_fused.
Proof.
  unfold reciprocal_rank_fusion. simpl.
  rewrite !py_div_ok by (apply Rgt_not_eq, IZR_lt; lia). simpl.
  change (IZR (60 + Z.of_nat 0 + 1)) with 61%R.
  change (IZR (60 + Z.of_nat 1 + 1)) with 62%R.
  destruct (Rle_dec (0 + 1 / 62) (0 + 1 / 61)) as [_|Hn]; [done|].
  exfalso. apply Hn. lra.
Qed.

Lemma sample_retrieve :
  HybridSearchEngine.retrieve argsort_stable sample_engine "jual nasi goreng" 20
  = Ok ([], [(1, twin_similarity); (0, twin_similarity)], sample_fused,
        sample_candidates).
Proof.
  unfold HybridSearchEngine.retrieve. rewrite sample_bm25_search. simpl.
  change (HybridSearchEngine.vector_store sample_engine) with twin_store.
  rewrite twin_search_stable by lia. simpl.
  rewrite sample_fusion. simpl. reflexivity.
Qed.

Lemma sample_search_run top_k use_reranking :
  (2 <= top_k)%Z ->
  HybridSearchEngine.search argsort_stable sample_engine "jual nasi goreng"
                            top_k use_reranking 20
  = Ok (HybridSearchEngine.Found "jual nasi goreng" 2 0 2
          (map (delete "_doc_idx") sample_candidates)).
Proof.
  intros Hk. rewrite search_retrieve by apply sample_engine_ready.
  rewrite sample_retrieve.
  assert (Hall : py_prefix sample_candidates top_k = sample_candidates).
  { rewrite py_prefix_nonneg by lia. apply take_ge. simpl. lia. }
  assert (Hcap : py_prefix sample_candidates 15 = sample_candidates)
    by reflexivity.
  destruct use_reranking; simpl; do 2 f_equal.
  - by rewrite Hcap, Hall.
  - by rewrite Hall.
Qed.

Lemma collect_entries docs l (out : list candidate) c :
  HybridSearchEngine.collect docs l [] ∅ = Ok out -> c ∈ out ->
  exists doc rrf_score doc_idx,
    c = HybridSearchEngine.make_candidate doc rrf_score doc_idx.
Proof.
  intros Hrun Hc.
  destruct (collect_spec _ _ _ _ _ Hrun) as (new & -> & _ & _ & _ & Hsrc & _).
  destruct (Hsrc c Hc) as (i & idx & s & doc & _ & _ & -> & _). eauto.
Qed.

(** C1, as amended.  For every completed engine search call, no entry of the
    returned results has the key [_doc_idx], the source document index, and
    every entry still has the key [rrf_score] with the fusion score its
    candidate was built with: there is an entry [(doc_idx, rrf_score)] among
    the first [retrieval_top_k] entries of the fused ranking of this call
    whose document has the identifier of the result and whose score is the
    value under [rrf_score].  Only one of the two provenance fields is
    removed. *)
Theorem search_strips_doc_idx_only (np_argsort : list R -> list nat)
  (self : HybridSearchEngine.t) (query : string) (top_k : Z)
  (use_reranking : bool) (retrieval_top_k : Z) (out : HybridSearchEngine.response) :
  HybridSearchEngine.search np_argsort self query top_k use_reranking
                            retrieval_top_k = Ok out ->
  forall r, r ∈ HybridSearchEngine.results out ->
    r !! "_doc_idx" = None /\
    exists bm25_results vector_results fused_ranking doc_idx rrf_score doc,
      HybridSearchEngine._bm25_search self query retrieval_top_k = Ok bm25_results /\
      LocalVectorStore.search np_argsort (HybridSearchEngine.vector_store self)
                              query retrieval_top_k = Ok vector_results /\
      reciprocal_rank_fusion [bm25_results; vector_results] 60 = Ok fused_ranking /\
      (doc_idx, rrf_score) ∈ py_prefix fused_ranking retrieval_top_k /\
      HybridSearchEngine.documents self !! doc_idx = Some doc /\
      cand_code r = doc_get doc "kode_kbli" /\
      r !! "rrf_score" = Some (VFloat rrf_score).
Proof.
  destruct (HybridSearchEngine.is_ready self) eqn:Hready.
  2:{ unfold HybridSearchEngine.search. rewrite Hready. simpl.
      intros [= <-] r Hr. by apply elem_of_nil in Hr. }
  rewrite search_retrieve by done.
  destruct (HybridSearchEngine.retrieve _ _ _ _) as [[[[b v] f] cands]|] eqn:Hret;
    [|done].
  simpl. intros [= <-] r Hr. simpl in Hr.
  apply list_elem_of_fmap in Hr as (c & -> & Hc).
  split; [apply lookup_delete_eq|].
  destruct (retrieve_stages _ _ _ _ _ _ _ _ Hret) as (Hb & Hv & Hf).
  apply retrieve_candidates in Hret.
  exists b, v, f.
  assert (Hcand : forall c0, c0 ∈ cands ->
            exists doc_idx rrf_score doc,
              (doc_idx, rrf_score) ∈ py_prefix f retrieval_top_k /\
              HybridSearchEngine.documents self !! doc_idx = Some doc /\
              cand_code c0 = doc_get doc "kode_kbli" /\
              c0 !! "rrf_score" = Some (VFloat rrf_score)).
  { intros c0 Hc0.
    destruct (collect_spec _ _ _ _ _ Hret) as (new & -> & _ & _ & _ & Hsrc & _).
    destruct (Hsrc c0 Hc0) as (i & idx & s & doc & Hi & Hdoc & -> & _).
    exists idx, s, doc. split; [by eapply list_elem_of_lookup_2|].
    split; [done|]. split; [apply make_candidate_code|].
    apply make_candidate_rrf_score. }
  assert (Hfinal : c ∈ cands \/
            exists c0 relevance reason, c0 ∈ cands /\ c = judged c0 relevance reason).
  { destruct use_reranking, cands as [|c1 cs];
      try (left; by eapply py_prefix_subseteq).
    by eapply rerank_entries. }
  assert (Hkeep : exists c0, c0 ∈ cands /\
            cand_code (delete "_doc_idx" c) = cand_code c0 /\
            delete "_doc_idx" c !! "rrf_score" = c0 !! "rrf_score").
  { destruct Hfinal as [Hin|(c0 & rel & reason & Hin & ->)].
    - exists c. split; [done|]. unfold cand_code.
      by rewrite !lookup_delete_ne by done.
    - exists c0. split; [done|]. unfold cand_code, judged.
      rewrite !lookup_delete_ne by done. by rewrite !lookup_insert_ne by done. }
  destruct Hkeep as (c0 & Hin & Hcode & Hscore).
  destruct (Hcand c0 Hin) as (idx & s & doc & Hentry & Hdoc & Hc0 & Hs).
  exists idx, s, doc. rewrite Hcode, Hscore. by repeat split.
Qed.

(** The first result of a search on the sample engine. *)
Lemma search_strips_doc_idx_only_witness :
  delete "_doc_idx"
    (HybridSearchEngine.make_candidate (sample_doc "56101" "Restoran") (0 + 1 / 61) 1)
    !! "_doc_idx" = None /\
  exists bm25_results vector_results fused_ranking doc_idx rrf_score doc,
    HybridSearchEngine._bm25_search sample_engine "jual nasi goreng" 20
    = Ok bm25_results /\
    LocalVectorStore.search argsort_stable (HybridSearchEngine.vector_store sample_engine)
                            "jual nasi goreng" 20 = Ok vector_results /\
    reciprocal_rank_fusion [bm25_results; vector_results] 60 = Ok fused_ranking /\
    (doc_idx, rrf_score) ∈ py_prefix fused_ranking 20 /\
    HybridSearchEngine.documents sample_engine !! doc_idx = Some doc /\
    cand_code (delete "_doc_idx"
                 (HybridSearchEngine.make_candidate (sample_doc "56101" "Restoran")
                    (0 + 1 / 61) 1))
    = doc_get doc "kode_kbli" /\
    delete "_doc_idx"
      (HybridSearchEngine.make_candidate (sample_doc "56101" "Restoran") (0 + 1 / 61) 1)
      !! "rrf_score" = Some (VFloat rrf_score).
Proof.
  apply (search_strips_doc_idx_only argsort_stable sample_engine
           "jual nasi goreng" 5 false 20 _
           (sample_search_run 5 false ltac:(lia))).
  simpl. by left.
Defined.

(** C1, as stated, fails: the first result of a search on the sample engine
    still carries the fusion score under [rrf_score]. *)
Lemma search_keeps_rrf_score :
  exists out r,
    HybridSearchEngine.search argsort_stable sample_engine "jual nasi goreng"
                              5 false 20 = Ok out /\
    HybridSearchEngine.results out !! 0 = Some r /\
    r !! "rrf_score" = Some (VFloat (0 + 1 / 61)).
Proof.
  eexists. eexists. split; [apply sample_search_run; lia|].
  split; [reflexivity|].
  rewrite lookup_delete_ne by done. apply make_candidate_rrf_score.
Qed.

Lemma py_prefix_cap {A} (l : list A) (k : Z) :
  (0 <= k)%Z -> py_prefix (py_prefix l 15) k = py_prefix l (Z.min k 15).
Proof.
  intros Hk. rewrite !py_prefix_nonneg by lia. rewrite take_take.
  f_equal. lia.
Qed.

(** C3, as amended.  When the judge call, the parsing of its answer or the
    mapping of its items fails, [rerank] returns [candidates[:15][:top_k]]:
    the first [top_k] of the first 15 input candidates, unscored.  An engine
    search with re-ranking enabled then returns those, stripped, whenever the
    retrieval stages return, and raises only when they do; for a count
    [top_k >= 0] it returns exactly what the search with re-ranking disabled
    returns for [min(top_k, 15)]. *)
Theorem judge_failure_fallback (np_argsort : list R -> list nat)
  (self : HybridSearchEngine.t) (query : string) (top_k retrieval_top_k : Z) :
  (forall cs, raises (SemanticReranker.judge_and_map
                        (HybridSearchEngine.reranker self) query cs top_k)) ->
  (forall candidates : list candidate,
     SemanticReranker.rerank (HybridSearchEngine.reranker self) query
                             candidates top_k
     = py_prefix (py_prefix candidates 15) top_k) /\
  (HybridSearchEngine.is_ready self = true ->
   HybridSearchEngine.search np_argsort self query top_k true retrieval_top_k
   = ('(bm25_results, vector_results, fused_ranking, candidates) ←
        HybridSearchEngine.retrieve np_argsort self query retrieval_top_k;
      Ok (HybridSearchEngine.Found query (length fused_ranking)
            (length bm25_results) (length vector_results)
            (map (delete "_doc_idx")
                 (py_prefix (py_prefix candidates 15) top_k))))) /\
  ((0 <= top_k)%Z ->
   HybridSearchEngine.search np_argsort self query top_k true retrieval_top_k
   = HybridSearchEngine.search np_argsort self query (Z.min top_k 15) false
                               retrieval_top_k).
Proof.
  intros Hdown.
  assert (Hrerank : forall candidates : list candidate,
            SemanticReranker.rerank (HybridSearchEngine.reranker self) query
                                    candidates top_k
            = py_prefix (py_prefix candidates 15) top_k).
  { intros candidates. apply rerank_fallback, Hdown. }
  split; [done|].
  assert (Hsearch : HybridSearchEngine.is_ready self = true ->
    HybridSearchEngine.search np_argsort self query top_k true retrieval_top_k
    = ('(bm25_results, vector_results, fused_ranking, candidates) ←
         HybridSearchEngine.retrieve np_argsort self query retrieval_top_k;
       Ok (HybridSearchEngine.Found query (length fused_ranking)
             (length bm25_results) (length vector_results)
             (map (delete "_doc_idx")
                  (py_prefix (py_prefix candidates 15) top_k))))).
  { intros Hready. rewrite search_retrieve by done.
    destruct (HybridSearchEngine.retrieve _ _ _ _) as [[[[b v] f] cands]|]; [|done].
    simpl. destruct cands as [|c cs].
    - by rewrite !py_prefix_nil.
    - by rewrite Hrerank. }
  split; [done|].
  intros Hk. destruct (HybridSearchEngine.is_ready self) eqn:Hready.
  - rewrite Hsearch by done. rewrite search_retrieve by done.
    destruct (HybridSearchEngine.retrieve _ _ _ _) as [[[[b v] f] cands]|]; [|done].
    simpl. by rewrite py_prefix_cap.
  - unfold HybridSearchEngine.search. by rewrite Hready.
Qed.

Lemma sample_judge_down cs top_k :
  raises (SemanticReranker.judge_and_map
            (HybridSearchEngine.reranker sample_engine) "jual nasi goreng" cs top_k).
Proof. done. Qed.

(** The sample engine, whose judge is down. *)
Lemma judge_failure_fallback_witness :
  HybridSearchEngine.search argsort_stable sample_engine "jual nasi goreng"
                            5 true 20
  = HybridSearchEngine.search argsort_stable sample_engine "jual nasi goreng"
                              (Z.min 5 15) false 20.
Proof.
  apply (judge_failure_fallback argsort_stable sample_engine "jual nasi goreng"
           5 20 (fun cs => sample_judge_down cs 5)).
  lia.
Defined.

(** C3, as stated, fails: with the judge down, [rerank] on sixteen candidates
    and [top_k = 16] returns fifteen of them, not the first sixteen. *)
Lemma rerank_fallback_is_capped :
  SemanticReranker.rerank (SemanticReranker.__init__ sample_client) "restoran"
                          sixteen_candidates 16
  <> py_prefix sixteen_candidates 16 /\
  length (SemanticReranker.rerank (SemanticReranker.__init__ sample_client)
            "restoran" sixteen_candidates 16) = 15 /\
  length (py_prefix sixteen_candidates 16) = 16.
Proof.
  assert (Hlen : length (SemanticReranker.rerank
                   (SemanticReranker.__init__ sample_client)
                   "restoran" sixteen_candidates 16) = 15).
  { rewrite rerank_fallback by done. reflexivity. }
  assert (Hlen' : length (py_prefix sixteen_candidates 16) = 16) by reflexivity.
  split; [|done]. intros Heq. rewrite Heq in Hlen. lia.
Qed.

Lemma init_not_ready client :
  HybridSearchEngine.is_ready (HybridSearchEngine.__init__ client) = false.
Proof. done. Qed.

Lemma initialize_failure_keeps_flag build_index self docs :
  raises (HybridSearchEngine.initialize build_index self docs).2 ->
  HybridSearchEngine.is_ready (HybridSearchEngine.initialize build_index self docs).1
  = HybridSearchEngine.is_ready self.
Proof.
  unfold HybridSearchEngine.initialize.
  destruct (build_index _ _) as [store' [[]|e]]; simpl; done.
Qed.

Lemma initialize_success_sets_flag build_index self docs :
  (HybridSearchEngine.initialize build_index self docs).2 = Ok () ->
  HybridSearchEngine.is_ready (HybridSearchEngine.initialize build_index self docs).1
  = true.
Proof.
  unfold HybridSearchEngine.initialize.
  destruct (build_index _ _) as [store' [[]|e]]; simpl; done.
Qed.

(** C4.  A search on an engine whose [is_ready] flag is not set (it is unset
    at construction and set by the last statement of [initialize] only)
    returns the dict with the error "Search engine not initialized" and an
    empty results list; it raises nothing. *)
Theorem search_before_ready (np_argsort : list R -> list nat)
  (self : HybridSearchEngine.t) (query : string) (top_k : Z)
  (use_reranking : bool) (retrieval_top_k : Z) :
  HybridSearchEngine.is_ready self = false ->
  HybridSearchEngine.search np_argsort self query top_k use_reranking
                            retrieval_top_k
  = Ok (HybridSearchEngine.NotInitialized "Search engine not initialized" []).
Proof. intros Hready. unfold HybridSearchEngine.search. by rewrite Hready. Qed.

(** An engine whose [initialize] failed in the vector store build. *)
Lemma search_before_ready_witness :
  HybridSearchEngine.search argsort_stable
    (HybridSearchEngine.initialize failing_build_index
       (HybridSearchEngine.__init__ sample_client) sample_docs).1
    "jual nasi goreng" 5 true 20
  = Ok (HybridSearchEngine.NotInitialized "Search engine not initialized" []).
Proof.
  apply (search_before_ready argsort_stable
           (HybridSearchEngine.initialize failing_build_index
              (HybridSearchEngine.__init__ sample_client) sample_docs).1
           "jual nasi goreng" 5 true 20).
  reflexivity.
Defined.

End EngineClaims.

(** * Further properties of the module *)

(** ** Tokenizer *)

Section TokenizerFacts.

Lemma tokenize_unfold text :
  BM25._tokenize text
  = filter (fun t => 1 < String.length t)
      (BM25.findall_tokens (map BM25.lower_char (list_ascii_of_string text)) [] true).
Proof. by destruct text. Qed.

Lemma emit_shape run pure t :
  (pure = true -> Forall (fun c => BM25.is_token_char c = true) run) ->
  t ∈ BM25.emit run pure ->
  Forall (fun c => BM25.is_token_char c = true) (list_ascii_of_string t).
Proof.
  intros Hrun. unfold BM25.emit. destruct run as [|c run]; [by intros ?%elem_of_nil|].
  destruct pure; [|by intros ?%elem_of_nil].
  intros ->%list_elem_of_singleton. rewrite list_ascii_of_string_of_list_ascii.
  apply Forall_forall. intros x Hx.
  apply list_elem_of_In, in_rev, list_elem_of_In in Hx.
  specialize (Hrun eq_refl). by eapply Forall_forall in Hrun.
Qed.

Lemma findall_tokens_shape text run pure t :
  (pure = true -> Forall (fun c => BM25.is_token_char c = true) run) ->
  t ∈ BM25.findall_tokens text run pure ->
  Forall (fun c => BM25.is_token_char c = true) (list_ascii_of_string t).
Proof.
  revert run pure. induction text as [|c text IH]; intros run pure Hrun; simpl.
  - by apply emit_shape.
  - destruct (BM25.is_word_char c).
    + apply IH. intros [Hp Hc]%andb_true_iff. constructor; [done|by apply Hrun].
    + intros [Ht|Ht]%elem_of_app; [by eapply emit_shape|].
      eapply IH; [|exact Ht]. intros _. constructor.
Qed.

(** X1.  Every token that [_tokenize] returns has at least two characters,
    and all of them are lower-case ASCII letters or digits: upper-case
    letters, punctuation, the underscore and white space never reach the
    index. *)
Theorem tokenize_tokens_shape (text t : string) :
  t ∈ BM25._tokenize text ->
  2 <= String.length t /\
  Forall (fun c => BM25.is_token_char c = true) (list_ascii_of_string t).
Proof.
  rewrite tokenize_unfold. intros [Hlen Ht]%list_elem_of_filter.
  split; [lia|]. eapply findall_tokens_shape; [|exact Ht]. intros _. constructor.
Qed.

(** The witness: a token of a title. *)
Lemma tokenize_tokens_shape_witness :
  2 <= String.length "eceran" /\
  Forall (fun c => BM25.is_token_char c = true) (list_ascii_of_string "eceran").
Proof.
  apply (tokenize_tokens_shape "Perdagangan Eceran" "eceran").
  right. left.
Defined.

Lemma list_ascii_of_string_app (a b : string) :
  list_ascii_of_string (a ++ b)%string
  = list_ascii_of_string a ++ list_ascii_of_string b.
Proof. induction a as [|c a IH]; simpl; [done|]. by rewrite IH. Qed.

Lemma findall_tokens_space t1 t2 run pure :
  BM25.findall_tokens (t1 ++ " "%char :: t2) run pure
  = BM25.findall_tokens t1 run pure ++ BM25.findall_tokens t2 [] true.
Proof.
  revert run pure. induction t1 as [|c t1 IH]; intros run pure; simpl.
  - done.
  - destruct (BM25.is_word_char c); [apply IH|].
    rewrite IH. by rewrite app_assoc.
Qed.

Lemma tokenize_space (a b : string) :
  BM25._tokenize (a ++ " " ++ b)%string = BM25._tokenize a ++ BM25._tokenize b.
Proof.
  rewrite !tokenize_unfold, !list_ascii_of_string_app. simpl.
  rewrite map_app. simpl. change (BM25.lower_char " ") with " "%char.
  rewrite findall_tokens_space. apply filter_app.
Qed.

(** X2.  Tokenizing fields joined by single spaces gives the tokens of the
    fields, one field after the other: no token of a document spans two of
    its fields, and an empty field adds nothing. *)
Theorem tokenize_join (fields : list string) :
  BM25._tokenize (String.concat " " fields)
  = concat (map BM25._tokenize fields).
Proof.
  induction fields as [|f fields IH]; [done|].
  destruct fields as [|g fields].
  - simpl. by rewrite app_nil_r.
  - change (String.concat " " (f :: g :: fields))
      with (f ++ " " ++ String.concat " " (g :: fields))%string.
    rewrite tokenize_space, IH. done.
Qed.

End TokenizerFacts.

(** ** BM25: the statistics of [fit] *)

Section FitStatistics.

Lemma fit_doc_freqs_containing self docs fields term :
  BM25.doc_freqs (BM25.fit self docs fields) !! term
  = (if decide (containing term (BM25.documents (BM25.fit self docs fields)) = 0)
     then None
     else Some (containing term (BM25.documents (BM25.fit self docs fields)))).
Proof. simpl. rewrite doc_freqs_lookup, lookup_empty. by case_decide. Qed.

Lemma fit_idf_dom self docs fields term :
  is_Some (BM25.idf (BM25.fit self docs fields) !! term) <->
  exists doc_tokens,
    doc_tokens ∈ BM25.documents (BM25.fit self docs fields) /\ term ∈ doc_tokens.
Proof.
  rewrite fit_idf_lookup, fit_doc_freqs_containing. unfold containing.
  set (tokenized := BM25.documents (BM25.fit self docs fields)).
  destruct (decide (length (filter (fun tokens => term ∈ tokens) tokenized) = 0))
    as [Hc|Hc]; simpl.
  - split; [by intros [? ?]|]. intros (d & Hd & Ht). exfalso.
    assert (d ∈ filter (fun tokens => term ∈ tokens) tokenized) as Hin
      by by apply list_elem_of_filter.
    destruct (filter _ tokenized); [by apply elem_of_nil in Hin|done].
  - split; [|by eauto]. intros _.
    destruct (filter (fun tokens => term ∈ tokens) tokenized) as [|d rest] eqn:Hf;
      [done|].
    assert (d ∈ filter (fun tokens => term ∈ tokens) tokenized) as Hin
      by (rewrite Hf; by left).
    apply list_elem_of_filter in Hin as [Ht Hd]. by exists d.
Qed.

(** X3.  After [fit], the document frequency of a term is the number of
    documents whose tokens contain it: a document counts once however often
    it repeats the term, and a term that occurs nowhere has no entry.  The
    [idf] table has an entry for exactly the same terms. *)
Theorem fit_doc_freqs_count self docs fields term :
  BM25.doc_freqs (BM25.fit self docs fields) !! term
  = (if decide (containing term (BM25.documents (BM25.fit self docs fields)) = 0)
     then None
     else Some (containing term (BM25.documents (BM25.fit self docs fields)))) /\
  (is_Some (BM25.idf (BM25.fit self docs fields) !! term) <->
   exists doc_tokens,
     doc_tokens ∈ BM25.documents (BM25.fit self docs fields) /\ term ∈ doc_tokens).
Proof. split; [apply fit_doc_freqs_containing|apply fit_idf_dom]. Qed.

Lemma smoothed_idf_decreasing (n df1 df2 : nat) :
  df1 < df2 -> df2 <= n ->
  (BM25.smoothed_idf n df2 < BM25.smoothed_idf n df1)%R.
Proof.
  intros Hlt Hle. unfold BM25.smoothed_idf.
  apply lt_INR in Hlt. apply le_INR in Hle.
  pose proof (pos_INR df1) as H1.
  assert (0 < (INR n - INR df2 + 0.5) / (INR df2 + 0.5))%R as Hpos
    by (apply Rdiv_lt_0_compat; lra).
  apply ln_increasing; [lra|].
  apply Rplus_lt_compat_r.
  apply (Rmult_lt_reg_r ((INR df1 + 0.5) * (INR df2 + 0.5))).
  - apply Rmult_lt_0_compat; lra.
  - replace ((INR n - INR df2 + 0.5) / (INR df2 + 0.5)
             * ((INR df1 + 0.5) * (INR df2 + 0.5)))%R
      with ((INR n - INR df2 + 0.5) * (INR df1 + 0.5))%R by (field; lra).
    replace ((INR n - INR df1 + 0.5) / (INR df1 + 0.5)
             * ((INR df1 + 0.5) * (INR df2 + 0.5)))%R
      with ((INR n - INR df1 + 0.5) * (INR df2 + 0.5))%R by (field; lra).
    nra.
Qed.

(** X4.  Of two terms of a fitted index, the one that occurs in fewer
    documents has the strictly larger inverse document frequency. *)
Theorem fit_idf_rarer_is_larger self docs fields t1 t2 df1 df2 v1 v2 :
  BM25.doc_freqs (BM25.fit self docs fields) !! t1 = Some df1 ->
  BM25.doc_freqs (BM25.fit self docs fields) !! t2 = Some df2 ->
  BM25.idf (BM25.fit self docs fields) !! t1 = Some v1 ->
  BM25.idf (BM25.fit self docs fields) !! t2 = Some v2 ->
  df1 < df2 -> (v2 < v1)%R.
Proof.
  intros Hdf1 Hdf2. rewrite !fit_idf_lookup, Hdf1, Hdf2. simpl.
  intros [= <-] [= <-] Hlt.
  apply smoothed_idf_decreasing; [done|].
  apply fit_doc_freqs in Hdf2. simpl in Hdf2. lia.
Qed.

Lemma menu_docs_idf term df :
  BM25.doc_freqs (BM25.fit (BM25.__init__ 1.5 0.75) menu_docs None) !! term = Some df ->
  BM25.idf (BM25.fit (BM25.__init__ 1.5 0.75) menu_docs None) !! term
  = Some (BM25.smoothed_idf 2 df).
Proof. intros Hdf. by rewrite fit_idf_lookup, Hdf. Qed.

(** The witness: "makanan" is in one document of [menu_docs], "restoran" in
    both. *)
Lemma fit_idf_rarer_is_larger_witness :
  (BM25.smoothed_idf 2 2 < BM25.smoothed_idf 2 1)%R.
Proof.
  apply (fit_idf_rarer_is_larger (BM25.__init__ 1.5 0.75) menu_docs None
           "makanan" "restoran" 1 2 _ _ eq_refl eq_refl
           (menu_docs_idf "makanan" 1 eq_refl)
           (menu_docs_idf "restoran" 2 eq_refl)).
  lia.
Defined.

End FitStatistics.

(** ** BM25: the scorer *)

Section ScorerFacts.

Lemma score_terms_shift self doc_tokens len terms acc :
  BM25.score_terms self doc_tokens len terms acc
  = (s ← BM25.score_terms self doc_tokens len terms 0%R; Ok (acc + s)%R).
Proof.
  revert acc. induction terms as [|term terms IH]; intros acc; simpl.
  - f_equal. lra.
  - destruct (BM25.idf self !! term) as [idf_term|]; [|apply IH].
    destruct (count_occ String.string_dec doc_tokens term =? 0)%nat; [apply IH|].
    destruct (py_div (INR len) (BM25.avgdl self)) as [ratio|]; [|done]. simpl.
    destruct (py_div _ _) as [quotient|]; [|done]. simpl.
    rewrite IH. rewrite (IH (0 + _)%R).
    destruct (BM25.score_terms self doc_tokens len terms 0); simpl; [|done].
    f_equal. lra.
Qed.

Lemma score_terms_app self doc_tokens len q1 q2 acc :
  BM25.score_terms self doc_tokens len (q1 ++ q2) acc
  = (s ← BM25.score_terms self doc_tokens len q1 acc;
     BM25.score_terms self doc_tokens len q2 s).
Proof.
  revert acc. induction q1 as [|term q1 IH]; intros acc; simpl; [done|].
  destruct (BM25.idf self !! term) as [idf_term|]; [|apply IH].
  destruct (count_occ String.string_dec doc_tokens term =? 0)%nat; [apply IH|].
  destruct (py_div (INR len) (BM25.avgdl self)) as [ratio|]; [|done]. simpl.
  destruct (py_div _ _) as [quotient|]; [|done]. simpl. apply IH.
Qed.

(** What the query terms add for a document, on an index whose [idf] table
    is positive and covers the document, and whose average length is
    positive when the document has a token: nothing raises, the total is not
    negative, and it is positive exactly when a term of the query is in the
    document. *)
Lemma score_terms_sign index doc_tokens len terms :
  (0 <= BM25.k1 index)%R -> (0 <= BM25.b index <= 1)%R ->
  (forall term, term ∈ doc_tokens -> is_Some (BM25.idf index !! term)) ->
  (forall term v, BM25.idf index !! term = Some v -> (0 < v)%R) ->
  (doc_tokens <> [] -> (0 < BM25.avgdl index)%R) ->
  exists s,
    BM25.score_terms index doc_tokens len terms 0%R = Ok s /\
    (0 <= s)%R /\
    ((0 < s)%R <-> shares_term terms doc_tokens).
Proof.
  intros Hk1 Hb Hcover Hidfpos Havgdl.
  induction terms as [|term terms (s & Hs & Hnn & Hpos)].
  - exists 0%R. simpl. split; [done|]. split; [lra|].
    split; [lra|]. intros (t & Ht & _). by apply elem_of_nil in Ht.
  - assert (Hskip : term ∉ doc_tokens ->
      (0 <= s)%R /\ ((0 < s)%R <-> shares_term (term :: terms) doc_tokens)).
    { intros Hnot. split; [done|]. rewrite Hpos. unfold shares_term. split.
      - intros (t & Ht & Hd). exists t. split; [by right|done].
      - intros (t & [->|Ht]%elem_of_cons & Hd); [done|by exists t]. }
    simpl.
    destruct (BM25.idf index !! term) as [idf_term|] eqn:Hidf.
    2:{ exists s. split; [done|]. apply Hskip. intros Ht.
        destruct (Hcover term Ht) as [? ?]. congruence. }
    destruct (count_occ String.string_dec doc_tokens term =? 0)%nat eqn:Htf.
    { apply Nat.eqb_eq, count_occ_not_In in Htf.
      exists s. split; [done|]. apply Hskip. intros Ht. apply Htf.
      by apply list_elem_of_In. }
    apply Nat.eqb_neq in Htf.
    assert (Hin : term ∈ doc_tokens).
    { apply list_elem_of_In, (count_occ_In String.string_dec). lia. }
    assert (Havg : (0 < BM25.avgdl index)%R).
    { apply Havgdl. by eapply count_occ_pos_nonempty. }
    rewrite py_div_ok by lra. simpl.
    set (tf := count_occ String.string_dec doc_tokens term) in *.
    assert (1 <= INR tf)%R as Htf1.
    { change 1%R with (INR 1). apply le_INR. lia. }
    assert (0 <= INR len / BM25.avgdl index)%R as Hratio.
    { pose proof (pos_INR len).
      apply Rmult_le_pos; [done|]. by apply Rlt_le, Rinv_0_lt_compat. }
    assert (0 <= BM25.b index * (INR len / BM25.avgdl index))%R
      by (apply Rmult_le_pos; lra).
    assert (0 <= BM25.k1 index
                 * (1 - BM25.b index
                    + BM25.b index * (INR len / BM25.avgdl index)))%R
      as Hk by (apply Rmult_le_pos; lra).
    rewrite py_div_ok by lra. simpl.
    rewrite score_terms_shift, Hs. simpl.
    eexists. split; [done|].
    assert (0 < idf_term)%R as Hidf_pos by by eapply Hidfpos.
    assert (0 < INR tf * (BM25.k1 index + 1)
                / (INR tf + BM25.k1 index
                   * (1 - BM25.b index
                      + BM25.b index * (INR len / BM25.avgdl index))))%R
      as Hq.
    { apply Rdiv_lt_0_compat; [|lra]. apply Rmult_lt_0_compat; lra. }
    pose proof (Rmult_lt_0_compat _ _ Hidf_pos Hq) as Hc.
    split; [lra|]. split; [|lra].
    intros _. exists term. split; [by left|done].
Qed.

Lemma fit_score_terms self docs fields doc_tokens terms :
  (0 <= BM25.k1 self)%R -> (0 <= BM25.b self <= 1)%R ->
  doc_tokens ∈ BM25.documents (BM25.fit self docs fields) ->
  exists s,
    BM25.score_terms (BM25.fit self docs fields) doc_tokens (length doc_tokens)
                     terms 0%R = Ok s /\
    (0 <= s)%R /\
    ((0 < s)%R <-> shares_term terms doc_tokens).
Proof.
  intros Hk1 Hb Hdoc. apply score_terms_sign; try done.
  - intros term Ht. apply fit_idf_dom. by exists doc_tokens.
  - intros term v. apply fit_idf_pos.
  - intros Hne. by eapply fit_avgdl_pos.
Qed.

(** X6.  On a fitted index (tuning constants in their usual range) the score
    of a document of the index is never negative, and it is positive exactly
    when the document contains a token of the query. *)
Theorem fit_score_positive_iff_shared self docs fields query_tokens doc_tokens :
  (0 <= BM25.k1 self)%R -> (0 <= BM25.b self <= 1)%R ->
  doc_tokens ∈ BM25.documents (BM25.fit self docs fields) ->
  exists s,
    BM25._score_document (BM25.fit self docs fields) query_tokens doc_tokens
                         (length doc_tokens) = Ok s /\
    (0 <= s)%R /\
    ((0 < s)%R <-> shares_term query_tokens doc_tokens).
Proof. intros Hk1 Hb Hdoc. by apply fit_score_terms. Qed.

(** The witness: the default constants, the sample corpus and its second
    document. *)
Lemma fit_score_positive_iff_shared_witness :
  exists s,
    BM25._score_document (BM25.fit (BM25.__init__ 1.5 0.75) sample_docs None)
                         ["jual"; "restoran"] ["restoran"] 1 = Ok s /\
    (0 <= s)%R /\
    ((0 < s)%R <-> shares_term ["jual"; "restoran"] ["restoran"]).
Proof.
  apply (fit_score_positive_iff_shared (BM25.__init__ 1.5 0.75) sample_docs None
           ["jual"; "restoran"] ["restoran"]); [simpl; lra|simpl; lra|].
  right. left.
Defined.

Lemma fit_score_terms_sublist self docs fields doc_tokens len q1 q acc1 acc :
  (0 <= BM25.k1 self)%R -> (0 <= BM25.b self <= 1)%R ->
  doc_tokens ∈ BM25.documents (BM25.fit self docs fields) ->
  q1 `sublist_of` q -> (acc1 <= acc)%R ->
  exists s1 s,
    BM25.score_terms (BM25.fit self docs fields) doc_tokens len q1 acc1 = Ok s1 /\
    BM25.score_terms (BM25.fit self docs fields) doc_tokens len q acc = Ok s /\
    (acc1 <= s1 <= s)%R.
Proof.
  intros Hk1 Hb Hdoc Hsub. revert acc1 acc.
  set (index := BM25.fit self docs fields).
  assert (Hround : forall term,
            exists c, (0 <= c)%R /\
              forall score q',
                BM25.score_terms index doc_tokens len (term :: q') score
                = BM25.score_terms index doc_tokens len q' (score + c)%R).
  { intros term.
    destruct (fit_term_contribution self docs fields doc_tokens len term 0%R
                Hk1 Hb Hdoc) as (c & Hc & Hpos).
    fold index in Hc. exists c. split; [done|]. intros score q'.
    change (term :: q') with ([term] ++ q'). rewrite score_terms_app.
    by rewrite score_terms_shift, Hc. }
  induction Hsub as [|term q1 q Hsub IH|term q1 q Hsub IH]; intros acc1 acc Hacc.
  - exists acc1, acc. simpl. split; [done|]. split; [done|lra].
  - destruct (Hround term) as (c & Hc & Hstep). rewrite !Hstep.
    destruct (IH (acc1 + c)%R (acc + c)%R) as (s1 & s & H1 & H2 & Hle); [lra|].
    exists s1, s. split; [done|]. split; [done|lra].
  - destruct (Hround term) as (c & Hc & Hstep). rewrite Hstep.
    destruct (IH acc1 (acc + c)%R) as (s1 & s & H1 & H2 & Hle); [lra|].
    exists s1, s. split; [done|]. split; [done|lra].
Qed.

(** X5.  On a fitted index (tuning constants in their usual range) the score
    of a document of the index grows with the query: when the tokens [q1]
    are what is left of the tokens [q] after dropping some of them, the score
    for [q1] is at most the score for [q].  Adding tokens to a query never
    lowers a score, and a repeated token never counts against a document. *)
Theorem score_document_monotone self docs fields q1 q doc_tokens len :
  (0 <= BM25.k1 self)%R -> (0 <= BM25.b self <= 1)%R ->
  doc_tokens ∈ BM25.documents (BM25.fit self docs fields) ->
  q1 `sublist_of` q ->
  exists s1 s,
    BM25._score_document (BM25.fit self docs fields) q1 doc_tokens len = Ok s1 /\
    BM25._score_document (BM25.fit self docs fields) q doc_tokens len = Ok s /\
    (s1 <= s)%R.
Proof.
  intros Hk1 Hb Hdoc Hsub. unfold BM25._score_document.
  destruct (fit_score_terms_sublist self docs fields doc_tokens len q1 q 0 0
              Hk1 Hb Hdoc Hsub) as (s1 & s & H1 & H2 & Hle); [lra|].
  exists s1, s. split; [done|]. split; [done|lra].
Qed.

(** The witness: the default constants, the sample corpus, its second
    document, and a query that gains a token. *)
Lemma score_document_monotone_witness :
  exists s1 s,
    BM25._score_document (BM25.fit (BM25.__init__ 1.5 0.75) sample_docs None)
                         ["restoran"] ["restoran"] 1 = Ok s1 /\
    BM25._score_document (BM25.fit (BM25.__init__ 1.5 0.75) sample_docs None)
                         ["jual"; "restoran"] ["restoran"] 1 = Ok s /\
    (s1 <= s)%R.
Proof.
  apply (score_document_monotone (BM25.__init__ 1.5 0.75) sample_docs None
           ["restoran"] ["jual"; "restoran"] ["restoran"] 1);
    [simpl; lra|simpl; lra| |].
  - right. left.
  - apply sublist_cons, sublist_skip, sublist_nil.
Defined.

End ScorerFacts.

(** ** BM25: the result list of [search] *)

Section SearchResultFacts.

Lemma StronglySorted_lookup {A} (rel : A -> A -> Prop) (l : list A) i j x y :
  StronglySorted rel l -> i < j -> l !! i = Some x -> l !! j = Some y -> rel x y.
Proof.
  intros Hs. revert i j. induction Hs as [|a l Hs IH Hall]; intros i j Hij Hi Hj.
  - done.
  - destruct j as [|j]; [lia|]. simpl in Hj. destruct i as [|i]; simpl in Hi.
    + injection Hi as <-. eapply Forall_forall in Hall; [exact Hall|].
      by eapply list_elem_of_lookup_2.
    + apply (IH i j); [lia|done|done].
Qed.

Lemma StronglySorted_take {A} (rel : A -> A -> Prop) (l : list A) n :
  StronglySorted rel l -> StronglySorted rel (take n l).
Proof.
  intros Hs. rewrite <- (take_drop n l) in Hs. by apply StronglySorted_app_1_l in Hs.
Qed.

Lemma StronglySorted_NoDup_fst (l : list (nat * R)) :
  StronglySorted (fun a b => a.1 < b.1) l -> NoDup l.*1.
Proof.
  induction 1 as [|a l Hs IH Hall]; csimpl; constructor; [|done].
  intros (b & Hb & Hin)%list_elem_of_fmap.
  eapply Forall_forall in Hall; [|exact Hin]. simpl in Hall. lia.
Qed.

(** What the loop of [search] adds: entries in the order of the indices,
    within the range it walks, and one for every document that scores
    above zero. *)
Lemma score_all_new self query_tokens docs idx scores out :
  BM25.score_all self query_tokens docs idx scores = Ok out ->
  exists new,
    out = scores ++ new /\
    StronglySorted (fun a b : nat * R => a.1 < b.1) new /\
    Forall (fun e : nat * R => idx <= e.1 < idx + length docs) new /\
    (forall j d len s,
       docs !! j = Some d -> BM25.doc_len self !! (idx + j) = Some len ->
       BM25._score_document self query_tokens d len = Ok s -> (0 < s)%R ->
       (idx + j, s) ∈ new).
Proof.
  revert idx scores. induction docs as [|doc_tokens docs IH]; intros idx scores; simpl.
  - intros [= <-]. exists []. rewrite app_nil_r. split; [done|].
    split; [constructor|]. split; [constructor|]. by intros [|j].
  - destruct (py_index (BM25.doc_len self) idx) as [len|] eqn:Hlen; [|done]. simpl.
    destruct (BM25._score_document self query_tokens doc_tokens len)
      as [score|] eqn:Hscore; [|done]. simpl.
    apply py_index_inv in Hlen.
    intros Hout. destruct (IH _ _ Hout) as (new & -> & Hsorted & Hrange & Hall).
    assert (Hrange' : Forall (fun e : nat * R => idx <= e.1 < idx + S (length docs)) new).
    { eapply Forall_impl; [exact Hrange|]. simpl. lia. }
    assert (Hrest : forall j d len' s,
      (doc_tokens :: docs) !! S j = Some d ->
      BM25.doc_len self !! (idx + S j) = Some len' ->
      BM25._score_document self query_tokens d len' = Ok s -> (0 < s)%R ->
      (idx + S j, s) ∈ new).
    { intros j d len' s Hj Hl Hs Hp. replace (idx + S j) with (S idx + j) by lia.
      apply (Hall j d len' s); try done.
      by replace (S idx + j) with (idx + S j) by lia. }
    destruct (Rlt_dec 0 score) as [Hpos|Hnpos].
    + exists ((idx, score) :: new). split; [by rewrite <- app_assoc|].
      split.
      { constructor; [done|]. eapply Forall_impl; [exact Hrange|]. simpl. lia. }
      split.
      { constructor; [simpl; lia|done]. }
      intros [|j] d len' s Hj Hl Hs Hp.
      * simpl in Hj. injection Hj as <-. rewrite Nat.add_0_r in *.
        rewrite Hlen in Hl. injection Hl as <-. rewrite Hscore in Hs.
        injection Hs as <-. by left.
      * right. by eapply Hrest.
    + exists new. split; [done|]. split; [done|]. split; [done|].
      intros [|j] d len' s Hj Hl Hs Hp.
      * simpl in Hj. injection Hj as <-. rewrite Nat.add_0_r in *.
        rewrite Hlen in Hl. injection Hl as <-. rewrite Hscore in Hs.
        injection Hs as <-. done.
      * by eapply Hrest.
Qed.

(** Inserting an entry whose index is below those of a sorted list keeps
    the order by score and then by index. *)
Lemma insert_desc_score_then_index (x : nat * R) (l : list (nat * R)) :
  StronglySorted score_then_index l ->
  Forall (fun y : nat * R => x.1 < y.1) l ->
  StronglySorted score_then_index (insert_desc snd x l).
Proof.
  induction l as [|y l IH]; simpl; intros Hs Hlt.
  - repeat constructor.
  - apply StronglySorted_inv in Hs as [Hl Hy].
    apply Forall_cons in Hlt as [Hxy Hlt].
    destruct (Rle_dec y.2 x.2) as [Hle|Hnle].
    + constructor; [by constructor|]. constructor.
      * unfold score_then_index. destruct (Rle_lt_or_eq_dec _ _ Hle); [by left|].
        right. by split.
      * apply Forall_forall. intros z Hz.
        eapply Forall_forall in Hy; [|exact Hz].
        eapply Forall_forall in Hlt; [|exact Hz].
        unfold score_then_index in *. destruct Hy as [Hy|[Hy _]].
        -- left. lra.
        -- destruct (Rle_lt_or_eq_dec _ _ Hle); [left; lra|right; split; [congruence|done]].
    + constructor; [by apply IH|].
      rewrite insert_desc_perm. constructor; [|done].
      left. lra.
Qed.

Lemma py_sorted_desc_score_then_index (l : list (nat * R)) :
  StronglySorted (fun a b : nat * R => a.1 < b.1) l ->
  StronglySorted score_then_index (py_sorted_desc snd l).
Proof.
  induction 1 as [|x l Hs IH Hall]; simpl; [constructor|].
  apply insert_desc_score_then_index; [done|].
  by rewrite py_sorted_desc_perm.
Qed.

(** [search] on a fitted index, through the list [scores] that its loop
    builds. *)
Lemma fit_search_structure self docs fields query top_k :
  (0 <= BM25.k1 self)%R -> (0 <= BM25.b self <= 1)%R ->
  exists scores,
    BM25.search (BM25.fit self docs fields) query top_k
    = Ok (py_prefix (py_sorted_desc snd scores) top_k) /\
    StronglySorted (fun a b : nat * R => a.1 < b.1) scores /\
    Forall (fun e : nat * R => e.1 < length docs) scores /\
    Forall (scored (BM25.fit self docs fields) (BM25._tokenize query)) scores /\
    (forall idx d s,
       BM25.documents (BM25.fit self docs fields) !! idx = Some d ->
       BM25._score_document (BM25.fit self docs fields) (BM25._tokenize query)
                            d (length d) = Ok s ->
       (0 < s)%R -> (idx, s) ∈ scores).
Proof.
  intros Hk1 Hb. set (index := BM25.fit self docs fields).
  destruct (fit_search_total self docs fields query top_k Hk1 Hb) as [res Hres].
  fold index in Hres. unfold BM25.search in *.
  destruct (BM25._tokenize query) as [|q qs] eqn:Hq.
  - exists []. split; [simpl; by rewrite py_prefix_nil|]. split; [constructor|].
    split; [constructor|]. split; [constructor|].
    intros idx d s _. unfold BM25._score_document. simpl. intros [= <-]. lra.
  - destruct (BM25.score_all index (q :: qs) (BM25.documents index) 0 [])
      as [scores|] eqn:Hscores; [|done].
    exists scores. split; [done|].
    assert (Hscored : Forall (scored index (q :: qs)) scores).
    { eapply score_all_scored; [|constructor|exact Hscores]. by intros j d Hj. }
    destruct (score_all_new _ _ _ _ _ _ Hscores) as (new & Heq & Hsorted & Hrange & Hall).
    rewrite app_nil_l in Heq. subst new.
    split; [done|]. split.
    { eapply Forall_impl; [exact Hrange|]. intros e He.
      assert (length (BM25.documents index) = length docs) as Hlen
        by apply length_map.
      rewrite Hlen in He. simpl in He. lia. }
    split; [done|].
    intros idx d s Hd Hs Hp. apply (Hall idx d (length d) s); try done.
    change (0 + idx) with idx. unfold index in *.
    rewrite fit_doc_len, list_lookup_fmap, Hd. done.
Qed.

(** X7.  On a fitted index (tuning constants in their usual range) [search]
    returns only documents that have a token in common with the query, and
    when [top_k] is at least the corpus size it returns every such document:
    a query without tokens, or with tokens the corpus lacks, returns
    nothing. *)
Theorem bm25_search_matches_shared_terms self docs fields query top_k :
  (0 <= BM25.k1 self)%R -> (0 <= BM25.b self <= 1)%R ->
  exists res,
    BM25.search (BM25.fit self docs fields) query top_k = Ok res /\
    (forall idx, idx ∈ res.*1 ->
       exists d, BM25.documents (BM25.fit self docs fields) !! idx = Some d /\
                 shares_term (BM25._tokenize query) d) /\
    ((Z.of_nat (length docs) <= top_k)%Z ->
     forall idx d,
       BM25.documents (BM25.fit self docs fields) !! idx = Some d ->
       shares_term (BM25._tokenize query) d -> idx ∈ res.*1).
Proof.
  intros Hk1 Hb.
  destruct (fit_search_structure self docs fields query top_k Hk1 Hb)
    as (scores & Hrun & Hsorted & Hrange & Hscored & Hall).
  eexists. split; [exact Hrun|]. split.
  - intros idx ([i s] & -> & Hin)%list_elem_of_fmap. simpl.
    apply py_prefix_subseteq, elem_of_py_sorted_desc in Hin.
    eapply Forall_forall in Hscored; [|exact Hin].
    destruct Hscored as (d & len & Hd & Hlen & Hs & Hp). cbn [fst snd] in *.
    exists d. split; [done|].
    assert (d ∈ BM25.documents (BM25.fit self docs fields)) as Hdoc
      by by eapply list_elem_of_lookup_2.
    destruct (fit_score_terms self docs fields d (BM25._tokenize query) Hk1 Hb Hdoc)
      as (s' & Hs' & _ & Hiff).
    rewrite fit_doc_len, list_lookup_fmap, Hd in Hlen. injection Hlen as <-.
    unfold BM25._score_document in Hs. rewrite Hs' in Hs. injection Hs as ->.
    by apply Hiff.
  - intros Hk idx d Hd Hshare.
    assert (d ∈ BM25.documents (BM25.fit self docs fields)) as Hdoc
      by by eapply list_elem_of_lookup_2.
    destruct (fit_score_terms self docs fields d (BM25._tokenize query) Hk1 Hb Hdoc)
      as (s & Hs & _ & Hiff).
    apply Hiff in Hshare. specialize (Hall idx d s Hd Hs Hshare).
    apply list_elem_of_fmap. exists (idx, s). split; [done|].
    rewrite py_prefix_nonneg by lia. rewrite take_ge.
    + by apply elem_of_py_sorted_desc.
    + rewrite py_sorted_desc_perm.
      assert (length scores <= length docs); [|lia].
      apply StronglySorted_NoDup_fst in Hsorted.
      assert (length scores.*1 <= length (seq 0 (length docs))) as Hle.
      { apply submseteq_length, NoDup_submseteq; [done|].
        intros i (e & -> & He)%list_elem_of_fmap.
        eapply Forall_forall in Hrange; [|exact He]. apply elem_of_seq. lia. }
      by rewrite length_fmap, length_seq in Hle.
Qed.

(** The witness: the default constants and the sample corpus. *)
Lemma bm25_search_matches_shared_terms_witness :
  exists res,
    BM25.search (BM25.fit (BM25.__init__ 1.5 0.75) sample_docs None)
                "jual makanan" 5 = Ok res /\
    forall idx, idx ∈ res.*1 ->
      exists d, BM25.documents (BM25.fit (BM25.__init__ 1.5 0.75) sample_docs None)
                  !! idx = Some d /\
                shares_term (BM25._tokenize "jual makanan") d.
Proof.
  destruct (bm25_search_matches_shared_terms (BM25.__init__ 1.5 0.75) sample_docs
              None "jual makanan" 5) as (res & Hrun & Honly & _);
    [simpl; lra|simpl; lra|].
  exists res. split; [exact Hrun|exact Honly].
Defined.

(** X8.  On a fitted index (tuning constants in their usual range) the
    result of [search] names every document at most once, with indices
    below the corpus size, and is ordered by score, largest first, and among
    equal scores by index, smallest first: the sort is stable and the loop
    appends in index order. *)
Theorem bm25_search_order self docs fields query top_k :
  (0 <= BM25.k1 self)%R -> (0 <= BM25.b self <= 1)%R ->
  exists res,
    BM25.search (BM25.fit self docs fields) query top_k = Ok res /\
    NoDup res.*1 /\
    Forall (fun e : nat * R => e.1 < length docs) res /\
    StronglySorted score_then_index res /\
    ties_ascending res.
Proof.
  intros Hk1 Hb.
  destruct (fit_search_structure self docs fields query top_k Hk1 Hb)
    as (scores & Hrun & Hsorted & Hrange & _ & _).
  eexists. split; [exact Hrun|].
  destruct (py_prefix_take (py_sorted_desc snd scores) top_k) as [n ->].
  assert (Hlex : StronglySorted score_then_index (take n (py_sorted_desc snd scores))).
  { apply StronglySorted_take. by apply py_sorted_desc_score_then_index. }
  split.
  { rewrite fmap_take. eapply sublist_NoDup; [|apply sublist_take].
    rewrite py_sorted_desc_perm. by apply StronglySorted_NoDup_fst. }
  split.
  { apply Forall_forall. intros e He. apply subseteq_take in He.
    apply elem_of_py_sorted_desc in He. by eapply Forall_forall in Hrange. }
  split; [done|].
  intros i j x y Hij Hi Hj Heq.
  destruct (StronglySorted_lookup _ _ i j x y Hlex Hij Hi Hj) as [Hlt|[_ Hlt]];
    [lra|done].
Qed.

(** The witness: the default constants and the sample corpus. *)
Lemma bm25_search_order_witness :
  exists res,
    BM25.search (BM25.fit (BM25.__init__ 1.5 0.75) sample_docs None)
                "jual makanan" 5 = Ok res /\
    ties_ascending res.
Proof.
  destruct (bm25_search_order (BM25.__init__ 1.5 0.75) sample_docs
              None "jual makanan" 5) as (res & Hrun & _ & _ & _ & Hties);
    [simpl; lra|simpl; lra|].
  exists res. split; [exact Hrun|exact Hties].
Defined.

(** X9.  On a fitted index (tuning constants in their usual range) [search]
    returns the best entries: a document that scores above zero and is not
    returned scores no more than any document that is returned. *)
Theorem bm25_search_best_first self docs fields query top_k :
  (0 <= BM25.k1 self)%R -> (0 <= BM25.b self <= 1)%R ->
  exists res,
    BM25.search (BM25.fit self docs fields) query top_k = Ok res /\
    forall idx d s e,
      BM25.documents (BM25.fit self docs fields) !! idx = Some d ->
      BM25._score_document (BM25.fit self docs fields) (BM25._tokenize query)
                           d (length d) = Ok s ->
      (0 < s)%R -> idx ∉ res.*1 -> e ∈ res -> (s <= e.2)%R.
Proof.
  intros Hk1 Hb.
  destruct (fit_search_structure self docs fields query top_k Hk1 Hb)
    as (scores & Hrun & _ & _ & _ & Hall).
  eexists. split; [exact Hrun|].
  destruct (py_prefix_take (py_sorted_desc snd scores) top_k) as [n ->].
  intros idx d s e Hd Hs Hp Hout He.
  specialize (Hall idx d s Hd Hs Hp).
  pose proof (py_sorted_desc_sorted snd scores) as Hsorted.
  apply (take_rest_sorted _ _ n e (idx, s) Hsorted He).
  - by apply elem_of_py_sorted_desc.
  - intros Hin. apply Hout. apply list_elem_of_fmap. by exists (idx, s).
Qed.

(** The witness: the default constants and the sample corpus. *)
Lemma bm25_search_best_first_witness :
  exists res,
    BM25.search (BM25.fit (BM25.__init__ 1.5 0.75) sample_docs None)
                "jual makanan" 1 = Ok res.
Proof.
  destruct (bm25_search_best_first (BM25.__init__ 1.5 0.75) sample_docs
              None "jual makanan" 1) as (res & Hrun & _);
    [simpl; lra|simpl; lra|].
  by exists res.
Defined.

End SearchResultFacts.

(** ** Reciprocal rank fusion: further properties *)

Section FusionFurther.

Lemma rrf_ranking_rescored (f : nat * R -> R) k ranking rank scores :
  rrf_ranking k (map (fun e => (e.1, f e)) ranking) rank scores
  = rrf_ranking k ranking rank scores.
Proof.
  revert rank scores. induction ranking as [|[d x] ranking IH]; intros rank scores;
    simpl; [done|].
  destruct (py_div 1 (IZR (k + Z.of_nat rank + 1))); simpl; [apply IH|done].
Qed.

Lemma rrf_rankings_rescored (f : nat * R -> R) k rankings scores :
  rrf_rankings k (map (map (fun e => (e.1, f e))) rankings) scores
  = rrf_rankings k rankings scores.
Proof.
  revert scores. induction rankings as [|r rankings IH]; intros scores; simpl; [done|].
  rewrite rrf_ranking_rescored.
  destruct (rrf_ranking k r 0 scores); simpl; [apply IH|done].
Qed.

(** X10.  Reciprocal rank fusion reads the positions of the documents and
    nothing else: replacing every raw score of every input list by any other
    number leaves the output, scores and order, unchanged. *)
Theorem rrf_ignores_raw_scores (f : nat * R -> R)
  (rankings : list (list (nat * R))) (k : Z) :
  reciprocal_rank_fusion (map (map (fun e => (e.1, f e))) rankings) k
  = reciprocal_rank_fusion rankings k.
Proof. unfold reciprocal_rank_fusion. by rewrite rrf_rankings_rescored. Qed.






Lemma rrf_term_nonneg k d r : (0 <= k)%Z -> (0 <= rrf_term k d r)%R.
Proof.
  intros Hk. unfold rrf_term. destruct (rank_of d r) as [rank|]; [|lra].
  pose proof (rrf_denominator k rank Hk). apply Rlt_le, Rdiv_lt_0_compat; lra.
Qed.

Lemma rrf_term_le k d r : (0 <= k)%Z -> (rrf_term k d r <= 1 / (IZR k + 1))%R.
Proof.
  intros Hk. unfold rrf_term. destruct (rank_of d r) as [rank|].
  - rewrite !plus_IZR, <- INR_IZR_INZ. pose proof (pos_INR rank).
    apply IZR_le in Hk.
    apply Rmult_le_compat_l; [lra|]. apply Rinv_le_contravar; lra.
  - apply IZR_le in Hk. apply Rlt_le, Rdiv_lt_0_compat; lra.
Qed.

Lemma rrf_term_before k a b r ra rb :
  (0 <= k)%Z -> rank_of a r = Some ra -> rank_of b r = Some rb -> ra < rb ->
  (rrf_term k b r < rrf_term k a r)%R.
Proof.
  intros Hk Ha Hb Hlt. unfold rrf_term. rewrite Ha, Hb.
  rewrite !plus_IZR, <- !INR_IZR_INZ. pose proof (pos_INR ra).
  apply IZR_le in Hk. apply lt_INR in Hlt.
  apply Rmult_lt_compat_l; [lra|]. apply Rinv_lt_contravar; [|lra].
  apply Rmult_lt_0_compat; lra.
Qed.

Lemma rrf_sum_before k rankings a b :
  (0 <= k)%Z -> ranked_before rankings a b ->
  (rrf_sum k rankings b <= rrf_sum k rankings a)%R /\
  ((exists r, r ∈ rankings /\ is_Some (rank_of b r)) ->
   (rrf_sum k rankings b < rrf_sum k rankings a)%R).
Proof.
  intros Hk. induction rankings as [|r rankings IH]; intros Hbefore; simpl.
  - split; [lra|]. intros (r & Hr & _). by apply elem_of_nil in Hr.
  - destruct IH as [IHle IHlt].
    { intros r' rb Hr'. apply Hbefore. by right. }
    assert (Hhead : (rrf_term k b r <= rrf_term k a r)%R /\
                    (is_Some (rank_of b r) -> (rrf_term k b r < rrf_term k a r)%R)).
    { destruct (rank_of b r) as [rb|] eqn:Hb.
      - destruct (Hbefore r rb ltac:(by left) Hb) as (ra & Ha & Hlt).
        pose proof (rrf_term_before k a b r ra rb Hk Ha Hb Hlt). split; [lra|done].
      - split; [|by intros [? ?]]. unfold rrf_term at 1. rewrite Hb.
        by apply rrf_term_nonneg. }
    destruct Hhead as [Hle Hlt]. split; [lra|].
    intros (r' & [->|Hr']%elem_of_cons & Hsome).
    + specialize (Hlt Hsome). lra.
    + assert (rrf_sum k rankings b < rrf_sum k rankings a)%R by (apply IHlt; eauto).
      lra.
Qed.

Lemma rank_of_is_Some d (r : list (nat * R)) : is_Some (rank_of d r) <-> d ∈ r.*1.
Proof.
  split.
  - intros [rank Hr]. apply rank_of_Some in Hr as [[x Hx] _].
    apply list_elem_of_fmap. exists (d, x). split; [done|].
    by eapply list_elem_of_lookup_2.
  - intros Hin. destruct (rank_of d r) eqn:Hr; [by eexists|].
    exfalso. unfold rank_of in Hr.
    assert (Hnone : forall rank, d ∈ r.*1 -> rank_from d r rank <> None).
    { clear. induction r as [|[d' x] r IH]; intros rank Hin; csimpl in *.
      - by apply elem_of_nil in Hin.
      - destruct (decide (d' = d)); [done|].
        apply IH. apply elem_of_cons in Hin as [?|?]; [congruence|done]. }
    by apply (Hnone 0).
Qed.

(** X12.  When no list names a document twice, a document [a] that is ranked
    before [b] in every list that contains [b], and [b] is in at least one
    list, receives the strictly larger fused score and stands before [b] in
    the output. *)
Theorem rrf_respects_agreement (rankings : list (list (nat * R))) (a b : nat) :
  (forall ranking, ranking ∈ rankings -> NoDup ranking.*1) ->
  ranked_before rankings a b ->
  (exists ranking, ranking ∈ rankings /\ b ∈ ranking.*1) ->
  exists fused i j sa sb,
    reciprocal_rank_fusion rankings K = Ok fused /\
    fused !! i = Some (a, sa) /\ fused !! j = Some (b, sb) /\
    (sb < sa)%R /\ i < j.
Proof.
  intros Hnd Hbefore (rb_list & Hrb & Hb).
  assert (HK : (0 <= K)%Z) by (unfold K; lia).
  destruct (rrf_facts rankings K HK) as (fused & Hrun & Hndk & Hkeys & Hsorted & Hval).
  assert (Hb_rank : is_Some (rank_of b rb_list)) by by apply rank_of_is_Some.
  assert (Ha : a ∈ rb_list.*1).
  { destruct Hb_rank as [rb Hrank].
    destruct (Hbefore rb_list rb Hrb Hrank) as (ra & Hra & _).
    apply rank_of_is_Some. by eexists. }
  assert (a ∈ fused.*1) as Hina by (apply Hkeys; eauto).
  assert (b ∈ fused.*1) as Hinb by (apply Hkeys; eauto).
  apply list_elem_of_fmap in Hina as ([a' sa] & -> & Hina).
  apply list_elem_of_fmap in Hinb as ([b' sb] & -> & Hinb). simpl in *.
  assert (Hlt : (sb < sa)%R).
  { rewrite (Hval _ _ Hina), (Hval _ _ Hinb), !rrf_total_sum by done.
    apply rrf_sum_before; [done|done|]. by exists rb_list. }
  apply list_elem_of_lookup in Hina as [i Hi].
  apply list_elem_of_lookup in Hinb as [j Hj].
  exists fused, i, j, sa, sb. repeat split; try done.
  destruct (decide (i < j)) as [|Hge]; [done|]. exfalso.
  destruct (decide (i = j)) as [->|Hne].
  - rewrite Hi in Hj. injection Hj as -> ->. lra.
  - pose proof (StronglySorted_lookup _ _ j i _ _ Hsorted ltac:(lia) Hj Hi) as Hle.
    simpl in Hle. lra.
Qed.

Lemma sample_rankings_before : ranked_before sample_rankings 0 1.
Proof.
  intros r rb Hr Hrank. unfold sample_rankings in Hr.
  repeat (apply elem_of_cons in Hr as [->|Hr]); [| |by apply elem_of_nil in Hr].
  - injection Hrank as <-. exists 0. by split; [|lia].
  - done.
Qed.

(** The witness: documents 0 and 1 of [sample_rankings]. *)
Lemma rrf_respects_agreement_witness :
  exists fused i j sa sb,
    reciprocal_rank_fusion sample_rankings K = Ok fused /\
    fused !! i = Some (0, sa) /\ fused !! j = Some (1, sb) /\
    (sb < sa)%R /\ i < j.
Proof.
  apply (rrf_respects_agreement sample_rankings 0 1 sample_rankings_NoDup
           sample_rankings_before).
  exists [(0, 2.5%R); (1, 1%R)]. split; [by left|]. right. by left.
Defined.




Lemma rrf_sum_le k rankings d :
  (0 <= k)%Z -> (rrf_sum k rankings d <= INR (length rankings) / (IZR k + 1))%R.
Proof.
  intros Hk. induction rankings as [|r rankings IH].
  - simpl. lra.
  - cbn [rrf_sum foldr length]. fold (rrf_sum k rankings d).
    rewrite S_INR. pose proof (rrf_term_le k d r Hk). lra.
Qed.

(** X14.  With the engine's constant and two ranked lists, neither of which
    names a document twice, every fused score is positive and at most
    [2 / (K + 1)]: no [rrf_score] exceeds [2/61], the score of a document
    that is first in both lists. *)
Theorem rrf_two_lists_score_bounds (first second : list (nat * R)) :
  NoDup first.*1 -> NoDup second.*1 ->
  exists fused,
    reciprocal_rank_fusion [first; second] K = Ok fused /\
    forall d s, (d, s) ∈ fused -> (0 < s <= 2 / (IZR K + 1))%R.
Proof.
  intros Hfirst Hsecond. assert (HK : (0 <= K)%Z) by (unfold K; lia).
  assert (Hnd : forall ranking, ranking ∈ [first; second] -> NoDup ranking.*1).
  { intros ranking Hr. repeat (apply elem_of_cons in Hr as [->|Hr]); try done.
    by apply elem_of_nil in Hr. }
  destruct (rrf_facts [first; second] K HK) as (fused & Hrun & _ & Hkeys & _ & Hval).
  exists fused. split; [done|]. intros d s Hin. rewrite (Hval _ _ Hin). split.
  - assert (d ∈ fused.*1) as Hd by (apply list_elem_of_fmap; by exists (d, s)).
    apply Hkeys in Hd as (r & Hr & Hdr). by apply (rrf_total_pos K [first; second] r).
  - rewrite rrf_total_sum by done.
    pose proof (rrf_sum_le K [first; second] d HK) as Hle.
    change (INR (length [first; second])) with (INR 2) in Hle.
    replace (INR 2) with 2%R in Hle by (simpl; lra). done.
Qed.

(** The witness: the two lists of [sample_rankings]. *)
Lemma rrf_two_lists_score_bounds_witness :
  exists fused,
    reciprocal_rank_fusion [[(0, 2.5%R); (1, 1%R)]; [(0, 0.9%R); (2, 0.8%R)]] K
    = Ok fused /\
    forall d s, (d, s) ∈ fused -> (0 < s <= 2 / (IZR K + 1))%R.
Proof.
  apply (rrf_two_lists_score_bounds [(0, 2.5%R); (1, 1%R)] [(0, 0.9%R); (2, 0.8%R)]).
  - apply sample_rankings_NoDup. by left.
  - apply sample_rankings_NoDup. right. by left.
Defined.

End FusionFurther.

(** ** Vector store: building the index *)

Section BuildFacts.

Lemma embed_batches_pointwise create (f : string -> list R) n :
  0 < n ->
  (forall batch, batch <> [] -> length batch <= n -> create batch = Ok (map f batch)) ->
  forall fuel texts acc, length texts <= fuel ->
    LocalVectorStore.embed_batches create fuel texts n acc = Ok (acc ++ map f texts).
Proof.
  intros Hn Hcreate. induction fuel as [|fuel IH]; intros texts acc Hlen.
  - destruct texts; [|simpl in Hlen; lia]. simpl. by rewrite app_nil_r.
  - destruct texts as [|t texts]; [simpl; by rewrite app_nil_r|].
    cbn [LocalVectorStore.embed_batches].
    rewrite Hcreate; cycle 1.
    { destruct n; [lia|done]. }
    { rewrite length_take. lia. }
    change (LocalVectorStore.embed_batches create fuel (drop n (t :: texts)) n
              (acc ++ map f (take n (t :: texts)))
            = Ok (acc ++ map f (t :: texts))).
    rewrite IH.
    + by rewrite <- app_assoc, <- map_app, take_drop.
    + rewrite length_drop. simpl in *. lia.
Qed.

(** X15.  Batching is transparent.  With a positive batch size and a
    provider that embeds each text of a batch on its own, by [f], the list
    [_get_embeddings_batch] returns is [f] of every text, in the order of the
    texts; only batches that are non-empty and no longer than the batch size
    are sent. *)
Theorem get_embeddings_batch_in_order
  (create : list string -> result (list (list R))) (f : string -> list R)
  (texts : list string) (batch_size : Z) :
  (0 < batch_size)%Z ->
  (forall batch, batch <> [] -> (Z.of_nat (length batch) <= batch_size)%Z ->
                 create batch = Ok (map f batch)) ->
  LocalVectorStore._get_embeddings_batch create texts batch_size = Ok (map f texts).
Proof.
  intros Hpos Hcreate. unfold LocalVectorStore._get_embeddings_batch.
  destruct (batch_size =? 0)%Z eqn:Hz; [lia|].
  destruct (batch_size <? 0)%Z eqn:Hneg; [lia|].
  rewrite (embed_batches_pointwise create f (Z.to_nat batch_size)); [done|lia| |done].
  intros batch Hne Hlen. apply Hcreate; [done|lia].
Qed.

(** The witness: three texts in batches of two. *)
Lemma get_embeddings_batch_in_order_witness :
  LocalVectorStore._get_embeddings_batch unit_batch ["a"; "b"; "c"] 2
  = Ok (map (fun _ => [1%R]) ["a"; "b"; "c"]).
Proof.
  apply (get_embeddings_batch_in_order unit_batch (fun _ => [1%R])); [lia|done].
Defined.

Lemma build_index_hit create self d docs text_fields dir m cached :
  LocalVectorStore.files d !! LocalVectorStore._get_cache_path dir
  = Some (LocalVectorStore.Pickled m cached) ->
  length cached = length docs ->
  LocalVectorStore.build_index create self d docs text_fields (Some dir) false
  = ({| LocalVectorStore.client := LocalVectorStore.client self;
        LocalVectorStore.embeddings := m;
        LocalVectorStore.documents := cached;
        LocalVectorStore.is_ready := true |}, d, Ok ()).
Proof.
  intros Hfile Hlen. unfold LocalVectorStore.build_index, LocalVectorStore._load_cache.
  rewrite Hfile. cbn [LocalVectorStore.documents andb].
  rewrite Hlen, Nat.eqb_refl. done.
Qed.

Lemma cache_hit_inv d docs cache_dir force_rebuild :
  cache_hit d docs cache_dir force_rebuild = true ->
  exists dir m cached,
    cache_dir = Some dir /\ force_rebuild = false /\
    LocalVectorStore.files d !! LocalVectorStore._get_cache_path dir
    = Some (LocalVectorStore.Pickled m cached) /\
    length cached = length docs.
Proof.
  unfold cache_hit. destruct cache_dir as [dir|]; [|done].
  destruct force_rebuild; [done|]. simpl.
  destruct (LocalVectorStore.files d !! _) as [[|m|m cached]|] eqn:Hfile; try done.
  intros Hlen%Nat.eqb_eq. by exists dir, m, cached.
Qed.

Lemma build_index_miss create self d docs text_fields cache_dir force_rebuild :
  cache_hit d docs cache_dir force_rebuild = false ->
  exists embeddings0 ready0,
    LocalVectorStore.build_index create self d docs text_fields cache_dir force_rebuild
    = let texts :=
        map (fun doc => LocalVectorStore.embedding_text doc
                          (default ["judul"; "cakupan"] text_fields)) docs in
      let failed :=
        {| LocalVectorStore.client := LocalVectorStore.client self;
           LocalVectorStore.embeddings := embeddings0;
           LocalVectorStore.documents := docs;
           LocalVectorStore.is_ready := ready0 |} in
      match rows ← LocalVectorStore._get_embeddings_batch create texts 100;
            LocalVectorStore.np_vstack rows with
      | Raise e => (failed, d, Raise e)
      | Ok m =>
          let store :=
            {| LocalVectorStore.client := LocalVectorStore.client self;
               LocalVectorStore.embeddings := Some (LocalVectorStore.normalize_rows m);
               LocalVectorStore.documents := docs;
               LocalVectorStore.is_ready := true |} in
          (store,
           match cache_dir with
           | Some dir =>
               LocalVectorStore._save_cache store d (LocalVectorStore._get_cache_path dir)
           | None => d
           end, Ok ())
      end.
Proof.
  unfold cache_hit, LocalVectorStore.build_index, LocalVectorStore._load_cache.
  destruct cache_dir as [dir|]; [destruct force_rebuild|]; simpl.
  - intros _. exists (LocalVectorStore.embeddings self), (LocalVectorStore.is_ready self).
    destruct (LocalVectorStore._get_embeddings_batch _ _ _) as [rows|]; [|done].
    simpl. by destruct (LocalVectorStore.np_vstack rows).
  - destruct (LocalVectorStore.files d !! _) as [[|m|m cached]|]; simpl.
    + intros _.
      exists (LocalVectorStore.embeddings self), (LocalVectorStore.is_ready self).
      destruct (LocalVectorStore._get_embeddings_batch _ _ _) as [rows|]; [|done].
      simpl. by destruct (LocalVectorStore.np_vstack rows).
    + intros _. exists m, (LocalVectorStore.is_ready self).
      destruct (LocalVectorStore._get_embeddings_batch _ _ _) as [rows|]; [|done].
      simpl. by destruct (LocalVectorStore.np_vstack rows).
    + intros ->. exists m, true.
      destruct (LocalVectorStore._get_embeddings_batch _ _ _) as [rows|]; [|done].
      simpl. by destruct (LocalVectorStore.np_vstack rows).
    + intros _.
      exists (LocalVectorStore.embeddings self), (LocalVectorStore.is_ready self).
      destruct (LocalVectorStore._get_embeddings_batch _ _ _) as [rows|]; [|done].
      simpl. by destruct (LocalVectorStore.np_vstack rows).
  - intros _. exists (LocalVectorStore.embeddings self), (LocalVectorStore.is_ready self).
    destruct (LocalVectorStore._get_embeddings_batch _ _ _) as [rows|]; [|done].
    simpl. by destruct (LocalVectorStore.np_vstack rows).
Qed.

(** X16.  A cache that [build_index] wrote is read back.  After a call with a
    cache directory that returned and whose write succeeded, a later call on
    the same directory with as many documents, on any store and with any
    provider, returns without embedding anything: the store holds the
    embeddings and the documents of the first call, also when the documents
    it was given now are different ones. *)
Theorem build_index_cache_round_trip
  (create1 create2 : list string -> result (list (list R)))
  (self1 self2 store1 : LocalVectorStore.t) (d d1 : LocalVectorStore.disk)
  (docs docs' : list document) (text_fields text_fields' : option (list string))
  (dir : list string) (force_rebuild : bool) :
  LocalVectorStore.on_write d (LocalVectorStore._get_cache_path dir)
  = LocalVectorStore.Written ->
  LocalVectorStore.build_index create1 self1 d docs text_fields (Some dir) force_rebuild
  = (store1, d1, Ok ()) ->
  length docs' = length docs ->
  LocalVectorStore.build_index create2 self2 d1 docs' text_fields' (Some dir) false
  = ({| LocalVectorStore.client := LocalVectorStore.client self2;
        LocalVectorStore.embeddings := LocalVectorStore.embeddings store1;
        LocalVectorStore.documents := LocalVectorStore.documents store1;
        LocalVectorStore.is_ready := true |}, d1, Ok ()).
Proof.
  intros Hwrite Hfirst Hlen.
  destruct (cache_hit d docs (Some dir) force_rebuild) eqn:Hhit.
  - apply cache_hit_inv in Hhit as (dir' & m & cached & [= <-] & -> & Hfile & Hc).
    rewrite (build_index_hit _ _ _ _ _ _ _ _ Hfile Hc) in Hfirst.
    injection Hfirst as <- <-. simpl.
    apply build_index_hit; [done|congruence].
  - destruct (build_index_miss create1 self1 d docs text_fields (Some dir)
                force_rebuild Hhit) as (e0 & r0 & Heq).
    rewrite Heq in Hfirst. cbv zeta in Hfirst.
    destruct (_ ≫= _) as [m|]; [|done].
    injection Hfirst as <- <-. cbn [LocalVectorStore.embeddings LocalVectorStore.documents].
    apply build_index_hit; [|done].
    unfold LocalVectorStore._save_cache. rewrite Hwrite. simpl.
    by rewrite lookup_insert_eq.
Qed.

Lemma sample_build :
  LocalVectorStore.build_index unit_batch (LocalVectorStore.__init__ sample_client)
    empty_disk sample_docs None (Some ["cache"]) false
  = (sample_store (LocalVectorStore.normalize_rows [[1%R]; [1%R]]),
     {| LocalVectorStore.files :=
          {[ ["cache"; LocalVectorStore.CACHE_FILE] :=
               LocalVectorStore.Pickled
                 (Some (LocalVectorStore.normalize_rows [[1%R]; [1%R]])) sample_docs ]};
        LocalVectorStore.on_write := fun _ => LocalVectorStore.Written |},
     Ok ()).
Proof.
  destruct (build_index_miss unit_batch (LocalVectorStore.__init__ sample_client)
              empty_disk sample_docs None (Some ["cache"]) false eq_refl)
    as (e0 & r0 & ->).
  reflexivity.
Qed.

(** The witness: [sample_docs] are built and cached on an empty disk, and a
    store whose provider is down is then built from other documents. *)
Lemma build_index_cache_round_trip_witness :
  exists d1,
    LocalVectorStore.build_index failing_batch (LocalVectorStore.__init__ sample_client)
      d1 common_docs None (Some ["cache"]) false
    = (sample_store (LocalVectorStore.normalize_rows [[1%R]; [1%R]]), d1, Ok ()).
Proof.
  eexists.
  exact (build_index_cache_round_trip unit_batch failing_batch
           (LocalVectorStore.__init__ sample_client)
           (LocalVectorStore.__init__ sample_client) _ empty_disk _
           sample_docs common_docs None None ["cache"] false
           eq_refl sample_build eq_refl).
Defined.

(** X17.  A rebuild that fails half way leaves a store that looks usable.
    When the cache file holds a different number of documents and the
    provider then raises, [build_index] raises too, but the store is already
    marked ready and holds the embeddings of the cache next to the new
    documents. *)
Theorem rebuild_failure_leaves_cached_embeddings
  (create : list string -> result (list (list R))) (self : LocalVectorStore.t)
  (d : LocalVectorStore.disk) (docs : list document)
  (text_fields : option (list string)) (dir : list string)
  (m : option (list (list R))) (cached : list document) (e : exn) :
  LocalVectorStore.files d !! LocalVectorStore._get_cache_path dir
  = Some (LocalVectorStore.Pickled m cached) ->
  length cached <> length docs ->
  docs <> [] ->
  (forall batch, create batch = Raise e) ->
  LocalVectorStore.build_index create self d docs text_fields (Some dir) false
  = ({| LocalVectorStore.client := LocalVectorStore.client self;
        LocalVectorStore.embeddings := m;
        LocalVectorStore.documents := docs;
        LocalVectorStore.is_ready := true |}, d, Raise e).
Proof.
  intros Hfile Hlen Hdocs Hdown.
  unfold LocalVectorStore.build_index, LocalVectorStore._load_cache.
  rewrite Hfile. cbn [LocalVectorStore.documents andb].
  apply Nat.eqb_neq in Hlen. rewrite Hlen.
  destruct docs as [|doc docs]; [done|].
  unfold LocalVectorStore._get_embeddings_batch. simpl.
  by rewrite Hdown.
Qed.

(** The witness: a cache of one document, two documents to index, and a
    provider that is down. *)
Lemma rebuild_failure_leaves_cached_embeddings_witness :
  LocalVectorStore.build_index failing_batch (LocalVectorStore.__init__ sample_client)
    {| LocalVectorStore.files :=
         {[ ["cache"; LocalVectorStore.CACHE_FILE] :=
              LocalVectorStore.Pickled (Some [[1%R]]) [sample_doc "56101" "Restoran"] ]};
       LocalVectorStore.on_write := fun _ => LocalVectorStore.Written |}
    sample_docs None (Some ["cache"]) false
  = ({| LocalVectorStore.client := sample_client;
        LocalVectorStore.embeddings := Some [[1%R]];
        LocalVectorStore.documents := sample_docs;
        LocalVectorStore.is_ready := true |},
     {| LocalVectorStore.files :=
         {[ ["cache"; LocalVectorStore.CACHE_FILE] :=
              LocalVectorStore.Pickled (Some [[1%R]]) [sample_doc "56101" "Restoran"] ]};
       LocalVectorStore.on_write := fun _ => LocalVectorStore.Written |},
     Raise APIError).
Proof.
  apply (rebuild_failure_leaves_cached_embeddings failing_batch
           (LocalVectorStore.__init__ sample_client) _ sample_docs None ["cache"]
           (Some [[1%R]]) [sample_doc "56101" "Restoran"] APIError).
  - apply lookup_singleton_eq.
  - simpl. lia.
  - done.
  - done.
Defined.

Lemma filter_none_valid (documents : list document) :
  Forall (fun doc => HybridSearchEngine.valid_code doc = false) documents ->
  filter (fun doc => HybridSearchEngine.valid_code doc = true) documents = [].
Proof.
  induction 1 as [|doc documents Hdoc _ IH]; [done|].
  rewrite filter_cons. case_decide; [congruence|done].
Qed.

(** X18.  An engine cannot be initialised without a valid record.  When the
    codes of the documents are ASCII text, none of them is a five-digit
    number (an empty list included) and no cache is accepted, [initialize]
    raises [ValueError], from stacking zero embeddings, whatever the provider
    would answer; the engine keeps its ready flag and holds no document. *)
Theorem initialize_without_valid_documents
  (create : list string -> result (list (list R))) (d : LocalVectorStore.disk)
  (cache_dir : option (list string)) (self : HybridSearchEngine.t)
  (documents : list document) :
  ascii_codes documents ->
  Forall (fun doc => HybridSearchEngine.valid_code doc = false) documents ->
  cache_hit d [] cache_dir false = false ->
  exists self',
    HybridSearchEngine.initialize (initialize_build_index create d cache_dir)
      self documents = (self', Raise ValueError) /\
    HybridSearchEngine.is_ready self' = HybridSearchEngine.is_ready self /\
    HybridSearchEngine.documents self' = [].
Proof.
  intros _ Hnone Hmiss. unfold HybridSearchEngine.initialize.
  rewrite (filter_none_valid _ Hnone). unfold initialize_build_index.
  destruct (build_index_miss create (HybridSearchEngine.vector_store self) d []
              (Some ["judul"; "cakupan"]) cache_dir false Hmiss) as (e0 & r0 & ->).
  simpl. eauto.
Qed.

(** The witness: one record whose code has three digits, and no cache. *)
Lemma initialize_without_valid_documents_witness :
  exists self',
    HybridSearchEngine.initialize (initialize_build_index unit_batch empty_disk None)
      (HybridSearchEngine.__init__ sample_client) [sample_doc "561" "Restoran"]
    = (self', Raise ValueError) /\
    HybridSearchEngine.is_ready self' = false /\
    HybridSearchEngine.documents self' = [].
Proof.
  apply (initialize_without_valid_documents unit_batch empty_disk None
           (HybridSearchEngine.__init__ sample_client) [sample_doc "561" "Restoran"]).
  - repeat constructor.
  - repeat constructor.
  - reflexivity.
Defined.

(** X20.  Writing the cache cannot make [build_index] fail or change the
    store.  On two disks with the same files, whatever happens to the writes
    on either, [build_index] leaves the same store and has the same outcome:
    an error of [_save_cache] is swallowed. *)
Theorem cache_write_failure_is_silent
  (create : list string -> result (list (list R))) (self : LocalVectorStore.t)
  (d : LocalVectorStore.disk) (writes : list string -> LocalVectorStore.write_outcome)
  (docs : list document) (text_fields : option (list string))
  (cache_dir : option (list string)) (force_rebuild : bool) :
  (LocalVectorStore.build_index create self
     {| LocalVectorStore.files := LocalVectorStore.files d;
        LocalVectorStore.on_write := writes |}
     docs text_fields cache_dir force_rebuild).1.1
  = (LocalVectorStore.build_index create self d docs text_fields cache_dir
                                  force_rebuild).1.1 /\
  (LocalVectorStore.build_index create self
     {| LocalVectorStore.files := LocalVectorStore.files d;
        LocalVectorStore.on_write := writes |}
     docs text_fields cache_dir force_rebuild).2
  = (LocalVectorStore.build_index create self d docs text_fields cache_dir
                                  force_rebuild).2.
Proof.
  unfold LocalVectorStore.build_index, LocalVectorStore._load_cache.
  cbn [LocalVectorStore.files].
  destruct cache_dir as [dir|]; [destruct force_rebuild|]; simpl.
  - destruct (LocalVectorStore._get_embeddings_batch _ _ _) as [rows|]; [|done].
    by destruct (LocalVectorStore.np_vstack rows).
  - destruct (LocalVectorStore.files d !! _) as [[|m|m cached]|]; simpl;
      try destruct (length cached =? length docs)%nat; simpl; try done;
      (destruct (LocalVectorStore._get_embeddings_batch _ _ _) as [rows|]; [|done];
       by destruct (LocalVectorStore.np_vstack rows)).
  - destruct (LocalVectorStore._get_embeddings_batch _ _ _) as [rows|]; [|done].
    by destruct (LocalVectorStore.np_vstack rows).
Qed.

End BuildFacts.

(** ** Re-ranker and engine: the shape of the results *)

Section ResultShape.

Lemma map_back_length (candidates : list candidate) rankings reranked out :
  SemanticReranker.map_back candidates rankings reranked = Ok out ->
  length out <= length reranked + length rankings.
Proof.
  revert reranked. induction rankings as [|item rankings IH]; intros reranked; simpl.
  - intros [= <-]. lia.
  - destruct item as [index relevance reason|]; [|done].
    case_decide as Hidx.
    + destruct (py_index candidates _) as [c0|]; [|done]. simpl.
      intros Hout%IH. rewrite length_app in Hout. simpl in Hout. lia.
    + intros Hout%IH. lia.
Qed.

Lemma rerank_length self query (candidates : list candidate) top_k :
  (0 <= top_k)%Z ->
  (Z.of_nat (length (SemanticReranker.rerank self query candidates top_k)) <= top_k)%Z.
Proof.
  intros Hk. unfold SemanticReranker.rerank. destruct candidates as [|c cs].
  - simpl. lia.
  - destruct (SemanticReranker.judge_and_map _ _ _ _) as [out|] eqn:Hout.
    + unfold SemanticReranker.judge_and_map in Hout.
      destruct (judge_rankings _ _ _) as [rankings|]; [|done]. simpl in Hout.
      apply map_back_length in Hout. simpl in Hout.
      pose proof (py_prefix_length_le rankings top_k Hk). lia.
    + by apply py_prefix_length_le.
Qed.

Lemma rerank_entries_capped self query (candidates : list candidate) top_k c :
  c ∈ SemanticReranker.rerank self query candidates top_k ->
  exists c0, c0 ∈ py_prefix candidates 15 /\
    (c = c0 \/ exists relevance reason, c = judged c0 relevance reason).
Proof.
  unfold SemanticReranker.rerank. destruct candidates as [|c1 cs].
  - intros Hc. by apply elem_of_nil in Hc.
  - set (capped := py_prefix (c1 :: cs) 15).
    destruct (SemanticReranker.judge_and_map self query capped top_k)
      as [out|] eqn:Hout.
    + unfold SemanticReranker.judge_and_map in Hout.
      destruct (judge_rankings _ _ _) as [rankings|]; [|done]. simpl in Hout.
      intros Hc. destruct (map_back_entries _ _ _ _ Hout c Hc)
        as [Hin|(c0 & rel & reason & Hc0 & ->)].
      * by apply elem_of_nil in Hin.
      * exists c0. split; [done|]. right. by exists rel, reason.
    + intros Hc. exists c. split; [|by left]. by apply py_prefix_subseteq in Hc.
Qed.

(** X21.  Whatever the judge answers, [rerank] with a count [top_k >= 0]
    returns at most [top_k] entries, and each of them is one of the first
    fifteen candidates, either as it was or with the keys [relevance_score]
    and [reasoning] set: the judge can reorder, drop and repeat candidates,
    not invent them. *)
Theorem rerank_result_shape (self : SemanticReranker.t) (query : string)
  (candidates : list candidate) (top_k : Z) :
  (0 <= top_k)%Z ->
  (Z.of_nat (length (SemanticReranker.rerank self query candidates top_k)) <= top_k)%Z /\
  forall c, c ∈ SemanticReranker.rerank self query candidates top_k ->
    exists c0, c0 ∈ py_prefix candidates 15 /\
      (c = c0 \/ exists relevance reason, c = judged c0 relevance reason).
Proof.
  intros Hk. split; [by apply rerank_length|].
  intros c. apply rerank_entries_capped.
Qed.

(** The witness: sixteen candidates and a count of three. *)
Lemma rerank_result_shape_witness :
  (Z.of_nat (length (SemanticReranker.rerank (SemanticReranker.__init__ sample_client)
                       "restoran" sixteen_candidates 3)) <= 3)%Z.
Proof.
  apply (rerank_result_shape (SemanticReranker.__init__ sample_client) "restoran"
           sixteen_candidates 3).
  lia.
Defined.

Section WithArgsort.
Variable np_argsort : list R -> list nat.

Lemma search_length self query top_k use_reranking retrieval_top_k r :
  (0 <= top_k)%Z ->
  HybridSearchEngine.search np_argsort self query top_k use_reranking retrieval_top_k
  = Ok r ->
  (Z.of_nat (length (HybridSearchEngine.results r)) <= top_k)%Z.
Proof.
  intros Hk Hrun. destruct (HybridSearchEngine.is_ready self) eqn:Hready.
  - rewrite search_retrieve in Hrun by done.
    destruct (HybridSearchEngine.retrieve _ _ _ _) as [[[[b v] f] cands]|]; [|done].
    simpl in Hrun. injection Hrun as <-. simpl. rewrite length_map.
    destruct use_reranking, cands as [|c cs];
      (apply rerank_length || apply py_prefix_length_le); done.
  - unfold HybridSearchEngine.search in Hrun. rewrite Hready in Hrun.
    simpl in Hrun. injection Hrun as <-. simpl. lia.
Qed.

(** X22.  With a count [top_k >= 0], [search] returns at most [top_k]
    results, with or without re-ranking and whatever [retrieval_top_k] is,
    and so does [search_simple]. *)
Theorem search_returns_at_most_top_k (self : HybridSearchEngine.t) (query : string)
  (top_k : Z) (use_reranking : bool) (retrieval_top_k : Z) :
  (0 <= top_k)%Z ->
  (forall r,
     HybridSearchEngine.search np_argsort self query top_k use_reranking
                               retrieval_top_k = Ok r ->
     (Z.of_nat (length (HybridSearchEngine.results r)) <= top_k)%Z) /\
  (forall rs,
     HybridSearchEngine.search_simple np_argsort self query top_k = Ok rs ->
     (Z.of_nat (length rs) <= top_k)%Z).
Proof.
  intros Hk. split.
  - intros r. by apply search_length.
  - intros rs. unfold HybridSearchEngine.search_simple.
    destruct (HybridSearchEngine.search _ _ _ _ _ _) as [r|] eqn:Hrun; [|done].
    simpl. intros [= <-]. by eapply search_length.
Qed.

Lemma retrieve_fused self query retrieval_top_k b v f (cands : list candidate) :
  HybridSearchEngine.retrieve np_argsort self query retrieval_top_k = Ok (b, v, f, cands) ->
  reciprocal_rank_fusion [b; v] 60 = Ok f.
Proof.
  unfold HybridSearchEngine.retrieve.
  destruct (HybridSearchEngine._bm25_search self query retrieval_top_k); [|done].
  simpl. destruct (LocalVectorStore.search _ _ _ _); [|done]. simpl.
  destruct (reciprocal_rank_fusion _ _) eqn:Hf; [|done]. simpl.
  destruct (HybridSearchEngine.collect _ _ _ _); [|done]. simpl.
  by intros [= <- <- <- <-].
Qed.

Lemma collect_order docs l (candidates : list candidate) (seen_codes : gset string) out :
  HybridSearchEngine.collect docs l candidates seen_codes = Ok out ->
  exists new sub,
    out = candidates ++ new /\ sub `sublist_of` l /\
    Forall2 (fun (c : candidate) (e : nat * R) =>
               c !! "rrf_score" = Some (VFloat e.2)) new sub.
Proof.
  revert candidates seen_codes.
  induction l as [|[doc_idx rrf_score] l IH]; intros candidates seen_codes; simpl.
  - intros [= <-]. exists [], []. rewrite app_nil_r. by repeat split.
  - destruct (py_index docs doc_idx) as [doc|]; [|done]. simpl.
    case_decide; intros (new & sub & -> & Hsub & Hall)%IH.
    + exists new, sub. split; [done|]. split; [by apply sublist_cons|done].
    + exists (HybridSearchEngine.make_candidate doc rrf_score doc_idx :: new),
             ((doc_idx, rrf_score) :: sub).
      split; [by rewrite <- app_assoc|]. split; [by apply sublist_skip|].
      constructor; [apply make_candidate_rrf_score|done].
Qed.

Lemma StronglySorted_sublist {A} (rel : A -> A -> Prop) (k l : list A) :
  k `sublist_of` l -> StronglySorted rel l -> StronglySorted rel k.
Proof.
  induction 1 as [|x k l Hsub IH|x k l Hsub IH]; intros Hs.
  - constructor.
  - apply StronglySorted_inv in Hs as [Hl Hall]. constructor; [by apply IH|].
    apply Forall_forall. intros y Hy. eapply Forall_forall in Hall; [exact Hall|].
    by eapply elem_of_sublist.
  - apply StronglySorted_inv in Hs as [Hl _]. by apply IH.
Qed.

Lemma cand_code_delete (c : candidate) :
  cand_code (delete "_doc_idx" c) = cand_code c.
Proof. unfold cand_code. by rewrite lookup_delete_ne. Qed.

End WithArgsort.

(** The witness: the sample engine, through [search_simple]. *)
Lemma search_returns_at_most_top_k_witness :
  exists rs,
    HybridSearchEngine.search_simple argsort_stable sample_engine "jual nasi goreng" 2
    = Ok rs /\ (Z.of_nat (length rs) <= 2)%Z.
Proof.
  assert (Hrun : HybridSearchEngine.search_simple argsort_stable sample_engine
                   "jual nasi goreng" 2
                 = Ok (map (delete "_doc_idx") sample_candidates)).
  { unfold HybridSearchEngine.search_simple. by rewrite sample_search_run by lia. }
  eexists. split; [exact Hrun|].
  apply (search_returns_at_most_top_k argsort_stable sample_engine
           "jual nasi goreng" 2 true 20); [lia|exact Hrun].
Defined.

End ResultShape.

(** ** Engine: order of the results, and a fresh engine answers *)

Section EngineRuns.

Lemma unranked_results (np_argsort : list R -> list nat) self query top_k
  retrieval_top_k r :
  HybridSearchEngine.search np_argsort self query top_k false retrieval_top_k = Ok r ->
  exists (kept : list candidate) (scores : list (nat * R)),
    HybridSearchEngine.results r = delete "_doc_idx" <$> kept /\
    NoDup (cand_code <$> kept) /\
    desc_sorted snd scores /\
    Forall2 (fun (c : candidate) (e : nat * R) =>
               c !! "rrf_score" = Some (VFloat e.2)) kept scores.
Proof.
  intros Hrun. destruct (HybridSearchEngine.is_ready self) eqn:Hready; cycle 1.
  { unfold HybridSearchEngine.search in Hrun. rewrite Hready in Hrun.
    simpl in Hrun. injection Hrun as <-. exists [], [].
    repeat split; constructor. }
  rewrite search_retrieve in Hrun by done.
  destruct (HybridSearchEngine.retrieve _ _ _ _) as [[[[b v] f] cands]|] eqn:Hret;
    [|done].
  simpl in Hrun. injection Hrun as <-.
  pose proof (retrieve_fused _ _ _ _ _ _ _ _ Hret) as Hfuse.
  pose proof (retrieve_candidates _ _ _ _ _ _ _ _ Hret) as Hcollect.
  destruct (rrf_facts [b; v] 60 ltac:(lia)) as (f' & Hf' & _ & _ & Hsorted & _).
  rewrite Hfuse in Hf'. injection Hf' as <-.
  destruct (collect_order _ _ _ _ _ Hcollect) as (new & sub & Hnew & Hsub & Hall).
  destruct (collect_spec _ _ _ _ _ Hcollect) as (new' & Hnew' & Hnd & _).
  simpl in Hnew, Hnew'. subst new' cands.
  destruct (py_prefix_take new top_k) as [n Hn].
  exists (take n new), (take n sub). split; [|split; [|split]].
  - simpl. by rewrite Hn.
  - rewrite fmap_take. eapply sublist_NoDup; [|apply sublist_take]. done.
  - apply StronglySorted_take. eapply StronglySorted_sublist; [exact Hsub|].
    by apply desc_sorted_py_prefix.
  - by apply Forall2_take.
Qed.

(** X23.  Without re-ranking, the results of [search] are in the order of
    their fused scores and name every identifier once: of two results, the
    earlier one carries an [rrf_score] at least as large as the later one,
    and their [kode_kbli] differ. *)
Theorem unranked_results_ordered (np_argsort : list R -> list nat)
  (self : HybridSearchEngine.t) (query : string) (top_k retrieval_top_k : Z)
  (r : HybridSearchEngine.response) (i j : nat) (ci cj : candidate) :
  HybridSearchEngine.search np_argsort self query top_k false retrieval_top_k = Ok r ->
  i < j ->
  HybridSearchEngine.results r !! i = Some ci ->
  HybridSearchEngine.results r !! j = Some cj ->
  cand_code ci <> cand_code cj /\
  exists si sj, ci !! "rrf_score" = Some (VFloat si) /\
                cj !! "rrf_score" = Some (VFloat sj) /\ (sj <= si)%R.
Proof.
  intros Hrun Hij Hi Hj.
  destruct (unranked_results _ _ _ _ _ _ Hrun)
    as (kept & scores & Hres & Hnd & Hsorted & Hall).
  rewrite Hres in Hi, Hj. rewrite list_lookup_fmap in Hi, Hj.
  destruct (kept !! i) as [ci0|] eqn:Hi0; [|done].
  destruct (kept !! j) as [cj0|] eqn:Hj0; [|done].
  simpl in Hi, Hj. injection Hi as <-. injection Hj as <-. split.
  - rewrite !cand_code_delete. intros Heq.
    assert (i = j); [|lia].
    eapply NoDup_lookup; [exact Hnd| |]; rewrite list_lookup_fmap.
    + by rewrite Hi0.
    + rewrite Hj0. simpl. by rewrite Heq.
  - destruct (Forall2_lookup_l _ _ _ _ _ Hall Hi0) as (ei & Hei & Hsi).
    destruct (Forall2_lookup_l _ _ _ _ _ Hall Hj0) as (ej & Hej & Hsj).
    exists ei.2, ej.2. rewrite !lookup_delete_ne by done.
    split; [done|]. split; [done|].
    apply (StronglySorted_lookup _ _ i j _ _ Hsorted Hij Hei Hej).
Qed.

(** The witness: the two results of the sample engine. *)
Lemma unranked_results_ordered_witness :
  cand_code (delete "_doc_idx" (HybridSearchEngine.make_candidate
               (sample_doc "56101" "Restoran") (0 + 1 / 61) 1))
  <> cand_code (delete "_doc_idx" (HybridSearchEngine.make_candidate
               (sample_doc "47111" "Perdagangan Eceran Makanan") (0 + 1 / 62) 0)) /\
  exists si sj,
    delete "_doc_idx" (HybridSearchEngine.make_candidate
      (sample_doc "56101" "Restoran") (0 + 1 / 61) 1) !! "rrf_score"
    = Some (VFloat si) /\
    delete "_doc_idx" (HybridSearchEngine.make_candidate
      (sample_doc "47111" "Perdagangan Eceran Makanan") (0 + 1 / 62) 0) !! "rrf_score"
    = Some (VFloat sj) /\ (sj <= si)%R.
Proof.
  apply (unranked_results_ordered argsort_stable sample_engine "jual nasi goreng"
           5 20 _ 0 1 _ _ (sample_search_run 5 false ltac:(lia)));
    [lia|reflexivity|reflexivity].
Defined.

Lemma np_vstack_uniform (rows : list (list R)) (dim : nat) :
  rows <> [] -> Forall (fun row => length row = dim) rows ->
  LocalVectorStore.np_vstack rows = Ok rows.
Proof.
  destruct rows as [|row rows]; [done|]. intros _ Hall.
  apply Forall_cons in Hall as [Hrow Hall]. simpl.
  rewrite (proj2 (forallb_forall _ rows)); [done|].
  intros r Hr%list_elem_of_In. eapply Forall_forall in Hall; [|exact Hr].
  apply Nat.eqb_eq. congruence.
Qed.

Lemma np_dot_mv_uniform (m : list (list R)) (v : list R) :
  Forall (fun row => length row = length v) m ->
  np_dot_mv m v = Ok (map (fun row => np_dot row v) m).
Proof.
  intros Hall. unfold np_dot_mv. rewrite (proj2 (forallb_forall _ m)); [done|].
  intros r Hr%list_elem_of_In. eapply Forall_forall in Hall; [|exact Hr].
  by apply Nat.eqb_eq.
Qed.

Lemma pointwise_batches create (f : string -> list R) texts :
  (forall batch, batch <> [] -> length batch <= 100 -> create batch = Ok (map f batch)) ->
  LocalVectorStore._get_embeddings_batch create texts 100 = Ok (map f texts).
Proof.
  intros Hcreate. unfold LocalVectorStore._get_embeddings_batch.
  change (100 =? 0)%Z with false. change (100 <? 0)%Z with false.
  cbv iota. rewrite (embed_batches_pointwise create f (Z.to_nat 100)); [done|lia| |done].
  intros batch Hne Hlen. apply Hcreate; [done|lia].
Qed.

(** A ready engine whose BM25 index was fitted on its documents, and whose
    store holds one row of the query's dimension per document, answers. *)
Lemma consistent_engine_answers (np_argsort : list R -> list nat)
  (self : HybridSearchEngine.t) (m : list (list R)) (fields : option (list string))
  (base : BM25.t) (query : string) (q : list R)
  (top_k : Z) (use_reranking : bool) (retrieval_top_k : Z) :
  argsort_contract np_argsort ->
  HybridSearchEngine.is_ready self = true ->
  (0 <= BM25.k1 base)%R -> (0 <= BM25.b base <= 1)%R ->
  HybridSearchEngine.bm25 self = BM25.fit base (HybridSearchEngine.documents self) fields ->
  LocalVectorStore.is_ready (HybridSearchEngine.vector_store self) = true ->
  LocalVectorStore.embeddings (HybridSearchEngine.vector_store self) = Some m ->
  length m = length (HybridSearchEngine.documents self) ->
  LocalVectorStore._get_embedding (HybridSearchEngine.vector_store self) query = Ok q ->
  Forall (fun row => length row = length q) m ->
  exists total bm25_top vector_top rs,
    HybridSearchEngine.search np_argsort self query top_k use_reranking retrieval_top_k
    = Ok (HybridSearchEngine.Found query total bm25_top vector_top rs).
Proof.
  intros Hsort Hready Hk1 Hb Hbm25 Hsready Hemb Hlen Hq Hdim.
  rewrite search_retrieve by done. unfold HybridSearchEngine.retrieve.
  (* BM25 *)
  unfold HybridSearchEngine._bm25_search. rewrite Hbm25.
  destruct (fit_search_structure base (HybridSearchEngine.documents self) fields
              query retrieval_top_k Hk1 Hb) as (scores & -> & _ & Hidx & _).
  set (bres := py_prefix (py_sorted_desc snd scores) retrieval_top_k).
  assert (Hbres : Forall (fun e : nat * R =>
                            e.1 < length (HybridSearchEngine.documents self)) bres).
  { apply Forall_forall. intros e He. apply py_prefix_subseteq in He.
    apply elem_of_py_sorted_desc in He. by eapply Forall_forall in Hidx. }
  cbn [mbind result_bind].
  (* vector store *)
  rewrite vector_search_unfold by done. unfold similarities_of.
  rewrite Hq, Hemb. cbn [mbind result_bind].
  rewrite np_dot_mv_uniform; cycle 1.
  { eapply Forall_impl; [exact Hdim|]. intros row Hrow. by rewrite length_map. }
  cbn [mbind result_bind].
  set (sims := map _ m).
  assert (Hsims : length sims = length (HybridSearchEngine.documents self)).
  { unfold sims. by rewrite length_map. }
  destruct (pair_up_total sims (py_prefix (rev (np_argsort sims)) retrieval_top_k))
    as [vres Hvres]; [by apply argsort_indices|].
  rewrite Hvres. cbn [mbind result_bind].
  assert (Hvidx : Forall (fun e : nat * R =>
                            e.1 < length (HybridSearchEngine.documents self)) vres).
  { apply pair_up_inv in Hvres as [-> Hall]. apply Forall_forall.
    intros e (i & <- & Hi)%list_elem_of_In%in_map_iff. simpl.
    apply list_elem_of_In in Hi. eapply Forall_forall in Hall; [|exact Hi]. lia. }
  (* fusion *)
  destruct (rrf_facts [bres; vres] 60 ltac:(lia)) as (fused & -> & _ & Hkeys & _).
  cbn [mbind result_bind].
  (* candidates *)
  destruct (collect_total (HybridSearchEngine.documents self)
              (py_prefix fused retrieval_top_k) [] ∅) as [cands ->].
  { apply Forall_forall. intros e He. apply py_prefix_subseteq in He.
    assert (e.1 ∈ fused.*1) as Hin by (apply list_elem_of_fmap; by exists e).
    apply Hkeys in Hin as (ranking & Hr & Hd).
    apply list_elem_of_fmap in Hd as (e' & -> & He').
    repeat (apply elem_of_cons in Hr as [->|Hr]).
    - by eapply Forall_forall in Hbres.
    - by eapply Forall_forall in Hvidx.
    - by apply elem_of_nil in Hr. }
  cbn [mbind result_bind]. eauto.
Qed.

(** X24.  A fresh engine that was initialised answers every query.  Let the
    provider embed every text on its own, in one dimension for documents and
    queries, let [np.argsort] return a sorted permutation, let the codes of
    the documents be ASCII text, at least one of them a valid code, and let
    no cache be accepted.  Then
    [initialize] on a new engine returns, and every later [search], with any
    counts and with or without re-ranking, returns a result dict: no lookup
    goes out of range and no division fails. *)
Theorem fresh_engine_answers (np_argsort : list R -> list nat)
  (create : list string -> result (list (list R))) (f : string -> list R)
  (client : AsyncOpenAI) (d : LocalVectorStore.disk)
  (cache_dir : option (list string)) (documents : list document) (dim : nat) :
  argsort_contract np_argsort ->
  (forall batch, batch <> [] -> length batch <= 100 -> create batch = Ok (map f batch)) ->
  (forall text, length (f text) = dim) ->
  (forall query, exists q, embeddings_create client query = Ok q /\ length q = dim) ->
  ascii_codes documents ->
  (exists doc, doc ∈ documents /\ HybridSearchEngine.valid_code doc = true) ->
  cache_hit d (filter (fun doc => HybridSearchEngine.valid_code doc = true) documents)
            cache_dir false = false ->
  exists engine,
    HybridSearchEngine.initialize (initialize_build_index create d cache_dir)
      (HybridSearchEngine.__init__ client) documents = (engine, Ok ()) /\
    forall query top_k use_reranking retrieval_top_k,
    exists total bm25_top vector_top rs,
      HybridSearchEngine.search np_argsort engine query top_k use_reranking
                                retrieval_top_k
      = Ok (HybridSearchEngine.Found query total bm25_top vector_top rs).
Proof.
  intros Hsort Hcreate Hdim Hquery _ (doc & Hdoc & Hvalid) Hmiss.
  unfold HybridSearchEngine.initialize, initialize_build_index.
  set (valid_docs := filter _ documents) in *.
  assert (Hne : valid_docs <> []).
  { intros Hnil. assert (doc ∈ valid_docs) as Hin by by apply list_elem_of_filter.
    rewrite Hnil in Hin. by apply elem_of_nil in Hin. }
  destruct (build_index_miss create
              (HybridSearchEngine.vector_store (HybridSearchEngine.__init__ client))
              d valid_docs (Some ["judul"; "cakupan"]) cache_dir false Hmiss)
    as (e0 & r0 & ->).
  cbv zeta. rewrite (pointwise_batches create f) by done. cbn [mbind result_bind].
  rewrite (np_vstack_uniform _ dim); cycle 1.
  { destruct valid_docs; done. }
  { apply Forall_forall. intros row (t & <- & _)%list_elem_of_In%in_map_iff. apply Hdim. }
  eexists. split; [reflexivity|].
  intros query top_k use_reranking retrieval_top_k.
  destruct (Hquery query) as (q & Hq & Hqdim).
  eapply (consistent_engine_answers np_argsort _ _
            (Some ["judul"; "hierarki"; "cakupan"]) (BM25.__init__ 1.5 0.75) query q);
    simpl; try done; try lra.
  - unfold LocalVectorStore.normalize_rows. by rewrite !length_map.
  - unfold LocalVectorStore.normalize_rows. apply Forall_forall.
    intros row (row0 & <- & (t & <- & _)%in_map_iff)%list_elem_of_In%in_map_iff.
    rewrite length_map. by rewrite Hdim.
Qed.

(** The witness: the sample documents, a provider that answers [[1]] to
    every text, the stable sort, and no cache. *)
Lemma fresh_engine_answers_witness :
  exists engine,
    HybridSearchEngine.initialize (initialize_build_index unit_batch empty_disk None)
      (HybridSearchEngine.__init__ sample_client) sample_docs = (engine, Ok ()) /\
    forall query top_k use_reranking retrieval_top_k,
    exists total bm25_top vector_top rs,
      HybridSearchEngine.search argsort_stable engine query top_k use_reranking
                                retrieval_top_k
      = Ok (HybridSearchEngine.Found query total bm25_top vector_top rs).
Proof.
  apply (fresh_engine_answers argsort_stable unit_batch (fun _ => [1%R]) sample_client
           empty_disk None sample_docs 1 argsort_stable_contract).
  - done.
  - done.
  - intros query. by exists [1%R].
  - repeat constructor.
  - exists (sample_doc "56101" "Restoran"). split; [|reflexivity].
    right. by left.
  - reflexivity.
Defined.

End EngineRuns.
